(** * monad-watcher-bot: the polling, de-duplication and delivery pipeline

    A shallow embedding of [src/bot.py].  Python values that come out of
    JSON are represented by [pyval] (scalars) and [json] (documents), the
    two state files by a finite map from path to content, the processed
    set by a [gset], and the effectful code (file writes, HTTP posts,
    sleeps, prints, exceptions) by a monad of state, exceptions and
    observable events over a [machine] that also carries the script of
    the environment's answers. *)

From Stdlib Require Import ZArith Ascii String List Lia.
From stdpp Require Import base gmap sets list strings pretty.

#[local] Set Warnings "-clear-no-such-hyp".

Local Open Scope string_scope.
Local Open Scope list_scope.
Local Open Scope Z_scope.

(** ** Python strings *)

Module PyStr.

(** [text.replace(ch, new)] for a one-character [ch]: every occurrence of
    [ch], left to right, is replaced by [new]. *)
Fixpoint replace (ch : ascii) (new : string) (text : string) : string :=
  match text with
  | EmptyString => EmptyString
  | String c rest =>
      if Ascii.eqb c ch then new +:+ replace ch new rest
      else String c (replace ch new rest)
  end.

(** [s.startswith(p)] *)
Definition startswith (p s : string) : bool := String.prefix p s.

(** A [str] is held as its UTF-8 bytes, while [len] and the slices of
    Python count characters (code points).  In UTF-8 a character is one
    byte that is not a continuation byte ([10xxxxxx]) and the continuation
    bytes that follow it. *)
Definition continuation (c : ascii) : bool :=
  match c with
  | Ascii _ _ _ _ _ _ false true => true
  | _ => false
  end.

(** A string that begins at a character boundary, as every [str] does. *)
Definition aligned (s : string) : Prop :=
  match s with
  | EmptyString => True
  | String c _ => continuation c = false
  end.

(** [len(s)] *)
Fixpoint len (s : string) : nat :=
  match s with
  | EmptyString => O
  | String c rest => if continuation c then len rest else S (len rest)
  end.

(** [s[:n]] for [n >= 0]: the first [n] characters, each with its
    continuation bytes. *)
Fixpoint take (n : nat) (s : string) : string :=
  match s with
  | EmptyString => EmptyString
  | String c rest =>
      if continuation c then String c (take n rest)
      else match n with
           | O => EmptyString
           | S n' => String c (take n' rest)
           end
  end.

(** [s[n:]] for [n >= 0]: what follows the first [n] characters. *)
Fixpoint drop (n : nat) (s : string) : string :=
  match s with
  | EmptyString => EmptyString
  | String c rest =>
      if continuation c then drop n rest
      else match n with
           | O => s
           | S n' => drop n' rest
           end
  end.

(** [s[-n:]] for [n > 0]: the last [n] characters, the whole string when
    it is shorter. *)
Definition last_chars (n : nat) (s : string) : string :=
  drop (len s - n) s.

(** [str(z)] for an integer. *)
Definition of_Z (z : Z) : string := pretty z.

(** [a > b] on strings: lexicographic on code points. *)
Definition gtb (a b : string) : bool :=
  match String.compare a b with Gt => true | _ => false end.

Definition leb (a b : string) : bool := negb (gtb a b).

End PyStr.

(** ** [escape_markdown] *)

Definition backslash : ascii := "\"%char.

(** The raw string literal [r'_*\[\]()~`>#+\-=|{}.!'] of the source: in a
    raw literal the three backslashes are characters of the string. *)
Definition reserved : string := "_*\[\]()~`>#+\-=|{}.!".

(** [for ch in reserved: text = text.replace(ch, f"\\{ch}")] *)
Definition escape_markdown (text : string) : string :=
  fold_left
    (fun text ch => PyStr.replace ch (String backslash (String ch EmptyString)) text)
    (list_ascii_of_string reserved) text.

(** ** Python values

    [pyval] are the scalars a JSON document can hold in a column of the
    [transfers] table or in a state file: [None], integers and strings
    (booleans and floats do not occur in what the bot reads and are left
    out).  All of them are hashable, so they can be members of a Python set.
    [json] adds lists and dicts, a dict being given by its items, each key
    once. *)

Inductive pyval :=
  | PNone
  | PInt (z : Z)
  | PStr (s : string).

#[warnings="-register-all"] Inductive json :=
  | JVal (v : pyval)
  | JList (items : list json)
  | JDict (items : list (string * json)).

Global Instance pyval_eq_dec : EqDecision pyval.
Proof. solve_decision. Defined.

Global Instance pyval_countable : Countable pyval.
Proof.
  refine (inj_countable'
    (fun v => match v with
              | PNone => inl ()
              | PInt z => inr (inl z)
              | PStr s => inr (inr s)
              end)
    (fun x => match x with
              | inl _ => PNone
              | inr (inl z) => PInt z
              | inr (inr s) => PStr s
              end) _).
  by intros [].
Defined.

Module Py.

(** Truthiness: [if v:]. *)
Definition truthy (v : pyval) : bool :=
  match v with
  | PNone => false
  | PInt z => negb (z =? 0)
  | PStr s => negb (String.eqb s "")
  end.

(** [str(v)] *)
Definition str (v : pyval) : string :=
  match v with
  | PNone => "None"
  | PInt z => PyStr.of_Z z
  | PStr s => s
  end.

(** [a > b]: defined between two integers and between two strings, a
    [TypeError] ([None]) otherwise. *)
Definition gt (a b : pyval) : option bool :=
  match a, b with
  | PInt x, PInt y => Some (y <? x)
  | PStr x, PStr y => Some (PyStr.gtb x y)
  | _, _ => None
  end.

(** [d.get(key)] on the items of a dict: the value, if the key is there. *)
Fixpoint lookup {A} (key : string) (items : list (string * A)) : option A :=
  match items with
  | [] => None
  | (k, v) :: rest => if String.eqb k key then Some v else lookup key rest
  end.

End Py.

(** A row of the [transfers] table: the items of a dict from column name
    to scalar. *)
Abbreviation row := (list (string * pyval)).

(** [row.get(key, default)] *)
Definition row_get (r : row) (key : string) (dflt : pyval) : pyval :=
  default dflt (Py.lookup key r).

(** ** The two state files

    A file is seen through [json.load]: it either decodes to a document or
    it does not (an empty or partially written file does not).  A file is
    written the way the source writes it: [open(path, "w")] truncates the
    file in place, then [json.dump] fills it. *)

Inductive content :=
  | Doc (j : json)
  | Garbage.

Abbreviation files := (gmap string content).

Definition STATE_FILE : string := "state.json".
Definition PROCESSED_TXS_FILE : string := "processed_txs.json".

Inductive fsop :=
  | OpenW (path : string)
  | JsonDump (path : string) (j : json).

Definition apply_op (fs : files) (op : fsop) : files :=
  match op with
  | OpenW path => <[path := Garbage]> fs
  | JsonDump path j => <[path := Doc j]> fs
  end.

Definition apply_ops (ops : list fsop) (fs : files) : files :=
  fold_left apply_op ops fs.

(** The files when the process dies after the first [k] file operations
    of a write. *)
Definition crash_after (k : nat) (ops : list fsop) (fs : files) : files :=
  apply_ops (take k ops) fs.

(** How a write goes: it completes, or [open(path, "w")] raises an
    [OSError] and the file is as it was, or [json.dump] raises one after
    the [open] has truncated the file. *)
Inductive write_result :=
  | Written
  | OpenFails
  | DumpFails.

Definition files_after (w : write_result) (ops : list fsop) (fs : files) : files :=
  match w with
  | Written => apply_ops ops fs
  | OpenFails => fs
  | DumpFails => crash_after 1 ops fs
  end.

(** [load_state()]: the Python value it returns, [None] being [JVal PNone]. *)
Definition load_state (fs : files) : json :=
  match fs !! STATE_FILE with
  | None => JVal PNone
  | Some Garbage => JVal PNone
  | Some (Doc (JDict items)) =>
      default (JVal PNone) (Py.lookup "last_polled_time" items)
  | Some (Doc _) => JVal PNone
  end.

Definition save_state_ops (timestamp_str : pyval) : list fsop :=
  [ OpenW STATE_FILE;
    JsonDump STATE_FILE (JDict [("last_polled_time", JVal timestamp_str)]) ].

Definition save_state (timestamp_str : pyval) (fs : files) : files :=
  apply_ops (save_state_ops timestamp_str) fs.

(** [set(j)] for a decoded document: the members of a list when all of
    them are hashable, the keys of a dict, the characters of a string; a
    [TypeError] ([None]) otherwise. *)
Fixpoint hashables (items : list json) : option (list pyval) :=
  match items with
  | [] => Some []
  | JVal v :: rest => cons v <$> hashables rest
  | _ :: _ => None
  end.

Fixpoint split_chars (s : string) : string * list string :=
  match s with
  | EmptyString => (EmptyString, [])
  | String c rest =>
      let (continued, l) := split_chars rest in
      if PyStr.continuation c then (String c continued, l)
      else (EmptyString, String c continued :: l)
  end.

(** The characters of a string, each a string of its own. *)
Definition chars (s : string) : list pyval := PStr <$> (split_chars s).2.

Definition py_set (j : json) : option (gset pyval) :=
  match j with
  | JList items => list_to_set <$> hashables items
  | JDict items => Some (list_to_set (PStr <$> items.*1))
  | JVal (PStr s) => Some (list_to_set (chars s))
  | JVal _ => None
  end.

Definition load_processed_txs (fs : files) : gset pyval :=
  match fs !! PROCESSED_TXS_FILE with
  | None => ∅
  | Some Garbage => ∅
  | Some (Doc j) => default ∅ (py_set j)
  end.

(** [list(s)] for a Python set [s]: its members, each once, in an order
    the language leaves to the implementation. *)
Record set_order := {
  set_iter : gset pyval → list pyval;
  set_iter_perm : ∀ s, set_iter s ≡ₚ elements s
}.

(** One such order: that of the underlying trie. *)
Definition trie_order : set_order :=
  {| set_iter := elements; set_iter_perm := fun s => reflexivity (elements s) |}.

Definition save_processed_txs_ops (ord : set_order) (processed_txs : gset pyval)
  : list fsop :=
  [ OpenW PROCESSED_TXS_FILE;
    JsonDump PROCESSED_TXS_FILE (JList (JVal <$> set_iter ord processed_txs)) ].

Definition save_processed_txs (ord : set_order) (processed_txs : gset pyval)
    (fs : files) : files :=
  apply_ops (save_processed_txs_ops ord processed_txs) fs.

(** ** The environment, the observable events and the machine *)

(** What the process runs under: what [config.py] reads from the process
    environment ([os.getenv] gives a string or [None]), and, of the
    interpreter, how many calls of [send_telegram_notification] it lets
    nest inside the one made by the loop before a further call raises
    [RecursionError] (the recursion limit, 1000 unless it is changed, less
    the frames in use). *)
Record config := {
  TELEGRAM_BOT_TOKEN : pyval;
  TELEGRAM_CHANNEL_ID : pyval;
  recursion_limit : nat
}.

Inductive exn :=
  | TypeError
  | AttributeError
  | JSONDecodeError
  | ClientError
  | APIError
  | RecursionError
  | OSError.

Inductive result (A : Type) :=
  | Ret (a : A)
  | Raise (e : exn).
Arguments Ret {A} a.
Arguments Raise {A} e.

(** The answer to one [session.post]: a response with its status, its
    body as [resp.json()] decodes it ([None] when it does not decode) and
    as text, or a transport failure. *)
Inductive response :=
  | HttpResponse (status : Z) (body : option json) (error_text : string)
  | ConnectionFailed.

(** The answer to one [query.execute()]. *)
Inductive query_result :=
  | QueryData (data : list row)
  | QueryFailed.

(** The JSON body posted to [sendMessage]; [reply_markup] is the one row of
    inline-keyboard buttons, each a text and a url. *)
Record payload := {
  chat_id : pyval;
  text : string;
  parse_mode : string;
  reply_markup : list (string * string)
}.

Inductive log :=
  | LogStarting
  | LogFound (n : nat)
  | LogSkipping (tx_hash : pyval)
  | LogRateLimited (retry_after : Z)
  | LogSent (tx_hash : string)
  | LogFailed (status : Z) (error_text : string)
  | LogException (e : exn)
  | LogPollingError (e : exn).

Inductive event :=
  | EQuery (table : string) (since : pyval) (limit : Z)
  | ESleep (seconds : Z)
  | ESend (tx_data : row)
  | EPost (url : string) (p : payload)
  | EPrint (l : log).

(** The state the program runs on: the files, the two variables of
    [poll_supabase_for_transfers] that live across iterations of its
    [while True], and what the environment will do: the answers to the
    queries and to the posts (a finished script means the service cannot
    be reached), and how the writes to come will go (those past the end
    of the script complete). *)
Record machine := {
  fs : files;
  processed_txs : gset pyval;
  last_polled_time : pyval;
  queries : list query_result;
  responses : list response;
  writes : list write_result
}.

Definition set_fs (f : files → files) (m : machine) : machine :=
  {| fs := f (fs m); processed_txs := processed_txs m;
     last_polled_time := last_polled_time m; queries := queries m;
     responses := responses m; writes := writes m |}.

Definition set_processed_txs (s : gset pyval) (m : machine) : machine :=
  {| fs := fs m; processed_txs := s;
     last_polled_time := last_polled_time m; queries := queries m;
     responses := responses m; writes := writes m |}.

Definition set_last_polled_time (t : pyval) (m : machine) : machine :=
  {| fs := fs m; processed_txs := processed_txs m;
     last_polled_time := t; queries := queries m;
     responses := responses m; writes := writes m |}.

Definition set_queries (q : list query_result) (m : machine) : machine :=
  {| fs := fs m; processed_txs := processed_txs m;
     last_polled_time := last_polled_time m; queries := q;
     responses := responses m; writes := writes m |}.

Definition set_responses (r : list response) (m : machine) : machine :=
  {| fs := fs m; processed_txs := processed_txs m;
     last_polled_time := last_polled_time m; queries := queries m;
     responses := r; writes := writes m |}.

Definition set_writes (w : list write_result) (m : machine) : machine :=
  {| fs := fs m; processed_txs := processed_txs m;
     last_polled_time := last_polled_time m; queries := queries m;
     responses := responses m; writes := w |}.

(** ** A monad for state, exceptions and observable events

    A computation takes the machine and gives the events it produced, the
    machine it left and how it ended.  An exception keeps the events and
    the machine of the point where it was raised. *)

Record ran (A : Type) := Ran {
  events : list event;
  final : machine;
  outcome : result A
}.
Arguments Ran {A} events final outcome.
Arguments events {A} r.
Arguments final {A} r.
Arguments outcome {A} r.

Definition M (A : Type) : Type := machine → ran A.

Definition ret {A} (a : A) : M A := fun m => Ran [] m (Ret a).

Definition raise {A} (e : exn) : M A := fun m => Ran [] m (Raise e).

Definition bind {A B} (c : M A) (k : A → M B) : M B :=
  fun m =>
    match c m with
    | Ran evs m' (Ret a) =>
        match k a m' with
        | Ran evs' m'' r => Ran (evs ++ evs') m'' r
        end
    | Ran evs m' (Raise e) => Ran evs m' (Raise e)
    end.

(** [try: c  except Exception as e: h e] *)
Definition try_except {A} (c : M A) (h : exn → M A) : M A :=
  fun m =>
    match c m with
    | Ran evs m' (Ret a) => Ran evs m' (Ret a)
    | Ran evs m' (Raise e) =>
        match h e m' with
        | Ran evs' m'' r => Ran (evs ++ evs') m'' r
        end
    end.

Definition modify (f : machine → machine) : M unit := fun m => Ran [] (f m) (Ret tt).

Definition gets {A} (f : machine → A) : M A := fun m => Ran [] m (Ret (f m)).

Definition emit (e : event) : M unit := fun m => Ran [e] m (Ret tt).

Definition print (l : log) : M unit := emit (EPrint l).

Definition sleep (seconds : Z) : M unit := emit (ESleep seconds).

(** The monad is used through stdpp's notations [x ← c; k] and [c;; k]. *)
Global Instance M_ret : MRet M := @ret.
Global Instance M_bind : MBind M := fun A B k c => bind c k.

(** [with open(path, "w") as f: json.dump(j, f)], the way the environment
    lets this write go: the files are those of the point the write
    reached, and a write that does not complete raises [OSError]. *)
Definition next_write (m : machine) : write_result :=
  default Written (head (writes m)).

Definition write_outcome (w : write_result) : result unit :=
  match w with
  | Written => Ret tt
  | OpenFails | DumpFails => Raise OSError
  end.

Definition written (ops : list fsop) (m : machine) : machine :=
  set_fs (files_after (next_write m) ops) (set_writes (tail (writes m)) m).

Definition write (ops : list fsop) : M unit :=
  fun m => Ran [] (written ops m) (write_outcome (next_write m)).

(** ** [send_telegram_notification] *)

Definition nl : string := String "010"%char EmptyString.

Definition base_explorer : string := "https://testnet.monadexplorer.com".

(** [if not s.startswith('0x'): s = '0x' + s] *)
Definition ensure_0x (s : string) : string :=
  if PyStr.startswith "0x" s then s else "0x" +:+ s.

(** [s[:6] + '...' + s[-4:]] *)
Definition truncate_addr (s : string) : string :=
  PyStr.take 6 s +:+ "..." +:+ PyStr.last_chars 4 s.

(** The value must be a [str] for [.startswith] to exist. *)
Definition as_str (v : pyval) : result string :=
  match v with
  | PStr s => Ret s
  | _ => Raise AttributeError
  end.

(** Everything between the rate-limit wait and the [session.post]: the
    url and the payload, or the [AttributeError] of a field that is not a
    string. *)
Definition build_request (cfg : config) (tx_data : row)
  : result (string * string * payload) :=
  let tx_hash := row_get tx_data "tx_hash" (PStr "") in
  let from_addr := row_get tx_data "from_addr" (PStr "") in
  let to_addr := row_get tx_data "to_addr" (PStr "") in
  let block_num := row_get tx_data "block_number" (PInt 0) in
  let amount := Py.str (row_get tx_data "amount" (PStr "0")) +:+ " MON" in
  match as_str tx_hash with
  | Raise e => Raise e
  | Ret tx_hash =>
  match as_str from_addr with
  | Raise e => Raise e
  | Ret from_addr =>
  match as_str to_addr with
  | Raise e => Raise e
  | Ret to_addr =>
      let tx_hash := ensure_0x tx_hash in
      let from_addr := ensure_0x from_addr in
      let to_addr := ensure_0x to_addr in
      let amount_str := escape_markdown amount in
      let block_str := escape_markdown (Py.str block_num) in
      let from_trunc := escape_markdown (truncate_addr from_addr) in
      let to_trunc := escape_markdown (truncate_addr to_addr) in
      let tx_url := base_explorer +:+ "/tx/" +:+ tx_hash in
      let from_url := base_explorer +:+ "/address/" +:+ from_addr in
      let to_url := base_explorer +:+ "/address/" +:+ to_addr in
      let block_url := base_explorer +:+ "/block/" +:+ Py.str block_num in
      let message :=
        "🚨 Large MON Transfer Alert\!" +:+ nl +:+ nl +:+
        "💰 Amount: `" +:+ amount_str +:+ "`" +:+ nl +:+
        "📦 Block: `" +:+ block_str +:+ "`" +:+ nl +:+
        "📤 From: `" +:+ from_trunc +:+ "`" +:+ nl +:+
        "📥 To: `" +:+ to_trunc +:+ "`" +:+ nl +:+
        "🔍 [View Transaction](" +:+ tx_url +:+ ")" in
      let reply_markup :=
        [ ("Block", block_url); ("From", from_url);
          ("To", to_url); ("TxHash", tx_url) ] in
      let telegram_url :=
        "https://api.telegram.org/bot" +:+ Py.str (TELEGRAM_BOT_TOKEN cfg)
          +:+ "/sendMessage" in
      Ret (tx_hash, telegram_url,
           {| chat_id := TELEGRAM_CHANNEL_ID cfg; text := message;
              parse_mode := "MarkdownV2"; reply_markup := reply_markup |})
  end end end.

(** [error_data.get('parameters', {}).get('retry_after', 30)]: both
    [error_data] and the value under ['parameters'] must be dicts for
    [.get] to exist. *)
Definition retry_after_of (error_data : json) : result json :=
  match error_data with
  | JDict items =>
      match default (JDict []) (Py.lookup "parameters" items) with
      | JDict params =>
          Ret (default (JVal (PInt 30)) (Py.lookup "retry_after" params))
      | _ => Raise AttributeError
      end
  | _ => Raise AttributeError
  end.

(** [retry_after > 0] *)
Definition positive_wait (retry_after : json) : result (option Z) :=
  match retry_after with
  | JVal (PInt n) => Ret (if 0 <? n then Some n else None)
  | _ => Raise TypeError
  end.

(** [print(f"Rate limited, ...")] and [await asyncio.sleep(retry_after)],
    when [retry_after > 0]. *)
Definition waited (wait : option Z) : list event :=
  match wait with
  | Some n => [EPrint (LogRateLimited n); ESleep n]
  | None => []
  end.

(** The function itself.  Each [session.post] consumes one of the answers
    still to come, and a rate-limited answer makes the function call
    itself on the rest.  The call is a nested one, made from inside the
    [try] of the caller: [depth] is how many more calls the interpreter
    lets nest, and with none left the call raises [RecursionError] before
    it does anything.  An exception raised inside the [try] (by
    [resp.json()], by [.get], by the nested call) is printed there and the
    call returns. *)
Fixpoint send_telegram_notification (cfg : config) (depth : nat) (tx_data : row)
    (retry_after : json) (resps : list response) {struct depth}
  : list event * list response * result unit :=
  match positive_wait retry_after with
  | Raise e => ([], resps, Raise e)
  | Ret wait =>
      match build_request cfg tx_data with
      | Raise e => (waited wait, resps, Raise e)
      | Ret (tx_hash, telegram_url, p) =>
          let posted := waited wait ++ [EPost telegram_url p] in
          match resps with
          | [] => (posted ++ [EPrint (LogException ClientError)], [], Ret tt)
          | ConnectionFailed :: rest =>
              (posted ++ [EPrint (LogException ClientError)], rest, Ret tt)
          | HttpResponse status body error_text :: rest =>
              if status =? 200 then
                (posted ++ [EPrint (LogSent tx_hash)], rest, Ret tt)
              else if status =? 429 then
                match body with
                | None =>
                    (posted ++ [EPrint (LogException JSONDecodeError)], rest, Ret tt)
                | Some error_data =>
                    match retry_after_of error_data with
                    | Raise e => (posted ++ [EPrint (LogException e)], rest, Ret tt)
                    | Ret retry_after =>
                        match
                          match depth with
                          | O => ([], rest, Raise RecursionError)
                          | S depth' =>
                              send_telegram_notification cfg depth' tx_data retry_after rest
                          end
                        with
                        | (evs, rest', Ret _) => (posted ++ evs, rest', Ret tt)
                        | (evs, rest', Raise e) =>
                            (posted ++ evs ++ [EPrint (LogException e)], rest', Ret tt)
                        end
                    end
                end
              else
                (posted ++ [EPrint (LogFailed status error_text)], rest, Ret tt)
          end
      end
  end.

(** ** [poll_supabase_for_transfers] *)

(** [l[-n:]] for [n > 0]: the last [n] items, all of them when there are
    fewer. *)
Definition last_items {A} (n : nat) (l : list A) : list A :=
  drop (length l - n) l.

(** [set(list(processed_txs)[-500:])] *)
Definition prune (ord : set_order) (processed_txs : gset pyval) : gset pyval :=
  list_to_set (last_items 500 (set_iter ord processed_txs)).

(** [query.execute()] and [response.data]: the next answer of the script. *)
Definition execute : M (list row) :=
  fun m =>
    match queries m with
    | QueryData data :: rest => Ran [] (set_queries rest m) (Ret data)
    | QueryFailed :: rest => Ran [] (set_queries rest m) (Raise APIError)
    | [] => Ran [] m (Raise APIError)
    end.

(** [await send_telegram_notification(row)] from the loop. *)
Definition await_send (cfg : config) (tx_data : row) : M unit :=
  fun m =>
    match
      send_telegram_notification cfg (recursion_limit cfg) tx_data (JVal (PInt 0))
        (responses m)
    with
    | (evs, rest, res) => Ran (ESend tx_data :: evs) (set_responses rest m) res
    end.

Section Poll.

Context (cfg : config) (ord : set_order).

(** [save_processed_txs(processed_txs)] and [save_state(last_polled_time)]
    as the function calls them on its two variables. *)
Definition call_save_processed_txs : M unit :=
  fun m => write (save_processed_txs_ops ord (processed_txs m)) m.

Definition call_save_state : M unit :=
  fun m => write (save_state_ops (last_polled_time m)) m.

(** The body of [for row in data:], from the value of [new_max_time]
    before the row to its value after it. *)
Definition process_row (tx_data : row) (new_max_time : pyval) : M pyval :=
  let tx_hash := row_get tx_data "tx_hash" (PStr "") in
  seen ← gets (fun m => bool_decide (tx_hash ∈ processed_txs m));
  if (seen : bool) then
    print (LogSkipping tx_hash);;
    mret new_max_time
  else
    sleep 3;;
    await_send cfg tx_data;;
    modify (fun m => set_processed_txs ({[tx_hash]} ∪ processed_txs m) m);;
    call_save_processed_txs;;
    let ctime := row_get tx_data "created_at" PNone in
    if Py.truthy ctime then
      match new_max_time with
      | PNone => mret ctime
      | _ =>
          match Py.gt ctime new_max_time with
          | Some true => mret ctime
          | Some false => mret new_max_time
          | None => raise TypeError
          end
      end
    else mret new_max_time.

Fixpoint for_rows (data : list row) (new_max_time : pyval) : M pyval :=
  match data with
  | [] => mret new_max_time
  | tx_data :: rest =>
      new_max_time ← process_row tx_data new_max_time;
      for_rows rest new_max_time
  end.

(** [if new_max_time: last_polled_time = new_max_time;
    save_state(last_polled_time)] *)
Definition advance (new_max_time : pyval) : M unit :=
  if Py.truthy new_max_time then
    modify (set_last_polled_time new_max_time);;
    call_save_state
  else mret tt.

(** [if len(processed_txs) > 1000: processed_txs =
    set(list(processed_txs)[-500:]); save_processed_txs(processed_txs)] *)
Definition cleanup_old : M unit :=
  n ← gets (fun m => size (processed_txs m));
  if (1000 <? n)%nat then
    modify (fun m => set_processed_txs (prune ord (processed_txs m)) m);;
    call_save_processed_txs
  else mret tt.

(** The block under [if data:]. *)
Definition process_batch (data : list row) : M unit :=
  print (LogFound (length data));;
  new_max_time ← for_rows data PNone;
  advance new_max_time;;
  cleanup_old.

(** The body of the [try] in one iteration of [while True]. *)
Definition cycle_body : M unit :=
  since ← gets last_polled_time;
  emit (EQuery "transfers" since 10);;
  data ← execute;
  match data with
  | [] => mret tt
  | _ :: _ => process_batch data
  end;;
  sleep 10.

(** One iteration of [while True]. *)
Definition poll_cycle : M unit :=
  try_except cycle_body
    (fun e => print (LogPollingError e);; sleep 10).

(** What comes before the loop; [now] is
    [datetime.now(timezone.utc).isoformat()]. *)
Definition poll_startup (now : string) : M unit :=
  print LogStarting;;
  modify (fun m => set_processed_txs (load_processed_txs (fs m)) m);;
  modify (set_last_polled_time (PStr now));;
  call_save_state.

(** The first [n] iterations of [while True]. *)
Fixpoint poll_loop (n : nat) : M unit :=
  match n with
  | O => mret tt
  | S n' => poll_cycle;; poll_loop n'
  end.

Definition poll_supabase_for_transfers (now : string) (n : nat) : M unit :=
  poll_startup now;; poll_loop n.

End Poll.

(** ** Observations the statements are about *)

(** The rows [send_telegram_notification] was called on from the loop. *)
Definition sent_rows (evs : list event) : list row :=
  omap (fun e => match e with ESend r => Some r | _ => None end) evs.

(** The payloads posted, and the waits. *)
Definition posts (evs : list event) : list payload :=
  omap (fun e => match e with EPost _ p => Some p | _ => None end) evs.


Definition queries_made (evs : list event) : list pyval :=
  omap (fun e => match e with EQuery _ since _ => Some since | _ => None end) evs.

(** The events the sender itself can produce. *)
Definition sender_event (e : event) : Prop :=
  match e with
  | EPost _ _ | EPrint _ | ESleep _ => True
  | EQuery _ _ _ | ESend _ => False
  end.

(** The identifier the loop files a row under, and its creation time. *)
Definition tx_hash_of (r : row) : pyval := row_get r "tx_hash" (PStr "").
Definition created_at_of (r : row) : pyval := row_get r "created_at" PNone.

(** The identifiers inserted last, given the order of insertion (oldest
    first). *)
Definition most_recent (n : nat) (inserted : list pyval) : gset pyval :=
  list_to_set (last_items n inserted).

(** The two steps of the loop body after a send that returned: the
    identifier is added to the set and the set is written out, as far as
    the write goes; then, when the write has completed, the creation time
    is compared with [new_max_time]. *)
Definition mark_processed (ord : set_order) (tx_hash : pyval) (m : machine)
  : machine :=
  written (save_processed_txs_ops ord ({[tx_hash]} ∪ processed_txs m))
    (set_processed_txs ({[tx_hash]} ∪ processed_txs m) m).

Definition next_max_time (ctime new_max_time : pyval) : result pyval :=
  if Py.truthy ctime then
    match new_max_time with
    | PNone => Ret ctime
    | _ =>
        match Py.gt ctime new_max_time with
        | Some true => Ret ctime
        | Some false => Ret new_max_time
        | None => Raise TypeError
        end
    end
  else Ret new_max_time.

(** [t] is the greatest of the strings [l], in the order of [>]. *)
Definition greatest (t : string) (l : list string) : Prop :=
  t ∈ l ∧ ∀ x, x ∈ l → PyStr.leb x t = true.

(** The creation times of rows, where they are strings. *)
Definition ctimes (rows : list row) : list string :=
  omap (fun r => match created_at_of r with PStr s => Some s | _ => None end) rows.

(** A row as the data model has it: created at a time that is a
    non-empty string. *)
Definition timestamped (r : row) : Prop :=
  ∃ s, created_at_of r = PStr s ∧ s ≠ "".

(** The rows of the answers the next [n] queries will get. *)
Fixpoint rows_to_come (n : nat) (qs : list query_result) : nat :=
  match n, qs with
  | S n', QueryData data :: rest => (length data + rows_to_come n' rest)%nat
  | S n', QueryFailed :: rest => rows_to_come n' rest
  | _, _ => O
  end.

(** The query of a cycle: [.gte("created_at", last_polled_time)],
    ascending, [.limit(10)]. *)
Definition query_event (m : machine) : event :=
  EQuery "transfers" (last_polled_time m) 10.

(** The two steps of the cycle after a loop that completed: the cursor
    moves to [new_max_time] when there is one and is written out; the set
    is pruned and written out when it holds more than 1000 identifiers.
    For each step, the machine it leaves and how it ends, which is with
    an [OSError] when its write does not complete. *)
Definition advance_cursor (new_max_time : pyval) (m : machine) : machine :=
  if Py.truthy new_max_time then
    written (save_state_ops new_max_time) (set_last_polled_time new_max_time m)
  else m.

Definition advance_outcome (new_max_time : pyval) (m : machine) : result unit :=
  if Py.truthy new_max_time then write_outcome (next_write m) else Ret tt.

Definition cleanup (ord : set_order) (m : machine) : machine :=
  if (1000 <? size (processed_txs m))%nat then
    written (save_processed_txs_ops ord (prune ord (processed_txs m)))
      (set_processed_txs (prune ord (processed_txs m)) m)
  else m.

Definition cleanup_outcome (m : machine) : result unit :=
  if (1000 <? size (processed_txs m))%nat then write_outcome (next_write m) else Ret tt.

(** No write to come fails. *)
Definition reliable (m : machine) : Prop :=
  ∀ w, w ∈ writes m → w = Written.

(** The two steps together, the second being reached when the first has
    not raised. *)
Definition settled (ord : set_order) (new_max_time : pyval) (m : machine) : machine :=
  match advance_outcome new_max_time m with
  | Ret _ => cleanup ord (advance_cursor new_max_time m)
  | Raise _ => advance_cursor new_max_time m
  end.

Definition settle_outcome (new_max_time : pyval) (m : machine) : result unit :=
  match advance_outcome new_max_time m with
  | Ret _ => cleanup_outcome (advance_cursor new_max_time m)
  | Raise e => Raise e
  end.

(** The machine the startup leaves: the set is the one loaded, the cursor
    is [now], and the state file is as the write of the cursor left it. *)
Definition started (now : string) (m : machine) : machine :=
  written (save_state_ops (PStr now))
    (set_last_polled_time (PStr now)
       (set_processed_txs (load_processed_txs (fs m)) m)).

(** What [new_max_time] can be while the rows are timestamped: [None]
    before the first row sent, then the greatest creation time so far. *)
Definition max_so_far (t : pyval) (seen : list string) : Prop :=
  match t with
  | PNone => seen = []
  | PStr s => greatest s seen
  | PInt _ => False
  end.

(** The [for row in data:] loop as a relation, one rule for each way a row
    can go: skipped, its send raising, its send returning and the write
    of the set failing, its send returning and the comparison of creation
    times raising, and its send returning and the loop going on.
    [for_rows] satisfies it ([for_rows_loop]); the properties of the loop
    are proved by induction on it. *)
Inductive loop (cfg : config) (ord : set_order)
  : list row → pyval → machine → list event → machine → result pyval → Prop :=
  | loop_done t m :
      loop cfg ord [] t m [] m (Ret t)
  | loop_skip r rest t m evs m' res :
      tx_hash_of r ∈ processed_txs m →
      loop cfg ord rest t m evs m' res →
      loop cfg ord (r :: rest) t m
        (EPrint (LogSkipping (tx_hash_of r)) :: evs) m' res
  | loop_send_raises r rest t m sent unread e :
      tx_hash_of r ∉ processed_txs m →
      send_telegram_notification cfg (recursion_limit cfg) r (JVal (PInt 0)) (responses m)
        = (sent, unread, Raise e) →
      loop cfg ord (r :: rest) t m
        (ESleep 3 :: ESend r :: sent) (set_responses unread m) (Raise e)
  | loop_write_raises r rest t m sent unread e :
      tx_hash_of r ∉ processed_txs m →
      send_telegram_notification cfg (recursion_limit cfg) r (JVal (PInt 0)) (responses m)
        = (sent, unread, Ret tt) →
      write_outcome (next_write m) = Raise e →
      loop cfg ord (r :: rest) t m
        (ESleep 3 :: ESend r :: sent)
        (mark_processed ord (tx_hash_of r) (set_responses unread m)) (Raise e)
  | loop_compare_raises r rest t m sent unread e :
      tx_hash_of r ∉ processed_txs m →
      send_telegram_notification cfg (recursion_limit cfg) r (JVal (PInt 0)) (responses m)
        = (sent, unread, Ret tt) →
      next_write m = Written →
      next_max_time (created_at_of r) t = Raise e →
      loop cfg ord (r :: rest) t m
        (ESleep 3 :: ESend r :: sent)
        (mark_processed ord (tx_hash_of r) (set_responses unread m)) (Raise e)
  | loop_sent r rest t m sent unread t' evs m' res :
      tx_hash_of r ∉ processed_txs m →
      send_telegram_notification cfg (recursion_limit cfg) r (JVal (PInt 0)) (responses m)
        = (sent, unread, Ret tt) →
      next_write m = Written →
      next_max_time (created_at_of r) t = Ret t' →
      loop cfg ord rest t'
        (mark_processed ord (tx_hash_of r) (set_responses unread m)) evs m' res →
      loop cfg ord (r :: rest) t m
        (ESleep 3 :: ESend r :: sent ++ evs) m' res.

(** ** Concrete inputs

    A configuration, rows and answers on which the statements below are
    evaluated. *)

Definition demo_cfg : config :=
  {| TELEGRAM_BOT_TOKEN := PStr "123:abc"; TELEGRAM_CHANNEL_ID := PStr "@monad_whales";
     recursion_limit := 900 |}.

Definition demo_row : row :=
  [ ("tx_hash", PStr "abcdef123");
    ("from_addr", PStr "0x1234567890abcdef1234");
    ("to_addr", PStr "fedcba09876543210000");
    ("block_number", PInt 4021);
    ("amount", PStr "1.5");
    ("created_at", PStr "2024-05-01T10:00:07+00:00") ].

(** A row like [demo_row], created later and with no [tx_hash] column. *)
Definition anonymous_row : row :=
  [ ("from_addr", PStr "0x1234567890abcdef1234");
    ("to_addr", PStr "fedcba09876543210000");
    ("block_number", PInt 4022);
    ("amount", PStr "2");
    ("created_at", PStr "2024-05-01T10:00:09+00:00") ].

(** A rate-limited answer as the Bot API gives it, and an accepted one. *)
Definition rate_limit_body (seconds : Z) : json :=
  JDict [ ("error_code", JVal (PInt 429));
          ("description", JVal (PStr "Too Many Requests"));
          ("parameters", JDict [("retry_after", JVal (PInt seconds))]) ].

Definition rate_limited (seconds : Z) : response :=
  HttpResponse 429 (Some (rate_limit_body seconds)) "Too Many Requests".

Definition ok_response : response :=
  HttpResponse 200 (Some (JDict [("result", JDict [])])) "".

Definition demo_machine (processed : gset pyval) (qs : list query_result)
    (rs : list response) : machine :=
  {| fs := ∅; processed_txs := processed;
     last_polled_time := PStr "2024-05-01T10:00:00+00:00";
     queries := qs; responses := rs; writes := [] |}.

(** The identifier, the url and the payload of the request for
    [demo_row]. *)
Definition demo_request : string * string * payload :=
  Eval vm_compute in
    match build_request demo_cfg demo_row with
    | Ret x => x
    | Raise _ => ("", "", {| chat_id := PNone; text := ""; parse_mode := "";
                             reply_markup := [] |})
    end.

(** Nothing processed yet; the next query answers with [demo_row] and the
    request for it is accepted. *)
Definition one_row_machine : machine :=
  demo_machine ∅ [QueryData [demo_row]] [ok_response].

(** The identifiers ["0x0"], ["0x1"], ... of [n] earlier transfers. *)
Definition earlier_ids (n : nat) : list pyval :=
  (fun i => PStr ("0x" +:+ pretty (Z.of_nat i))) <$> seq 0 n.

(** 1001 identifiers in the set. *)
Definition full_machine : machine :=
  demo_machine (list_to_set (earlier_ids 1001)) [] [].

(** The next query fails. *)
Definition failing_machine : machine :=
  demo_machine ∅ [QueryFailed] [].


(** An order that lists the empty string first when it is a member, then
    the other members in the order of the trie.  (CPython lists a set by
    slot of its hash table, and the empty string hashes to 0.) *)
Definition empty_first (s : gset pyval) : list pyval :=
  if decide (PStr "" ∈ s) then PStr "" :: elements (s ∖ {[PStr ""]})
  else elements s.

Definition empty_first_order : set_order.
Proof.
  refine {| set_iter := empty_first |}.
  intros s. unfold empty_first. destruct (decide (PStr "" ∈ s)) as [Hin|]; [|done].
  rewrite <- elements_union_singleton by set_solver.
  by rewrite <- union_difference_singleton_L.
Defined.

(** A row with no [tx_hash] column. *)
Definition anonymous (r : row) : Prop := Py.lookup "tx_hash" r = None.

Global Instance anonymous_dec (r : row) : Decision (anonymous r).
Proof. unfold anonymous. apply _. Defined.

(** ** Further observations

    What the statements of the second part are about. *)

(** [n] backslashes. *)
Fixpoint backslashes (n : nat) : string :=
  match n with
  | O => EmptyString
  | S n' => String backslash (backslashes n')
  end.

(** Whether [c] is one of the characters of [s]. *)
Definition mem_char (c : ascii) (s : string) : bool :=
  existsb (Ascii.eqb c) (list_ascii_of_string s).

(** A text rewritten character by character. *)
Fixpoint per_char (f : ascii → string) (s : string) : string :=
  match s with
  | EmptyString => EmptyString
  | String c rest => f c +:+ per_char f rest
  end.

(** How many backslashes [escape_markdown] puts before a character. *)
Definition markers (c : ascii) : nat :=
  if mem_char c "_*" then 8%nat
  else if Ascii.eqb c backslash then 7%nat
  else if Ascii.eqb c "["%char then 4%nat
  else if mem_char c "]()~`>#+" then 2%nat
  else if mem_char c "-=|{}.!" then 1%nat
  else 0%nat.

(** The escaping MarkdownV2 asks for: one backslash before each of its
    reserved characters. *)
Definition markdown_v2_reserved : string := "_*[]()~`>#+-=|{}.!".

Definition markdown_v2 (s : string) : string :=
  per_char
    (fun c => if mem_char c markdown_v2_reserved
              then String backslash (String c EmptyString)
              else String c EmptyString)
    s.

(** A text with none of the characters that stand before the last
    backslash of [reserved], and no backslash. *)
Definition mild (s : string) : Prop :=
  ∀ c, In c (list_ascii_of_string s) → mem_char c "_*[]()~`>#+\" = false.

(** A text with no reserved character and no backslash. *)
Definition unreserved (s : string) : Prop :=
  ∀ c, In c (list_ascii_of_string s) → mem_char c reserved = false.

(** A column that is a string or is absent, and a row whose identifier
    and two addresses are such columns. *)
Definition str_or_absent (r : row) (key : string) : Prop :=
  match Py.lookup key r with
  | None | Some (PStr _) => True
  | Some _ => False
  end.

Definition sendable (r : row) : Prop :=
  str_or_absent r "tx_hash" ∧ str_or_absent r "from_addr" ∧ str_or_absent r "to_addr".

Global Instance str_or_absent_dec (r : row) (key : string) :
  Decision (str_or_absent r key).
Proof. unfold str_or_absent. destruct (Py.lookup key r) as [[]|]; apply _. Defined.

Global Instance sendable_dec (r : row) : Decision (sendable r).
Proof. unfold sendable. apply _. Defined.

(** An answer that is not a rate limit: a status other than 429, or no
    answer at all. *)
Definition not_rate_limit (resp : response) : Prop :=
  match resp with
  | HttpResponse status _ _ => status ≠ 429
  | ConnectionFailed => True
  end.

(** The rows of all the answers the queries will get. *)
Definition rows_of (qs : list query_result) : list row :=
  mjoin (omap (fun q => match q with QueryData data => Some data | QueryFailed => None end) qs).



(** What is on file is what is in memory. *)
Definition synced (m : machine) : Prop :=
  load_processed_txs (fs m) = processed_txs m ∧
  load_state (fs m) = JVal (last_polled_time m).

(** Every call of the sender from the loop comes right after the three
    seconds of sleep. *)
Definition throttled (evs : list event) : Prop :=
  ∀ i r, evs !! i = Some (ESend r) →
         ∃ j, i = S j ∧ evs !! j = Some (ESleep 3).

(** ** Further concrete inputs *)

(** A row like [anonymous_row] whose [tx_hash] column is [null]. *)
Definition null_hash_row : row := ("tx_hash", PNone) :: anonymous_row.

(** The source answers twice with [null_hash_row] followed by [demo_row]. *)
Definition blocked_machine : machine :=
  demo_machine ∅ [QueryData [null_hash_row; demo_row]; QueryData [null_hash_row; demo_row]]
    [ok_response].

(** The request is refused. *)
Definition refused : response := HttpResponse 400 None "Bad Request".

Definition refusing_machine : machine := demo_machine ∅ [] [refused].

(** The identifier of [demo_row] is processed already, in memory or on
    file, and the source returns the row again. *)
Definition processed_machine : machine :=
  demo_machine {[tx_hash_of demo_row]} [QueryData [demo_row]] [].

Definition restarted_machine : machine :=
  {| fs := save_processed_txs trie_order {[tx_hash_of demo_row]} ∅;
     processed_txs := ∅; last_polled_time := PNone;
     queries := [QueryData [demo_row]]; responses := [ok_response]; writes := [] |}.

(** A processed file that names one identifier twice. *)
Definition repeated_file : files :=
  {[ PROCESSED_TXS_FILE := Doc (JList [JVal (PStr "0xa"); JVal (PStr "0xa")]) ]}.


(** ** What a creation time denotes

    The code compares creation times as strings.  The statements about
    the maximum creation time and about the cursor not going back are
    about time, so they need the instant a timestamp stands for: the data
    model has ISO-8601 timestamps with a UTC offset,
    [YYYY-MM-DDTHH:MM:SS+HH:MM], with up to six digits of a fraction after
    the seconds.  [Iso8601.instant] is that reading of a string, in
    microseconds since 1970-01-01T00:00:00+00:00.  Nothing of it is in the
    code. *)

Module Iso8601.

Definition digit (c : ascii) : option Z :=
  let n := Z.of_N (N_of_ascii c) in
  if (48 <=? n) && (n <=? 57) then Some (n - 48) else None.

Fixpoint number_from (acc : Z) (s : string) : option Z :=
  match s with
  | EmptyString => Some acc
  | String c rest =>
      match digit c with
      | Some d => number_from (10 * acc + d) rest
      | None => None
      end
  end.

(** The number a non-empty string of digits denotes. *)
Definition number (s : string) : option Z :=
  match s with
  | EmptyString => None
  | _ => number_from 0 s
  end.

(** The leading digits of a string, and what follows them. *)
Fixpoint span_digits (s : string) : string * string :=
  match s with
  | EmptyString => (EmptyString, EmptyString)
  | String c rest =>
      match digit c with
      | Some _ => let (digits, after) := span_digits rest in (String c digits, after)
      | None => (EmptyString, s)
      end
  end.

(** Days from 1970-01-01 to the day [d] of month [m] of year [y] of the
    proleptic Gregorian calendar. *)
Definition days_from_civil (y m d : Z) : Z :=
  let y' := if m <=? 2 then y - 1 else y in
  let era := y' / 400 in
  let yoe := y' - era * 400 in
  let mp := (m + 9) mod 12 in
  let doy := (153 * mp + 2) / 5 + d - 1 in
  let doe := yoe * 365 + yoe / 4 - yoe / 100 + doy in
  era * 146097 + doe - 719468.

Definition field (from len : nat) (s : string) : option Z :=
  number (String.substring from len s).

Definition within (lo hi x : Z) : option Z :=
  if (lo <=? x) && (x <=? hi) then Some x else None.

(** The fraction of a second after the seconds, in microseconds, and what
    follows it. *)
Definition fraction (s : string) : option (Z * string) :=
  match s with
  | String "."%char rest =>
      let (digits, after) := span_digits rest in
      match number digits with
      | Some n =>
          if (String.length digits <=? 6)%nat
          then Some (n * 10 ^ (6 - Z.of_nat (String.length digits)), after)
          else None
      | None => None
      end
  | _ => Some (0, s)
  end.

(** The offset [+HH:MM] or [-HH:MM], in seconds east of UTC. *)
Definition offset (s : string) : option Z :=
  match s with
  | String sign rest =>
      if (String.length rest =? 5)%nat && String.eqb (String.substring 2 1 rest) ":" then
        match field 0 2 rest, field 3 2 rest with
        | Some h, Some m =>
            if Ascii.eqb sign "+" then Some (h * 3600 + m * 60)
            else if Ascii.eqb sign "-" then Some (- (h * 3600 + m * 60))
            else None
        | _, _ => None
        end
      else None
  | EmptyString => None
  end.

Definition instant (s : string) : option Z :=
  if String.eqb (String.substring 4 1 s) "-" && String.eqb (String.substring 7 1 s) "-"
     && String.eqb (String.substring 10 1 s) "T" && String.eqb (String.substring 13 1 s) ":"
     && String.eqb (String.substring 16 1 s) ":"
  then
    match field 0 4 s, field 5 2 s ≫= within 1 12, field 8 2 s ≫= within 1 31,
          field 11 2 s ≫= within 0 23, field 14 2 s ≫= within 0 59,
          field 17 2 s ≫= within 0 59,
          fraction (String.substring 19 (String.length s - 19) s) with
    | Some y, Some mo, Some d, Some h, Some mi, Some sec, Some (micro, zone) =>
        match offset zone with
        | Some east =>
            Some ((days_from_civil y mo d * 86400 + h * 3600 + mi * 60 + sec - east)
                    * 1000000 + micro)
        | None => None
        end
    | _, _, _, _, _, _, _ => None
    end
  else None.

End Iso8601.

(** [a] is a time not after [b]. *)
Definition not_after (a b : string) : Prop :=
  ∃ x y, Iso8601.instant a = Some x ∧ Iso8601.instant b = Some y ∧ x ≤ y.

(** [t] is the latest of the times [l]. *)
Definition latest (t : string) (l : list string) : Prop :=
  t ∈ l ∧ ∀ s, s ∈ l → not_after s t.

(** The order of Python on [str]: the first character that differs
    decides, and a proper prefix comes first.  (Characters compare by
    code point, which on the UTF-8 bytes is the order of the bytes.) *)
Inductive lex_lt : string → string → Prop :=
  | lex_lt_prefix c s : lex_lt EmptyString (String c s)
  | lex_lt_head c d s t : (N_of_ascii c < N_of_ascii d)%N → lex_lt (String c s) (String d t)
  | lex_lt_tail c s t : lex_lt s t → lex_lt (String c s) (String c t).

(** [t] is the greatest of the strings [l] in that order. *)
Definition lex_greatest (t : string) (l : list string) : Prop :=
  t ∈ l ∧ ∀ s, s ∈ l → ¬ lex_lt t s.

(** The order of the strings [l] agrees with the order of the times they
    denote: of two of them, the one that is not greater as a string is
    not the later time. *)
Definition chronological (l : list string) : Prop :=
  ∀ a b, a ∈ l → b ∈ l → ¬ lex_lt b a → not_after a b.

(** Two rows of one batch, the second created two seconds after the
    first; and two rows whose creation times carry different offsets, the
    first created at 10:00 UTC and the second at 11:00 UTC. *)
Definition later_row : row :=
  [ ("tx_hash", PStr "0x77aa");
    ("from_addr", PStr "0x1234567890abcdef1234");
    ("to_addr", PStr "fedcba09876543210000");
    ("block_number", PInt 4022);
    ("amount", PStr "2");
    ("created_at", PStr "2024-05-01T10:00:09+00:00") ].

Definition two_row_machine : machine :=
  demo_machine ∅ [QueryData [demo_row; later_row]] [ok_response; ok_response].

Definition summer_row : row :=
  [ ("tx_hash", PStr "0x51");
    ("from_addr", PStr "0x1234567890abcdef1234");
    ("to_addr", PStr "fedcba09876543210000");
    ("block_number", PInt 4030);
    ("amount", PStr "3");
    ("created_at", PStr "2024-05-01T12:00:00+02:00") ].

Definition utc_row : row :=
  [ ("tx_hash", PStr "0x52");
    ("from_addr", PStr "0x1234567890abcdef1234");
    ("to_addr", PStr "fedcba09876543210000");
    ("block_number", PInt 4031);
    ("amount", PStr "4");
    ("created_at", PStr "2024-05-01T11:00:00+00:00") ].

Definition offsets_machine : machine :=
  demo_machine ∅ [QueryData [summer_row; utc_row]] [ok_response; ok_response].


(** The processed file names the identifier of an earlier transfer; the
    query returns [demo_row], the request for it is accepted, and the
    write of the set that follows fails once the file is open. *)
Definition torn_machine : machine :=
  {| fs := save_processed_txs trie_order {[PStr "0x51"]} ∅;
     processed_txs := {[PStr "0x51"]};
     last_polled_time := PStr "2024-05-01T10:00:00+00:00";
     queries := [QueryData [demo_row]]; responses := [ok_response];
     writes := [DumpFails] |}.


(** The source returns [demo_row] twice in one answer and once more in
    the next, and [later_row] in both. *)
Definition repeating_machine : machine :=
  demo_machine ∅
    [QueryData [demo_row; demo_row; later_row]; QueryData [later_row; demo_row]]
    [ok_response; ok_response].

(** The first answer holds [demo_row] and behind it a row that cannot be
    sent; the second query fails. *)
Definition aborting_machine : machine :=
  demo_machine ∅ [QueryData [demo_row; null_hash_row]; QueryFailed] [ok_response].


(** * Theorems *)

(** ** The state store *)

Lemma hashables_JVal (l : list pyval) : hashables (JVal <$> l) = Some l.
Proof.
  induction l as [|v l IH]; [done|].
  cbn [fmap list_fmap hashables]. fold (fmap (M:=list) JVal l).
  by rewrite IH.
Qed.

Lemma list_to_set_set_iter (ord : set_order) (s : gset pyval) :
  list_to_set (set_iter ord s) = s.
Proof.
  rewrite (list_to_set_perm_L _ _ (set_iter_perm ord s)).
  apply list_to_set_elements_L.
Qed.

Lemma load_state_save_state (x : pyval) (fs : files) :
  load_state (save_state x fs) = JVal x.
Proof.
  unfold load_state, save_state, save_state_ops, apply_ops; cbn [fold_left apply_op].
  by rewrite lookup_insert_eq.
Qed.

Lemma load_processed_txs_save (ord : set_order) (s : gset pyval) (fs : files) :
  load_processed_txs (save_processed_txs ord s fs) = s.
Proof.
  unfold load_processed_txs, save_processed_txs, save_processed_txs_ops, apply_ops.
  cbn [fold_left apply_op]. rewrite lookup_insert_eq.
  cbn [py_set]. rewrite hashables_JVal. cbn.
  apply list_to_set_set_iter.
Qed.

(** C8.  Saving a cursor [x] and loading the cursor again returns [x];
    saving a set [s] of identifiers and loading the processed set again
    returns a set equal to [s], in whichever order the set was listed when
    it was written. *)
Theorem C8_save_load_round_trip (ord : set_order) (fs : files) :
  (∀ x : pyval, load_state (save_state x fs) = JVal x) ∧
  (∀ s : gset pyval, load_processed_txs (save_processed_txs ord s fs) = s).
Proof.
  split; [intros x; apply load_state_save_state|].
  intros s; apply load_processed_txs_save.
Qed.

(** The write of the cursor, operation by operation. *)
Lemma save_state_crash_points (x : pyval) (fs : files) (k : nat) :
  crash_after k (save_state_ops x) fs =
    match k with
    | O => fs
    | S O => <[STATE_FILE := Garbage]> fs
    | _ => save_state x fs
    end.
Proof. by destruct k as [|[|[|k]]]. Qed.

(** C9 as the spec states it fails: a process that dies between the
    [open(STATE_FILE, "w")] and the [json.dump] leaves a file from which
    [load_state] gets neither the old cursor nor the new one. *)
Lemma C9_crash_mid_write_tears_file :
  ¬ (∀ (old new : pyval) (fs : files) (k : nat),
       load_state fs = JVal old →
       load_state (crash_after k (save_state_ops new) fs) = JVal old ∨
       load_state (crash_after k (save_state_ops new) fs) = JVal new).
Proof.
  intros H.
  specialize (H (PStr "2024-05-01T10:00:00+00:00") (PStr "2024-05-01T10:00:07+00:00")
                (save_state (PStr "2024-05-01T10:00:00+00:00") ∅) 1%nat).
  rewrite load_state_save_state in H. specialize (H eq_refl).
  rewrite save_state_crash_points in H.
  unfold load_state in H. rewrite lookup_insert_eq in H.
  by destruct H.
Qed.

(** C9, amended.  [save_state] overwrites the state file in place, in two
    operations and with no temporary file: no other path is touched at any
    point of the write; a process that dies before the first operation
    leaves the old cursor, one that dies between the two leaves a file
    from which [load_state] returns [None], and the completed write leaves
    the new cursor. *)
Theorem C9_save_state_in_place (new : pyval) (fs : files) (k : nat) :
  (∀ path, path ≠ STATE_FILE →
     crash_after k (save_state_ops new) fs !! path = fs !! path) ∧
  load_state (crash_after k (save_state_ops new) fs) =
    match k with
    | O => load_state fs
    | S O => JVal PNone
    | _ => JVal new
    end.
Proof.
  rewrite save_state_crash_points. split.
  - intros path Hpath.
    destruct k as [|[|k]]; [done| |];
      unfold save_state, save_state_ops, apply_ops; cbn [fold_left apply_op];
      by rewrite !lookup_insert_ne.
  - destruct k as [|[|k]]; [done| |].
    + unfold load_state. by rewrite lookup_insert_eq.
    + apply load_state_save_state.
Qed.

(** ** Running the monad *)

Lemma ran_eta {A} (r : ran A) : Ran (events r) (final r) (outcome r) = r.
Proof. by destruct r. Qed.

Lemma run_bind {A B} (c : M A) (k : A → M B) (m : machine) :
  (c ≫= k) m =
    match outcome (c m) with
    | Ret a =>
        Ran (events (c m) ++ events (k a (final (c m))))
            (final (k a (final (c m)))) (outcome (k a (final (c m))))
    | Raise e => Ran (events (c m)) (final (c m)) (Raise e)
    end.
Proof.
  unfold mbind, M_bind, bind.
  destruct (c m) as [evs m' [a|e]]; cbn; [|done].
  by destruct (k a m').
Qed.

Lemma run_bind_ret {A B} (c : M A) (k : A → M B) (m m' : machine) evs a :
  c m = Ran evs m' (Ret a) →
  (c ≫= k) m = Ran (evs ++ events (k a m')) (final (k a m')) (outcome (k a m')).
Proof. intros H. by rewrite run_bind, H. Qed.

Lemma run_bind_raise {A B} (c : M A) (k : A → M B) (m m' : machine) evs e :
  c m = Ran evs m' (Raise e) →
  (c ≫= k) m = Ran evs m' (Raise e).
Proof. intros H. by rewrite run_bind, H. Qed.

Lemma run_gets {A B} (f : machine → A) (k : A → M B) (m : machine) :
  (gets f ≫= k) m = k (f m) m.
Proof. rewrite run_bind. cbn. apply ran_eta. Qed.

Lemma run_modify {B} (f : machine → machine) (k : unit → M B) (m : machine) :
  (modify f ≫= k) m = k tt (f m).
Proof. rewrite run_bind. cbn. apply ran_eta. Qed.

Lemma run_emit {B} (e : event) (k : unit → M B) (m : machine) :
  (emit e ≫= k) m =
    Ran (e :: events (k tt m)) (final (k tt m)) (outcome (k tt m)).
Proof. by rewrite run_bind. Qed.

Lemma run_print {B} (l : log) (k : unit → M B) (m : machine) :
  (print l ≫= k) m =
    Ran (EPrint l :: events (k tt m)) (final (k tt m)) (outcome (k tt m)).
Proof. apply run_emit. Qed.

Lemma run_sleep {B} (n : Z) (k : unit → M B) (m : machine) :
  (sleep n ≫= k) m =
    Ran (ESleep n :: events (k tt m)) (final (k tt m)) (outcome (k tt m)).
Proof. apply run_emit. Qed.

Lemma run_ret {A} (a : A) (m : machine) : (mret a : M A) m = Ran [] m (Ret a).
Proof. done. Qed.

Lemma run_try_except {A} (c : M A) (h : exn → M A) (m : machine) :
  try_except c h m =
    match outcome (c m) with
    | Ret a => Ran (events (c m)) (final (c m)) (Ret a)
    | Raise e =>
        Ran (events (c m) ++ events (h e (final (c m))))
            (final (h e (final (c m)))) (outcome (h e (final (c m))))
    end.
Proof.
  unfold try_except. destruct (c m) as [evs m' [a|e]]; cbn; [done|].
  by destruct (h e m').
Qed.

Lemma run_write {B} (ops : list fsop) (k : unit → M B) (m : machine) :
  (write ops ≫= k) m =
    match write_outcome (next_write m) with
    | Ret _ =>
        Ran (events (k tt (written ops m))) (final (k tt (written ops m)))
            (outcome (k tt (written ops m)))
    | Raise e => Ran [] (written ops m) (Raise e)
    end.
Proof. rewrite run_bind. unfold write. cbn. by destruct (write_outcome _) as [[]|]. Qed.

Lemma run_call_save_processed_txs {B} (ord : set_order) (k : unit → M B) (m : machine) :
  (call_save_processed_txs ord ≫= k) m =
    (write (save_processed_txs_ops ord (processed_txs m)) ≫= k) m.
Proof. by rewrite !run_bind. Qed.

Lemma run_call_save_state {B} (k : unit → M B) (m : machine) :
  (call_save_state ≫= k) m = (write (save_state_ops (last_polled_time m)) ≫= k) m.
Proof. by rewrite !run_bind. Qed.

(** ** Writes *)

Lemma write_outcome_Ret (w : write_result) : write_outcome w = Ret tt ↔ w = Written.
Proof. by destruct w. Qed.

Lemma write_outcome_Raise (w : write_result) (e : exn) :
  write_outcome w = Raise e → e = OSError ∧ w ≠ Written.
Proof. destruct w; [done|by intros [= <-]..]. Qed.

Lemma fs_written (ops : list fsop) (m : machine) :
  next_write m = Written → fs (written ops m) = apply_ops ops (fs m).
Proof. unfold written. cbn. by intros ->. Qed.

(** A write changes no other file than the one it opens, however it
    goes. *)
Lemma files_after_other (w : write_result) (path other : string) (j : json) (fs : files) :
  other ≠ path →
  files_after w [OpenW path; JsonDump path j] fs !! other = fs !! other.
Proof.
  intros Hne. destruct w; cbn; by rewrite ?lookup_insert_ne.
Qed.

Lemma run_bind_assoc {A B C} (c : M A) (k : A → M B) (k' : B → M C) (m : machine) :
  ((c ≫= k) ≫= k') m = (c ≫= (fun a => k a ≫= k')) m.
Proof.
  rewrite (run_bind (c ≫= k)), !(run_bind c).
  destruct (outcome (c m)) as [a|e]; cbn [outcome events final]; [|done].
  rewrite run_bind.
  destruct (outcome (k a (final (c m)))); cbn [outcome events final];
    by rewrite ?app_assoc.
Qed.

Lemma run_bind_ext {A B} (c : M A) (k k' : A → M B) (m : machine) :
  (∀ a m', k a m' = k' a m') → (c ≫= k) m = (c ≫= k') m.
Proof.
  intros H. rewrite !run_bind. destruct (outcome (c m)); [|done]. by rewrite H.
Qed.

(** ** Startup *)

Lemma poll_startup_run (now : string) (m : machine) :
  poll_startup now m =
    Ran [EPrint LogStarting] (started now m) (write_outcome (next_write m)).
Proof.
  unfold poll_startup. rewrite run_print, !run_modify. done.
Qed.

Lemma run_poll_supabase_for_transfers
    (cfg : config) (ord : set_order) (now : string) (n : nat) (m : machine) :
  poll_supabase_for_transfers cfg ord now n m =
    match write_outcome (next_write m) with
    | Ret _ =>
        Ran (EPrint LogStarting :: events (poll_loop cfg ord n (started now m)))
            (final (poll_loop cfg ord n (started now m)))
            (outcome (poll_loop cfg ord n (started now m)))
    | Raise e => Ran [EPrint LogStarting] (started now m) (Raise e)
    end.
Proof.
  unfold poll_supabase_for_transfers. rewrite run_bind, poll_startup_run.
  cbn [outcome events final]. by destruct (write_outcome _) as [[]|].
Qed.

Lemma started_fields (now : string) (m : machine) :
  last_polled_time (started now m) = PStr now ∧
  processed_txs (started now m) = load_processed_txs (fs m) ∧
  queries (started now m) = queries m ∧
  responses (started now m) = responses m ∧
  writes (started now m) = tail (writes m) ∧
  (next_write m = Written → fs (started now m) = save_state (PStr now) (fs m)).
Proof.
  repeat split. intros Hw. unfold started. by rewrite fs_written.
Qed.

Lemma cycle_body_first_event (cfg : config) (ord : set_order) (m : machine) :
  head (events (poll_cycle cfg ord m)) = Some (EQuery "transfers" (last_polled_time m) 10).
Proof.
  unfold poll_cycle. rewrite run_try_except.
  assert (∃ evs, events (cycle_body cfg ord m) =
                 EQuery "transfers" (last_polled_time m) 10 :: evs) as [evs Hevs].
  { unfold cycle_body. rewrite run_gets, run_emit. cbn. eauto. }
  rewrite Hevs. by destruct (outcome _).
Qed.

(** C1 as the spec states it fails: with a cursor persisted by an earlier
    run, the startup does not take it up; the loop starts from the
    current time. *)
Lemma C1_restart_resets_cursor :
  ¬ (∀ (now : string) (m : machine),
       load_state (fs m) ≠ JVal PNone →
       JVal (last_polled_time (final (poll_startup now m))) = load_state (fs m)).
Proof.
  intros H.
  specialize (H "2024-05-02T08:00:00+00:00"
    {| fs := save_state (PStr "2024-05-01T10:00:00+00:00") ∅;
       processed_txs := ∅; last_polled_time := PNone;
       queries := []; responses := []; writes := [] |}).
  rewrite poll_startup_run in H. cbn [final] in H.
  rewrite (proj1 (started_fields _ _)) in H. cbn [fs] in H.
  rewrite load_state_save_state in H.
  discriminate H. discriminate.
Qed.

(** C1, amended.  On startup the poll loop does not consult the persisted
    cursor: whatever the state file holds, the cursor is set to the
    current time, which is persisted at once and is the lower bound of the
    first query; the processed set is the one loaded from its file.  The
    write of the cursor is the one step of the startup that can fail: it
    is made outside every [try], so if it does not complete the function
    ends there with the [OSError], before any query. *)
Theorem C1_startup_cursor_is_now
    (cfg : config) (ord : set_order) (now : string) (n : nat) (m : machine) :
  last_polled_time (final (poll_startup now m)) = PStr now ∧
  processed_txs (final (poll_startup now m)) = load_processed_txs (fs m) ∧
  (next_write m = Written →
   outcome (poll_startup now m) = Ret tt ∧
   load_state (fs (final (poll_startup now m))) = JVal (PStr now) ∧
   head (queries_made (events (poll_supabase_for_transfers cfg ord now (S n) m)))
     = Some (PStr now)) ∧
  (next_write m ≠ Written →
   outcome (poll_supabase_for_transfers cfg ord now n m) = Raise OSError ∧
   queries_made (events (poll_supabase_for_transfers cfg ord now n m)) = []).
Proof.
  rewrite !run_poll_supabase_for_transfers, poll_startup_run. cbn [final outcome].
  destruct (started_fields now m) as (-> & -> & _ & _ & _ & Hfs).
  split; [done|]. split; [done|]. split.
  - intros Hw. rewrite Hfs, load_state_save_state by done.
    rewrite Hw. cbn [write_outcome events].
    split; [done|]. split; [done|].
    cbn [poll_loop]. rewrite run_bind.
    pose proof (cycle_body_first_event cfg ord (started now m)) as Hq.
    rewrite (proj1 (started_fields _ _)) in Hq.
    destruct (events (poll_cycle cfg ord (started now m))) as [|e evs] eqn:He; [done|].
    injection Hq as ->.
    by destruct (outcome (poll_cycle cfg ord (started now m))).
  - intros Hw. by destruct (next_write m).
Qed.

(** ** [escape_markdown] *)

Lemma string_app_assoc (a b c : string) : (a +:+ b) +:+ c = a +:+ (b +:+ c).
Proof.
  induction a as [|x a IH]; [done|].
  change (String x ((a +:+ b) +:+ c) = String x (a +:+ (b +:+ c))).
  by rewrite IH.
Qed.

(** A replacement works character by character, so it goes through a
    concatenation; so does the whole function. *)
Lemma replace_app (ch : ascii) (new a b : string) :
  PyStr.replace ch new (a +:+ b) = PyStr.replace ch new a +:+ PyStr.replace ch new b.
Proof.
  induction a as [|x a IH]; [done|].
  change (String x a +:+ b) with (String x (a +:+ b)).
  cbn [PyStr.replace]. rewrite IH.
  destruct (Ascii.eqb x ch); [|done]. by rewrite string_app_assoc.
Qed.

Lemma escape_markdown_app (a b : string) :
  escape_markdown (a +:+ b) = escape_markdown a +:+ escape_markdown b.
Proof.
  unfold escape_markdown. revert a b.
  induction (list_ascii_of_string reserved) as [|ch chs IH]; intros a b; [done|].
  cbn [fold_left]. by rewrite replace_app, IH.
Qed.

(** C2 fails on the code.  The list of reserved characters is a raw
    string that holds three backslashes, so the loop also replaces the
    backslash, three times, after it has already put escape markers in.
    Wherever it stands in the text, an underscore comes out behind eight
    backslashes and a closing bracket behind two; only the characters
    listed after the last backslash, such as the dot, come out behind
    one. *)
Theorem C2_escape_markdown_doubles_markers :
  (∀ a b, escape_markdown (a +:+ "_" +:+ b)
          = escape_markdown a +:+ "\\\\\\\\_" +:+ escape_markdown b) ∧
  (∀ a b, escape_markdown (a +:+ "]" +:+ b)
          = escape_markdown a +:+ "\\]" +:+ escape_markdown b) ∧
  (∀ a b, escape_markdown (a +:+ "." +:+ b)
          = escape_markdown a +:+ "\." +:+ escape_markdown b) ∧
  escape_markdown "_" = "\\\\\\\\_" ∧
  escape_markdown "[" = "\\\\[" ∧
  escape_markdown "a]b" = "a\\]b" ∧
  escape_markdown "1.5" = "1\.5".
Proof.
  repeat split; try (vm_compute; reflexivity);
    intros a b; by rewrite !escape_markdown_app.
Qed.

(** ** The sender *)

(** A call raises exactly when a field that must be a string is not one,
    and then nothing has been posted and no answer consumed. *)
Lemma send_raises (cfg : config) (depth : nat) (r : row) (ra : json) (w : option Z)
    (resps : list response) (e : exn) :
  positive_wait ra = Ret w →
  build_request cfg r = Raise e →
  send_telegram_notification cfg depth r ra resps = (waited w, resps, Raise e).
Proof.
  intros Hw Hb. destruct depth, resps; cbn [send_telegram_notification];
    by rewrite Hw, Hb.
Qed.

Lemma send_returns (cfg : config) (depth : nat) (r : row) (ra : json) (w : option Z)
    (resps : list response) (x : string * string * payload) :
  positive_wait ra = Ret w →
  build_request cfg r = Ret x →
  (send_telegram_notification cfg depth r ra resps).2 = Ret tt.
Proof.
  intros Hw Hb. destruct x as [[h url] p].
  destruct depth as [|depth], resps as [|[status body text|] rest];
    cbn [send_telegram_notification]; rewrite Hw, Hb; try done;
    (destruct (status =? 200); [done|]);
    (destruct (status =? 429); [|done]);
    (destruct body as [error_data|]; [|done]);
    (destruct (retry_after_of error_data); [|done]); [done|].
  by destruct (send_telegram_notification cfg depth r a rest) as [[evs rest'] [[]|e']].
Qed.

Lemma send_bad_wait (cfg : config) (depth : nat) (r : row) (ra : json)
    (resps : list response) (e : exn) :
  positive_wait ra = Raise e →
  send_telegram_notification cfg depth r ra resps = ([], resps, Raise e).
Proof.
  intros Hw. destruct depth, resps; cbn [send_telegram_notification]; by rewrite Hw.
Qed.

(** The sender raises nothing but what a field that is not a string or a
    wait that is not an integer raises. *)
Lemma send_outcome (cfg : config) (depth : nat) (r : row) (ra : json)
    (resps : list response) sent unread (e : exn) :
  send_telegram_notification cfg depth r ra resps = (sent, unread, Raise e) →
  e = AttributeError ∨ e = TypeError.
Proof.
  destruct (positive_wait ra) as [w|e'] eqn:Hw.
  - destruct (build_request cfg r) as [x|e'] eqn:Hb.
    + intros H. pose proof (send_returns cfg depth r ra w resps x Hw Hb) as Hret.
      by rewrite H in Hret.
    + rewrite (send_raises cfg depth r ra w resps e' Hw Hb). intros [= <-].
      left. unfold build_request in Hb.
      repeat match type of Hb with
             | context [as_str ?v] => destruct v; cbn [as_str] in Hb
             end; by simplify_eq.
  - rewrite (send_bad_wait cfg depth r ra resps e' Hw). intros [= <-].
    right. destruct ra as [[]| |]; cbn in Hw; by simplify_eq.
Qed.

Lemma next_max_time_Raise (c t : pyval) (e : exn) :
  next_max_time c t = Raise e → e = TypeError.
Proof.
  unfold next_max_time. destruct (Py.truthy c); [|done].
  destruct t; [done|..]; by destruct (Py.gt c _) as [[]|]; intros [= <-].
Qed.

(** The answers are consumed from the front: what is left is a suffix. *)
Lemma send_consumes (cfg : config) (depth : nat) (r : row) (ra : json)
    (resps : list response) :
  (send_telegram_notification cfg depth r ra resps).1.2 `suffix_of` resps.
Proof.
  revert ra resps. induction depth as [|depth IH]; intros ra [|resp rest];
    cbn [send_telegram_notification];
    (destruct (positive_wait ra); [|done]);
    (destruct (build_request cfg r) as [[[h url] p]|]; [|done]); try done;
    (destruct resp as [status body text|]; [|by apply suffix_cons_r]);
    (destruct (status =? 200); [by apply suffix_cons_r|]);
    (destruct (status =? 429); [|by apply suffix_cons_r]);
    (destruct body as [error_data|]; [|by apply suffix_cons_r]);
    (destruct (retry_after_of error_data) as [ra'|]; [|by apply suffix_cons_r]).
  - by apply suffix_cons_r.
  - specialize (IH ra' rest).
    destruct (send_telegram_notification cfg depth r ra' rest) as [[evs rest'] [[]|e']];
      cbn in *; by apply suffix_cons_r.
Qed.

(** ** One row of the loop *)

Section Row.

Context (cfg : config) (ord : set_order).

Lemma process_row_skip (r : row) (t : pyval) (m : machine) :
  tx_hash_of r ∈ processed_txs m →
  process_row cfg ord r t m = Ran [EPrint (LogSkipping (tx_hash_of r))] m (Ret t).
Proof.
  intros Hin. unfold process_row. rewrite run_gets.
  fold (tx_hash_of r). rewrite bool_decide_eq_true_2 by done.
  by rewrite run_print.
Qed.

Lemma process_row_fresh (r : row) (t : pyval) (m : machine) :
  tx_hash_of r ∉ processed_txs m →
  process_row cfg ord r t m =
    match
      send_telegram_notification cfg (recursion_limit cfg) r (JVal (PInt 0)) (responses m)
    with
    | (evs, rest, Raise e) =>
        Ran (ESleep 3 :: ESend r :: evs) (set_responses rest m) (Raise e)
    | (evs, rest, Ret _) =>
        Ran (ESleep 3 :: ESend r :: evs)
            (mark_processed ord (tx_hash_of r) (set_responses rest m))
            match write_outcome (next_write m) with
            | Ret _ => next_max_time (created_at_of r) t
            | Raise e => Raise e
            end
    end.
Proof.
  intros Hin. unfold process_row. rewrite run_gets.
  fold (tx_hash_of r). rewrite bool_decide_eq_false_2 by done.
  rewrite run_sleep.
  assert (await_send cfg r m =
    match
      send_telegram_notification cfg (recursion_limit cfg) r (JVal (PInt 0)) (responses m)
    with
    | (evs, rest, res) => Ran (ESend r :: evs) (set_responses rest m) res
    end) as Hsend by done.
  destruct (send_telegram_notification cfg (recursion_limit cfg) r (JVal (PInt 0))
              (responses m)) as [[evs rest] [[]|e]].
  - rewrite (run_bind_ret _ _ _ _ _ _ Hsend), !run_modify.
    rewrite run_call_save_processed_txs, run_write.
    change (next_write (set_processed_txs _ (set_responses rest m))) with (next_write m).
    fold (created_at_of r). unfold next_max_time, mark_processed.
    cbn [processed_txs set_processed_txs].
    destruct (write_outcome (next_write m)) as [[]|e]; [|by cbn; rewrite app_nil_r].
    destruct (Py.truthy (created_at_of r)); [|by cbn; rewrite app_nil_r].
    destruct t; [by cbn; rewrite app_nil_r| |];
      by destruct (Py.gt _ _) as [[]|]; cbn; rewrite app_nil_r.
  - by rewrite (run_bind_raise _ _ _ _ _ _ Hsend).
Qed.

End Row.

(** ** The loop over the rows of a batch *)

Section Rows.

Context (cfg : config) (ord : set_order).

Lemma for_rows_cons (r : row) (rest : list row) (t : pyval) (m : machine) :
  for_rows cfg ord (r :: rest) t m =
    (process_row cfg ord r t ≫= for_rows cfg ord rest) m.
Proof. done. Qed.

Lemma for_rows_loop (data : list row) (t : pyval) (m : machine) :
  loop cfg ord data t m
    (events (for_rows cfg ord data t m))
    (final (for_rows cfg ord data t m))
    (outcome (for_rows cfg ord data t m)).
Proof.
  revert t m. induction data as [|r rest IH]; intros t m.
  { apply loop_done. }
  rewrite for_rows_cons, run_bind.
  destruct (decide (tx_hash_of r ∈ processed_txs m)) as [Hin|Hin].
  { rewrite process_row_skip by done. cbn [outcome events final app].
    by apply loop_skip. }
  rewrite process_row_fresh by done.
  destruct (send_telegram_notification cfg (recursion_limit cfg) r (JVal (PInt 0))
              (responses m)) as [[sent unread] [[]|e]] eqn:Hsend; cbn [outcome events final].
  - destruct (write_outcome (next_write m)) as [[]|e] eqn:Hwrite;
      cbn [outcome events final]; [|by eapply loop_write_raises].
    apply write_outcome_Ret in Hwrite.
    destruct (next_max_time (created_at_of r) t) as [t'|e] eqn:Hnext;
      cbn [outcome events final].
    + change (ESleep 3 :: ESend r :: sent) with ([ESleep 3; ESend r] ++ sent).
      rewrite <- app_assoc. cbn [app].
      by eapply loop_sent.
    + by eapply loop_compare_raises.
  - by eapply loop_send_raises.
Qed.

End Rows.

Lemma sent_rows_app (a b : list event) :
  sent_rows (a ++ b) = sent_rows a ++ sent_rows b.
Proof. apply omap_app. Qed.

(** The sender posts, prints and sleeps; it neither queries nor calls
    itself from the loop. *)
Lemma send_sender_events (cfg : config) (depth : nat) (r : row) (ra : json)
    (resps : list response) :
  Forall sender_event (send_telegram_notification cfg depth r ra resps).1.1.
Proof.
  assert (∀ w, Forall sender_event (waited w)) as Hw.
  { intros [n|]; repeat constructor. }
  revert ra resps. induction depth as [|depth IH]; intros ra [|resp rest];
    cbn [send_telegram_notification];
    (destruct (positive_wait ra) as [w|]; [|by constructor]);
    (destruct (build_request cfg r) as [[[h url] p]|]; [|by apply Hw]);
    try (cbn [fst snd]; rewrite !Forall_app; by repeat constructor);
    (destruct resp as [status body text|];
       [|by cbn [fst snd]; rewrite !Forall_app; repeat constructor]);
    (destruct (status =? 200);
       [by cbn [fst snd]; rewrite !Forall_app; repeat constructor|]);
    (destruct (status =? 429);
       [|by cbn [fst snd]; rewrite !Forall_app; repeat constructor]);
    (destruct body as [error_data|];
       [|by cbn [fst snd]; rewrite !Forall_app; repeat constructor]);
    (destruct (retry_after_of error_data) as [ra'|];
       [|by cbn [fst snd]; rewrite !Forall_app; repeat constructor]).
  - cbn [fst snd]. rewrite !Forall_app. by repeat constructor.
  - specialize (IH ra' rest).
    destruct (send_telegram_notification cfg depth r ra' rest) as [[evs rest'] [[]|e']];
      cbn [fst snd] in *; rewrite !Forall_app; by repeat constructor.
Qed.

Lemma sender_events_sent_rows (evs : list event) :
  Forall sender_event evs → sent_rows evs = [].
Proof. induction 1 as [|[] evs He _ IH]; done. Qed.

Lemma sender_events_queries_made (evs : list event) :
  Forall sender_event evs → queries_made evs = [].
Proof. induction 1 as [|[] evs He _ IH]; done. Qed.

Lemma send_sent_rows (cfg : config) (depth : nat) (r : row) (ra : json)
    (resps : list response) :
  sent_rows (send_telegram_notification cfg depth r ra resps).1.1 = [].
Proof. apply sender_events_sent_rows, send_sender_events. Qed.

Lemma sent_rows_sent (r : row) (sent evs : list event) :
  sent_rows sent = [] →
  sent_rows (ESleep 3 :: ESend r :: sent ++ evs) = r :: sent_rows evs.
Proof.
  intros H. change (sent_rows (ESleep 3 :: ESend r :: sent ++ evs))
    with (r :: sent_rows (sent ++ evs)).
  by rewrite sent_rows_app, H.
Qed.

Lemma sent_rows_last (r : row) (sent : list event) :
  sent_rows sent = [] →
  sent_rows (ESleep 3 :: ESend r :: sent) = [r].
Proof.
  intros H. change (sent_rows (ESleep 3 :: ESend r :: sent))
    with (r :: sent_rows sent).
  by rewrite H.
Qed.

Lemma sent_rows_print (l : log) (evs : list event) :
  sent_rows (EPrint l :: evs) = sent_rows evs.
Proof. done. Qed.

Section Loop.

Context (cfg : config) (ord : set_order).

Lemma send_eq_sent_rows (depth : nat) (r : row) resps sent unread res :
  send_telegram_notification cfg depth r (JVal (PInt 0)) resps = (sent, unread, res) →
  sent_rows sent = [].
Proof.
  intros H. pose proof (send_sent_rows cfg depth r (JVal (PInt 0)) resps) as Hs.
  by rewrite H in Hs.
Qed.

(** Every row the loop sends is a row of the batch whose identifier was
    not in the set when the loop began. *)
Lemma loop_sent_fresh data t m evs m' res :
  loop cfg ord data t m evs m' res →
  ∀ r, r ∈ sent_rows evs → r ∈ data ∧ tx_hash_of r ∉ processed_txs m.
Proof.
  induction 1 as [t m|r rest t m evs m' res Hin Hrest IH
                 |r rest t m sent unread e Hin Hsend
                 |r rest t m sent unread e Hin Hsend Hwrite
                 |r rest t m sent unread e Hin Hsend Hwrite Hnext
                 |r rest t m sent unread t' evs m' res Hin Hsend Hwrite Hnext Hrest IH];
    intros r0 Hr0.
  - by apply elem_of_nil in Hr0.
  - destruct (IH r0 Hr0) as [??]. split; [by right|done].
  - rewrite (sent_rows_last _ _ (send_eq_sent_rows _ _ _ _ _ _ Hsend)) in Hr0.
    apply list_elem_of_singleton in Hr0 as ->. split; [by left|done].
  - rewrite (sent_rows_last _ _ (send_eq_sent_rows _ _ _ _ _ _ Hsend)) in Hr0.
    apply list_elem_of_singleton in Hr0 as ->. split; [by left|done].
  - rewrite (sent_rows_last _ _ (send_eq_sent_rows _ _ _ _ _ _ Hsend)) in Hr0.
    apply list_elem_of_singleton in Hr0 as ->. split; [by left|done].
  - rewrite (sent_rows_sent _ _ _ (send_eq_sent_rows _ _ _ _ _ _ Hsend)) in Hr0.
    apply elem_of_cons in Hr0 as [->|Hr0]; [split; [by left|done]|].
    destruct (IH r0 Hr0) as [? Hnot]. split; [by right|].
    cbn in Hnot. set_solver.
Qed.

(** The set only grows in the loop, by identifiers of rows sent; when the
    loop completes it has grown by all of them. *)
Lemma loop_processed data t m evs m' res :
  loop cfg ord data t m evs m' res →
  processed_txs m ⊆ processed_txs m' ∧
  processed_txs m' ⊆ processed_txs m ∪ list_to_set (tx_hash_of <$> sent_rows evs) ∧
  (∀ t', res = Ret t' →
     processed_txs m' = processed_txs m ∪ list_to_set (tx_hash_of <$> sent_rows evs)).
Proof.
  induction 1 as [t m|r rest t m evs m' res Hin Hrest IH
                 |r rest t m sent unread e Hin Hsend
                 |r rest t m sent unread e Hin Hsend Hwrite
                 |r rest t m sent unread e Hin Hsend Hwrite Hnext
                 |r rest t m sent unread t' evs m' res Hin Hsend Hwrite Hnext Hrest IH].
  - cbn. set_solver.
  - by rewrite sent_rows_print.
  - rewrite (sent_rows_last _ _ (send_eq_sent_rows _ _ _ _ _ _ Hsend)).
    cbn. set_solver.
  - rewrite (sent_rows_last _ _ (send_eq_sent_rows _ _ _ _ _ _ Hsend)).
    cbn. set_solver.
  - rewrite (sent_rows_last _ _ (send_eq_sent_rows _ _ _ _ _ _ Hsend)).
    cbn. set_solver.
  - rewrite (sent_rows_sent _ _ _ (send_eq_sent_rows _ _ _ _ _ _ Hsend)).
    cbn in *. destruct IH as (IH1 & IH2 & IH3). repeat split.
    + set_solver.
    + set_solver.
    + intros t'' ->. rewrite (IH3 t'' eq_refl). set_solver.
Qed.

Lemma mark_processed_state_file (h : pyval) (m : machine) :
  fs (mark_processed ord h m) !! STATE_FILE = fs m !! STATE_FILE.
Proof.
  unfold mark_processed, written, save_processed_txs_ops. cbn [fs set_fs].
  by rewrite files_after_other.
Qed.

Lemma mark_processed_fields (h : pyval) (m : machine) :
  processed_txs (mark_processed ord h m) = {[h]} ∪ processed_txs m ∧
  last_polled_time (mark_processed ord h m) = last_polled_time m ∧
  queries (mark_processed ord h m) = queries m ∧
  responses (mark_processed ord h m) = responses m ∧
  writes (mark_processed ord h m) = tail (writes m) ∧
  (next_write m = Written →
   fs (mark_processed ord h m) = save_processed_txs ord ({[h]} ∪ processed_txs m) (fs m)).
Proof.
  repeat split. intros Hw. unfold mark_processed. by rewrite fs_written.
Qed.

(** The loop touches neither the cursor, nor the state file, nor the
    script of the queries. *)
Lemma loop_frame data t m evs m' res :
  loop cfg ord data t m evs m' res →
  last_polled_time m' = last_polled_time m ∧
  fs m' !! STATE_FILE = fs m !! STATE_FILE ∧
  queries m' = queries m.
Proof.
  induction 1 as [t m|r rest t m evs m' res Hin Hrest IH
                 |r rest t m sent unread e Hin Hsend
                 |r rest t m sent unread e Hin Hsend Hwrite
                 |r rest t m sent unread e Hin Hsend Hwrite Hnext
                 |r rest t m sent unread t' evs m' res Hin Hsend Hwrite Hnext Hrest IH];
    rewrite ?mark_processed_state_file; try done.
  destruct IH as (-> & -> & ->).
  by rewrite mark_processed_state_file.
Qed.

(** No identifier is sent twice in one pass of the loop. *)
Lemma loop_sent_nodup data t m evs m' res :
  loop cfg ord data t m evs m' res →
  NoDup (tx_hash_of <$> sent_rows evs).
Proof.
  induction 1 as [t m|r rest t m evs m' res Hin Hrest IH
                 |r rest t m sent unread e Hin Hsend
                 |r rest t m sent unread e Hin Hsend Hwrite
                 |r rest t m sent unread e Hin Hsend Hwrite Hnext
                 |r rest t m sent unread t' evs m' res Hin Hsend Hwrite Hnext Hrest IH].
  - constructor.
  - by rewrite sent_rows_print.
  - rewrite (sent_rows_last _ _ (send_eq_sent_rows _ _ _ _ _ _ Hsend)).
    apply NoDup_singleton.
  - rewrite (sent_rows_last _ _ (send_eq_sent_rows _ _ _ _ _ _ Hsend)).
    apply NoDup_singleton.
  - rewrite (sent_rows_last _ _ (send_eq_sent_rows _ _ _ _ _ _ Hsend)).
    apply NoDup_singleton.
  - rewrite (sent_rows_sent _ _ _ (send_eq_sent_rows _ _ _ _ _ _ Hsend)).
    cbn [fmap list_fmap]. constructor; [|done].
    intros (r0 & Heq & Hr0)%list_elem_of_fmap.
    destruct (loop_sent_fresh _ _ _ _ _ _ Hrest r0 Hr0) as [_ Hnot].
    cbn in Hnot. set_solver.
Qed.

(** The set grows by at most one identifier for each row of the batch. *)
Lemma loop_size data t m evs m' res :
  loop cfg ord data t m evs m' res →
  (size (processed_txs m') ≤ size (processed_txs m) + length data)%nat.
Proof.
  induction 1 as [t m|r rest t m evs m' res Hin Hrest IH
                 |r rest t m sent unread e Hin Hsend
                 |r rest t m sent unread e Hin Hsend Hwrite
                 |r rest t m sent unread e Hin Hsend Hwrite Hnext
                 |r rest t m sent unread t' evs m' res Hin Hsend Hwrite Hnext Hrest IH];
    cbn [length processed_txs mark_processed written set_fs set_writes
         set_processed_txs set_responses] in *; try lia.
  - rewrite size_union by set_solver. rewrite size_singleton. lia.
  - rewrite size_union by set_solver. rewrite size_singleton. lia.
  - rewrite size_union in IH by set_solver. rewrite size_singleton in IH. lia.
Qed.

End Loop.

(** ** Rows already processed *)

Section Skip.

Context (cfg : config) (ord : set_order).

Lemma for_rows_app (pre post : list row) (t : pyval) (m : machine) :
  for_rows cfg ord (pre ++ post) t m =
    (for_rows cfg ord pre t ≫= for_rows cfg ord post) m.
Proof.
  revert t m. induction pre as [|r pre IH]; intros t m.
  { cbn [app for_rows]. rewrite run_bind. cbn. by rewrite ran_eta. }
  cbn [app for_rows]. rewrite run_bind_assoc.
  apply run_bind_ext. intros t' m'. apply IH.
Qed.

(** C6.  A row whose identifier is in the processed set when the loop
    reaches it is skipped: the loop prints the skip and does nothing
    else for it.  With the row or without it the loop ends in the same
    machine with the same [new_max_time], and its events differ by that
    print alone, so [send_telegram_notification] is not called for the
    row and no request is posted for it. *)
Theorem C6_processed_row_is_skipped
    (pre post : list row) (r : row) (t t1 : pyval) (m : machine) :
  outcome (for_rows cfg ord pre t m) = Ret t1 →
  tx_hash_of r ∈ processed_txs (final (for_rows cfg ord pre t m)) →
  outcome (for_rows cfg ord (pre ++ r :: post) t m)
    = outcome (for_rows cfg ord (pre ++ post) t m) ∧
  final (for_rows cfg ord (pre ++ r :: post) t m)
    = final (for_rows cfg ord (pre ++ post) t m) ∧
  events (for_rows cfg ord (pre ++ r :: post) t m)
    = events (for_rows cfg ord pre t m)
      ++ EPrint (LogSkipping (tx_hash_of r))
      :: events (for_rows cfg ord post t1 (final (for_rows cfg ord pre t m))) ∧
  events (for_rows cfg ord (pre ++ post) t m)
    = events (for_rows cfg ord pre t m)
      ++ events (for_rows cfg ord post t1 (final (for_rows cfg ord pre t m))).
Proof.
  intros Hpre Hin.
  rewrite !for_rows_app, !run_bind, Hpre. cbn [outcome events final].
  rewrite for_rows_cons, run_bind, process_row_skip by done.
  cbn [outcome events final app]. done.
Qed.

End Skip.

(** ** The order of [>] on strings *)

Lemma ascii_compare_refl (a : ascii) : Ascii.compare a a = Eq.
Proof. apply N.compare_refl. Qed.

Lemma ascii_compare_lt_trans (a b c : ascii) :
  Ascii.compare a b = Lt → Ascii.compare b c = Lt → Ascii.compare a c = Lt.
Proof.
  unfold Ascii.compare. rewrite !N.compare_lt_iff. apply N.lt_trans.
Qed.

Lemma string_compare_refl (s : string) : String.compare s s = Eq.
Proof.
  induction s as [|a s IH]; [done|]. cbn. by rewrite ascii_compare_refl.
Qed.

Lemma string_compare_lt_trans (a b c : string) :
  String.compare a b = Lt → String.compare b c = Lt → String.compare a c = Lt.
Proof.
  revert b c. induction a as [|x a IH]; intros [|y b] [|z c]; cbn; try done.
  destruct (Ascii.compare x y) eqn:Hxy; [|  |done].
  - apply Ascii.compare_eq_iff in Hxy as ->.
    destruct (Ascii.compare y z); [apply IH|done|done].
  - destruct (Ascii.compare y z) eqn:Hyz; [| |done].
    + apply Ascii.compare_eq_iff in Hyz as <-. by rewrite Hxy.
    + by rewrite (ascii_compare_lt_trans _ _ _ Hxy Hyz).
Qed.

Lemma leb_refl (s : string) : PyStr.leb s s = true.
Proof. unfold PyStr.leb, PyStr.gtb. by rewrite string_compare_refl. Qed.

Lemma leb_not_gtb (a b : string) : PyStr.gtb a b = false → PyStr.leb a b = true.
Proof. unfold PyStr.leb. by intros ->. Qed.

Lemma leb_gtb_trans (x m c : string) :
  PyStr.leb x m = true → PyStr.gtb c m = true → PyStr.leb x c = true.
Proof.
  unfold PyStr.leb, PyStr.gtb. intros Hxm Hcm.
  assert (String.compare m c = Lt) as Hmc.
  { rewrite String.compare_antisym. by destruct (String.compare c m). }
  destruct (String.compare x m) eqn:Hx; [| |done].
  - apply String.compare_eq_iff in Hx as ->. by rewrite Hmc.
  - by rewrite (string_compare_lt_trans _ _ _ Hx Hmc).
Qed.

Lemma leb_trans (a b c : string) :
  PyStr.leb a b = true → PyStr.leb b c = true → PyStr.leb a c = true.
Proof.
  intros Hab Hbc. destruct (PyStr.gtb c b) eqn:Hcb.
  - by eapply leb_gtb_trans.
  - assert (b = c) as ->; [|done].
    unfold PyStr.leb, PyStr.gtb in *.
    rewrite String.compare_antisym in Hcb.
    destruct (String.compare b c) eqn:Hc; [|done|done].
    by apply String.compare_eq_iff.
Qed.

(** ** One cycle *)

Section Cycle.

Context (cfg : config) (ord : set_order).

Lemma advance_run (t : pyval) (m : machine) :
  advance t m = Ran [] (advance_cursor t m) (advance_outcome t m).
Proof.
  unfold advance, advance_cursor, advance_outcome. destruct (Py.truthy t); [|done].
  by rewrite run_modify.
Qed.

Lemma cleanup_old_run (m : machine) :
  cleanup_old ord m = Ran [] (cleanup ord m) (cleanup_outcome m).
Proof.
  unfold cleanup_old, cleanup, cleanup_outcome. rewrite run_gets.
  destruct (1000 <? size (processed_txs m))%nat; [|done].
  by rewrite run_modify.
Qed.

Lemma process_batch_run (data : list row) (m : machine) :
  process_batch cfg ord data m =
    let rows := for_rows cfg ord data PNone m in
    match outcome rows with
    | Ret t =>
        Ran (EPrint (LogFound (length data)) :: events rows)
            (settled ord t (final rows)) (settle_outcome t (final rows))
    | Raise e =>
        Ran (EPrint (LogFound (length data)) :: events rows) (final rows) (Raise e)
    end.
Proof.
  unfold process_batch. rewrite run_print, run_bind. cbn zeta.
  destruct (outcome (for_rows cfg ord data PNone m)) as [t|e];
    cbn [outcome events final]; [|done].
  rewrite run_bind, advance_run. cbn [outcome events final].
  unfold settled, settle_outcome.
  destruct (advance_outcome t _) as [[]|e]; [|by rewrite app_nil_r].
  rewrite cleanup_old_run. cbn [outcome events final app].
  by rewrite app_nil_r.
Qed.

Lemma cycle_body_run (m : machine) :
  cycle_body cfg ord m =
    match queries m with
    | [] => Ran [query_event m] m (Raise APIError)
    | QueryFailed :: qs => Ran [query_event m] (set_queries qs m) (Raise APIError)
    | QueryData [] :: qs =>
        Ran [query_event m; ESleep 10] (set_queries qs m) (Ret tt)
    | QueryData data :: qs =>
        let rows := for_rows cfg ord data PNone (set_queries qs m) in
        match outcome rows with
        | Ret t =>
            match settle_outcome t (final rows) with
            | Ret _ =>
                Ran (query_event m :: EPrint (LogFound (length data))
                       :: events rows ++ [ESleep 10])
                    (settled ord t (final rows)) (Ret tt)
            | Raise e =>
                Ran (query_event m :: EPrint (LogFound (length data)) :: events rows)
                    (settled ord t (final rows)) (Raise e)
            end
        | Raise e =>
            Ran (query_event m :: EPrint (LogFound (length data)) :: events rows)
                (final rows) (Raise e)
        end
    end.
Proof.
  unfold cycle_body. rewrite run_gets, run_emit. fold (query_event m).
  destruct (queries m) as [|[data|] qs] eqn:Hq.
  - assert (execute m = Ran [] m (Raise APIError)) as Hx
      by (unfold execute; by rewrite Hq).
    by rewrite (run_bind_raise _ _ _ _ _ _ Hx).
  - assert (execute m = Ran [] (set_queries qs m) (Ret data)) as Hx
      by (unfold execute; by rewrite Hq).
    rewrite (run_bind_ret _ _ _ _ _ _ Hx). cbn [app].
    destruct data as [|r data]; [done|].
    set (all := r :: data). rewrite run_bind.
    change (match all with [] => mret () | _ :: _ => process_batch cfg ord all end)
      with (process_batch cfg ord all).
    rewrite process_batch_run. cbn zeta.
    destruct (outcome (for_rows cfg ord all PNone (set_queries qs m))); [|done].
    cbn [outcome events final].
    by destruct (settle_outcome _ _) as [[]|].
  - assert (execute m = Ran [] (set_queries qs m) (Raise APIError)) as Hx
      by (unfold execute; by rewrite Hq).
    by rewrite (run_bind_raise _ _ _ _ _ _ Hx).
Qed.

Lemma advance_cursor_processed (t : pyval) (m : machine) :
  processed_txs (advance_cursor t m) = processed_txs m.
Proof. unfold advance_cursor. by destruct (Py.truthy t). Qed.

Lemma reliable_next_write (m : machine) : reliable m → next_write m = Written.
Proof.
  unfold reliable, next_write. destruct (writes m) as [|w ws]; [done|].
  intros H. apply H. by left.
Qed.

Lemma reliable_written (ops : list fsop) (m : machine) :
  reliable m → reliable (written ops m).
Proof.
  unfold reliable. cbn. intros H w Hw. apply H.
  destruct (writes m); [done|by right].
Qed.

Lemma settled_fields (t : pyval) (m : machine) :
  queries (settled ord t m) = queries m ∧
  responses (settled ord t m) = responses m ∧
  (processed_txs (settled ord t m) = processed_txs m ∨
   (1000 < size (processed_txs m))%nat ∧
   processed_txs (settled ord t m) = prune ord (processed_txs m)) ∧
  ((size (processed_txs m) ≤ 1000)%nat →
   processed_txs (settled ord t m) = processed_txs m) ∧
  (reliable m → reliable (settled ord t m) ∧ settle_outcome t m = Ret tt).
Proof.
  assert (∀ m0, queries (cleanup ord m0) = queries m0 ∧
                responses (cleanup ord m0) = responses m0 ∧
                (processed_txs (cleanup ord m0) = processed_txs m0 ∨
                 (1000 < size (processed_txs m0))%nat ∧
                 processed_txs (cleanup ord m0) = prune ord (processed_txs m0)) ∧
                (reliable m0 → reliable (cleanup ord m0) ∧ cleanup_outcome m0 = Ret tt))
    as Hcleanup.
  { intros m0. unfold cleanup, cleanup_outcome.
    destruct (Nat.ltb_spec 1000 (size (processed_txs m0))); [|by repeat split; [left|]].
    repeat split; [by right|by apply reliable_written|].
    by rewrite reliable_next_write. }
  assert (queries (advance_cursor t m) = queries m ∧
          responses (advance_cursor t m) = responses m ∧
          (reliable m → reliable (advance_cursor t m) ∧ advance_outcome t m = Ret tt))
    as (Hq & Hr & Hrel).
  { unfold advance_cursor, advance_outcome. destruct (Py.truthy t); [|done].
    repeat split; [by apply reliable_written|]. by rewrite reliable_next_write. }
  assert (processed_txs (settled ord t m) = processed_txs m ∨
          (1000 < size (processed_txs m))%nat ∧
          processed_txs (settled ord t m) = prune ord (processed_txs m)) as Hset.
  { unfold settled. destruct (advance_outcome t m).
    - destruct (Hcleanup (advance_cursor t m)) as (_ & _ & Hp & _).
      by rewrite !advance_cursor_processed in Hp.
    - left. apply advance_cursor_processed. }
  split; [|split; [|split; [done|split]]].
  - unfold settled. destruct (advance_outcome t m); [|done].
    by destruct (Hcleanup (advance_cursor t m)) as (-> & _).
  - unfold settled. destruct (advance_outcome t m); [|done].
    by destruct (Hcleanup (advance_cursor t m)) as (_ & -> & _).
  - intros Hsmall. destruct Hset as [|[]]; [done|lia].
  - intros [Hrel1 Hadv]%Hrel. unfold settled, settle_outcome. rewrite Hadv.
    by apply Hcleanup.
Qed.

(** When its two steps complete, a cycle leaves the machine of the
    cursor moved and the set pruned. *)
Lemma settled_Ret (t : pyval) (m : machine) :
  settle_outcome t m = Ret tt →
  settled ord t m = cleanup ord (advance_cursor t m) ∧
  advance_outcome t m = Ret tt ∧
  cleanup_outcome (advance_cursor t m) = Ret tt.
Proof.
  unfold settled, settle_outcome. by destruct (advance_outcome t m) as [[]|].
Qed.

Lemma poll_cycle_run (m : machine) :
  poll_cycle cfg ord m =
    match outcome (cycle_body cfg ord m) with
    | Ret _ =>
        Ran (events (cycle_body cfg ord m)) (final (cycle_body cfg ord m)) (Ret tt)
    | Raise e =>
        Ran (events (cycle_body cfg ord m) ++ [EPrint (LogPollingError e); ESleep 10])
            (final (cycle_body cfg ord m)) (Ret tt)
    end.
Proof.
  unfold poll_cycle. rewrite run_try_except.
  destruct (outcome (cycle_body cfg ord m)) as [[]|e]; [done|].
  by rewrite run_print.
Qed.

Lemma poll_cycle_final (m : machine) :
  final (poll_cycle cfg ord m) = final (cycle_body cfg ord m).
Proof. rewrite poll_cycle_run. by destruct (outcome (cycle_body cfg ord m)). Qed.

(** No exception leaves a cycle. *)
Lemma poll_cycle_returns (m : machine) : outcome (poll_cycle cfg ord m) = Ret tt.
Proof. rewrite poll_cycle_run. by destruct (outcome (cycle_body cfg ord m)). Qed.

End Cycle.

(** ** The greatest creation time, and exceptions in the loop *)

Lemma ctimes_cons (r : row) (s : string) (rows : list row) :
  created_at_of r = PStr s → ctimes (r :: rows) = s :: ctimes rows.
Proof. intros H. unfold ctimes. cbn. by rewrite H. Qed.

Lemma elem_of_ctimes (s : string) (rows : list row) :
  s ∈ ctimes rows → ∃ r, r ∈ rows ∧ created_at_of r = PStr s.
Proof.
  unfold ctimes. rewrite list_elem_of_omap. intros (r & Hr & Hs).
  exists r. split; [done|]. by destruct (created_at_of r); simplify_eq.
Qed.

Lemma next_max_time_timestamped (r : row) (t : pyval) (seen : list string) :
  timestamped r → max_so_far t seen →
  ∃ s t', created_at_of r = PStr s ∧
          next_max_time (created_at_of r) t = Ret t' ∧
          max_so_far t' (seen ++ [s]).
Proof.
  intros (s & Hs & Hne) Hmax. exists s. rewrite Hs.
  unfold next_max_time. cbn [Py.truthy].
  assert (String.eqb s "" = false) as -> by by apply String.eqb_neq.
  cbn [negb]. destruct t as [|z|old]; [| done |].
  - exists (PStr s). cbn in *. subst seen. repeat split; [set_solver|].
    intros x ->%list_elem_of_singleton. apply leb_refl.
  - cbn [Py.gt]. destruct Hmax as [Hin Hle].
    destruct (PyStr.gtb s old) eqn:Hgt.
    + exists (PStr s). repeat split; [set_solver|].
      intros x [Hx| ->%list_elem_of_singleton]%elem_of_app; [|apply leb_refl].
      eapply leb_gtb_trans; [by apply Hle|done].
    + exists (PStr old). repeat split; [set_solver|].
      intros x [Hx| ->%list_elem_of_singleton]%elem_of_app; [by apply Hle|].
      by apply leb_not_gtb.
Qed.

Section LoopMore.

Context (cfg : config) (ord : set_order).

(** The relation has one outcome: that of [for_rows]. *)
Lemma loop_for_rows data t m evs m' res :
  loop cfg ord data t m evs m' res →
  for_rows cfg ord data t m = Ran evs m' res.
Proof.
  induction 1 as [t m|r rest t m evs m' res Hin Hrest IH
                 |r rest t m sent unread e Hin Hsend
                 |r rest t m sent unread e Hin Hsend Hwrite
                 |r rest t m sent unread e Hin Hsend Hwrite Hnext
                 |r rest t m sent unread t' evs m' res Hin Hsend Hwrite Hnext Hrest IH];
    [done|rewrite for_rows_cons, run_bind..].
  - rewrite process_row_skip by done. cbn [outcome events final app].
    by rewrite IH.
  - rewrite process_row_fresh by done. by rewrite Hsend.
  - rewrite process_row_fresh by done. by rewrite Hsend, Hwrite.
  - rewrite process_row_fresh by done. rewrite Hsend, Hwrite.
    cbn [outcome events final write_outcome]. by rewrite Hnext.
  - rewrite process_row_fresh by done. rewrite Hsend, Hwrite.
    cbn [outcome events final write_outcome]. by rewrite Hnext, IH.
Qed.

(** While the rows are timestamped, [new_max_time] after the loop is the
    greatest creation time among the rows sent. *)
Lemma loop_max data t m evs m' res seen :
  loop cfg ord data t m evs m' res →
  Forall timestamped data →
  max_so_far t seen →
  ∀ t', res = Ret t' → max_so_far t' (seen ++ ctimes (sent_rows evs)).
Proof.
  intros Hloop. revert seen.
  induction Hloop as [t m|r rest t m evs m' res Hin Hrest IH
                 |r rest t m sent unread e Hin Hsend
                 |r rest t m sent unread e Hin Hsend Hwrite
                 |r rest t m sent unread e Hin Hsend Hwrite Hnext
                 |r rest t m sent unread t' evs m' res Hin Hsend Hwrite Hnext Hrest IH];
    intros seen Hts Hmax t'' Hres; try done.
  - injection Hres as <-. by rewrite app_nil_r.
  - rewrite sent_rows_print. apply IH; [by inversion Hts|done..].
  - rewrite (sent_rows_sent _ _ _ (send_eq_sent_rows _ _ _ _ _ _ _ Hsend)).
    inversion Hts as [|?? Hr Hrest']; subst.
    destruct (next_max_time_timestamped _ _ _ Hr Hmax) as (s & t1 & Hs & Hn & Hm1).
    rewrite Hn in Hnext. injection Hnext as <-.
    rewrite (ctimes_cons _ _ _ Hs).
    replace (seen ++ s :: ctimes (sent_rows evs))
      with ((seen ++ [s]) ++ ctimes (sent_rows evs)) by by rewrite <- app_assoc.
    by apply IH.
Qed.

(** An exception in the loop comes from one row, after the rows before
    it were handled to the end.  Either the send of that row raised, and
    then the set and the files are those the earlier rows left; or the
    row was sent and the write of the set did not complete, and then the
    set in memory holds the row while its file is as far as that write
    went; or the row was sent and marked and the comparison of its
    creation time raised, and then the set and its file hold that row
    too. *)
Lemma loop_raise data t m evs m' e :
  loop cfg ord data t m evs m' (Raise e) →
  ∃ pre r post t_pre,
    data = pre ++ r :: post ∧
    outcome (for_rows cfg ord pre t m) = Ret t_pre ∧
    (tx_hash_of r ∉ processed_txs (final (for_rows cfg ord pre t m))) ∧
    ((e ≠ OSError ∧
      processed_txs m' = processed_txs (final (for_rows cfg ord pre t m)) ∧
      fs m' = fs (final (for_rows cfg ord pre t m))) ∨
     (e = OSError ∧
      next_write (final (for_rows cfg ord pre t m)) ≠ Written ∧
      processed_txs m' =
        {[tx_hash_of r]} ∪ processed_txs (final (for_rows cfg ord pre t m)) ∧
      fs m' =
        files_after (next_write (final (for_rows cfg ord pre t m)))
          (save_processed_txs_ops ord
             ({[tx_hash_of r]} ∪ processed_txs (final (for_rows cfg ord pre t m))))
          (fs (final (for_rows cfg ord pre t m)))) ∨
     (e ≠ OSError ∧
      next_max_time (created_at_of r) t_pre = Raise e ∧
      processed_txs m' =
        {[tx_hash_of r]} ∪ processed_txs (final (for_rows cfg ord pre t m)) ∧
      fs m' =
        save_processed_txs ord
          ({[tx_hash_of r]} ∪ processed_txs (final (for_rows cfg ord pre t m)))
          (fs (final (for_rows cfg ord pre t m))))).
Proof.
  remember (Raise e) as res eqn:Hres. intros Hloop. revert Hres.
  induction Hloop as [t m|r rest t m evs m' res Hin Hrest IH
                 |r rest t m sent unread e0 Hin Hsend
                 |r rest t m sent unread e0 Hin Hsend Hwrite
                 |r rest t m sent unread e0 Hin Hsend Hwrite Hnext
                 |r rest t m sent unread t' evs m' res Hin Hsend Hwrite Hnext Hrest IH];
    intros Hres; [done|..].
  - destruct (IH Hres) as (pre & r0 & post & t_pre & -> & Hpre & Hfresh & Hend).
    exists (r :: pre), r0, post, t_pre.
    assert (final (for_rows cfg ord (r :: pre) t m) = final (for_rows cfg ord pre t m)
            ∧ outcome (for_rows cfg ord (r :: pre) t m)
              = outcome (for_rows cfg ord pre t m)) as [Hf Ho].
    { rewrite for_rows_cons, run_bind, process_row_skip by done.
      cbn [outcome events final]. done. }
    rewrite Hf, Ho. done.
  - injection Hres as ->. exists [], r, rest, t. cbn [for_rows app].
    repeat split; [done|]. left. split; [|done].
    intros ->. by destruct (send_outcome _ _ _ _ _ _ _ _ Hsend).
  - injection Hres as ->. exists [], r, rest, t. cbn [for_rows app].
    repeat split; [done|]. right. left.
    destruct (write_outcome_Raise _ _ Hwrite) as [-> Hw]. done.
  - injection Hres as ->. exists [], r, rest, t. cbn [for_rows app].
    repeat split; [done|]. right. right.
    split; [|split; [done|]].
    + intros ->. by apply next_max_time_Raise in Hnext.
    + split; [done|].
      by apply (mark_processed_fields ord (tx_hash_of r) (set_responses unread m)).
  - destruct (IH Hres) as (pre & r0 & post & t_pre & -> & Hpre & Hfresh & Hend).
    exists (r :: pre), r0, post, t_pre.
    assert (final (for_rows cfg ord (r :: pre) t m)
              = final (for_rows cfg ord pre t'
                         (mark_processed ord (tx_hash_of r) (set_responses unread m)))
            ∧ outcome (for_rows cfg ord (r :: pre) t m)
              = outcome (for_rows cfg ord pre t'
                         (mark_processed ord (tx_hash_of r) (set_responses unread m))))
      as [Hf Ho].
    { rewrite for_rows_cons, run_bind, process_row_fresh by done.
      rewrite Hsend, Hwrite. cbn [outcome events final write_outcome]. rewrite Hnext.
      cbn [outcome events final]. done. }
    rewrite Hf, Ho. done.
Qed.

End LoopMore.

(** ** The cursor *)

Lemma load_state_save_processed_txs (ord : set_order) (s : gset pyval) (fs : files) :
  load_state (save_processed_txs ord s fs) = load_state fs.
Proof.
  unfold load_state, save_processed_txs, save_processed_txs_ops, apply_ops.
  cbn. by rewrite !lookup_insert_ne.
Qed.

Lemma load_state_lookup (fs1 fs2 : files) :
  fs1 !! STATE_FILE = fs2 !! STATE_FILE → load_state fs1 = load_state fs2.
Proof. unfold load_state. by intros ->. Qed.

Lemma cleanup_cursor (ord : set_order) (m : machine) :
  last_polled_time (cleanup ord m) = last_polled_time m ∧
  fs (cleanup ord m) !! STATE_FILE = fs m !! STATE_FILE ∧
  load_state (fs (cleanup ord m)) = load_state (fs m).
Proof.
  assert (fs (cleanup ord m) !! STATE_FILE = fs m !! STATE_FILE) as Hfile.
  { unfold cleanup. destruct (1000 <? size (processed_txs m))%nat; [|done].
    unfold written, save_processed_txs_ops. cbn [fs set_fs].
    by rewrite files_after_other. }
  split; [|split; [done|by apply load_state_lookup]].
  unfold cleanup. by destruct (1000 <? size (processed_txs m))%nat.
Qed.

Lemma ctimes_timestamped (rows : list row) :
  Forall timestamped rows → length (ctimes rows) = length rows.
Proof.
  induction 1 as [|r rows (s & Hs & _) _ IH]; [done|].
  rewrite (ctimes_cons _ _ _ Hs). cbn. by rewrite IH.
Qed.

Section Cursor.

Context (cfg : config) (ord : set_order).

(** The rows a cycle sends are those its loop sends. *)
Lemma sent_rows_poll_cycle (m : machine) :
  sent_rows (events (poll_cycle cfg ord m)) =
    match queries m with
    | QueryData data :: qs =>
        sent_rows (events (for_rows cfg ord data PNone (set_queries qs m)))
    | _ => []
    end.
Proof.
  rewrite poll_cycle_run, cycle_body_run.
  destruct (queries m) as [|[[|r data]|] qs]; try done.
  cbn zeta.
  assert (∀ e, sent_rows
    ((query_event m :: EPrint (LogFound (length (r :: data)))
        :: events (for_rows cfg ord (r :: data) PNone (set_queries qs m)))
       ++ [EPrint (LogPollingError e); ESleep 10])
    = sent_rows (events (for_rows cfg ord (r :: data) PNone (set_queries qs m)))) as Hraise.
  { intros e.
    change (sent_rows ((query_event m :: EPrint (LogFound (length (r :: data))) :: ?evs) ++ ?l))
      with (sent_rows (evs ++ l)).
    rewrite sent_rows_app. cbn. by rewrite app_nil_r. }
  destruct (outcome (for_rows cfg ord (r :: data) PNone (set_queries qs m)));
    cbn [outcome events final]; [|apply Hraise].
  destruct (settle_outcome _ _) as [[]|]; cbn [outcome events final]; [|apply Hraise].
  change (sent_rows (query_event m :: EPrint (LogFound (length (r :: data))) :: ?evs))
    with (sent_rows evs).
  rewrite sent_rows_app. cbn. by rewrite app_nil_r.
Qed.

Lemma settled_cursor (t : pyval) (m : machine) :
  last_polled_time (settled ord t m) = (if Py.truthy t then t else last_polled_time m) ∧
  (settle_outcome t m = Ret tt →
   load_state (fs (settled ord t m)) = if Py.truthy t then JVal t else load_state (fs m)).
Proof.
  unfold settled, settle_outcome, advance_outcome, advance_cursor.
  destruct (Py.truthy t) eqn:Ht.
  - destruct (write_outcome (next_write m)) as [[]|e] eqn:Hw; [|done].
    apply write_outcome_Ret in Hw.
    destruct (cleanup_cursor ord
      (written (save_state_ops t) (set_last_polled_time t m))) as (-> & _ & ->).
    split; [done|]. intros _. rewrite fs_written by done.
    apply load_state_save_state.
  - by destruct (cleanup_cursor ord m) as (-> & _ & ->).
Qed.

(** C5 as the spec states it fails.  The creation times are timestamps
    with a UTC offset, and the loop compares them as strings.  Of two
    rows created at 12:00:00+02:00 and at 11:00:00+00:00, which the
    source returns in that order, the first is an hour earlier and the
    greater string: the cycle sends both, completes, and persists as the
    cursor the creation time of the first, which is not the latest among
    the rows it sent. *)
Lemma C5_cursor_before_a_sent_row :
  outcome (cycle_body demo_cfg trie_order offsets_machine) = Ret tt ∧
  sent_rows (events (poll_cycle demo_cfg trie_order offsets_machine))
    = [summer_row; utc_row] ∧
  ¬ (∃ t, load_state (fs (final (poll_cycle demo_cfg trie_order offsets_machine)))
            = JVal (PStr t) ∧
          latest t (ctimes (sent_rows (events (poll_cycle demo_cfg trie_order
                                                  offsets_machine))))).
Proof.
  assert (sent_rows (events (poll_cycle demo_cfg trie_order offsets_machine))
          = [summer_row; utc_row]) as Hsent by (vm_compute; reflexivity).
  split; [vm_compute; reflexivity|]. split; [exact Hsent|].
  rewrite Hsent. intros (t & Ht & _ & Hlatest).
  assert (t = "2024-05-01T12:00:00+02:00") as ->.
  { vm_compute in Ht. by injection Ht. }
  destruct (Hlatest "2024-05-01T11:00:00+00:00") as (x & y & Hx & Hy & Hle).
  { vm_compute. apply list_elem_of_In. right. by left. }
  vm_compute in Hx, Hy. injection Hx as <-. injection Hy as <-. lia.
Qed.

(** The order of [>] is the order of the definition. *)
Lemma compare_lex_lt (a b : string) : String.compare a b = Lt ↔ lex_lt a b.
Proof.
  revert b. induction a as [|c a IH]; intros [|d b]; cbn [String.compare].
  - split; [done|inversion 1].
  - split; [constructor|done].
  - split; [done|inversion 1].
  - unfold Ascii.compare. destruct (N.compare_spec (N_of_ascii c) (N_of_ascii d)) as [Heq|Hlt|Hgt].
    + assert (c = d) as ->.
      { by rewrite <- (ascii_N_embedding c), <- (ascii_N_embedding d), Heq. }
      rewrite IH. split; [by constructor|].
      inversion 1; subst; [lia|done].
    + split; [by constructor|done].
    + split; [done|]. inversion 1; subst; lia.
Qed.

Lemma leb_lex (x t : string) : PyStr.leb x t = true ↔ ¬ lex_lt t x.
Proof.
  rewrite <- compare_lex_lt. unfold PyStr.leb, PyStr.gtb.
  rewrite (String.compare_antisym x t).
  destruct (String.compare t x); cbn; split; (done || by intros []).
Qed.

Lemma greatest_lex (t : string) (l : list string) : greatest t l ↔ lex_greatest t l.
Proof.
  unfold greatest, lex_greatest. split; intros [Hin Hle]; (split; [done|]);
    intros s Hs; by apply leb_lex, Hle.
Qed.

(** C5, amended.  Take a cycle whose query answers with rows that are all
    timestamped.  If the cycle completes without an exception and has
    sent at least one row, then the cursor after it, in memory and as
    persisted, is the creation time, among the rows it sent, that is the
    greatest string; that is the latest of their times when the order of
    these strings agrees with the order of the times they denote.  And
    if every row of the answer was created at or after the time of the
    cursor, the cursor after the cycle is not a time before the cursor
    before it, whether the cycle completes or not; when it completes and
    the state file held the cursor before, it holds the cursor after. *)
Theorem C5_cursor_is_greatest_creation_time
    (m : machine) (data : list row) (qs : list query_result) :
  queries m = QueryData data :: qs →
  Forall timestamped data →
  (outcome (cycle_body cfg ord m) = Ret tt →
   sent_rows (events (poll_cycle cfg ord m)) ≠ [] →
   ∃ t, lex_greatest t (ctimes (sent_rows (events (poll_cycle cfg ord m)))) ∧
        last_polled_time (final (poll_cycle cfg ord m)) = PStr t ∧
        load_state (fs (final (poll_cycle cfg ord m))) = JVal (PStr t) ∧
        (chronological (ctimes (sent_rows (events (poll_cycle cfg ord m)))) →
         latest t (ctimes (sent_rows (events (poll_cycle cfg ord m)))))) ∧
  (∀ c, last_polled_time m = PStr c →
        not_after c c →
        Forall (fun r => ∀ s, created_at_of r = PStr s → not_after c s) data →
        ∃ c', last_polled_time (final (poll_cycle cfg ord m)) = PStr c' ∧
              not_after c c' ∧
              (outcome (cycle_body cfg ord m) = Ret tt →
               load_state (fs m) = JVal (PStr c) →
               load_state (fs (final (poll_cycle cfg ord m))) = JVal (PStr c'))).
Proof.
  intros Hq Hts.
  rewrite sent_rows_poll_cycle, poll_cycle_final, cycle_body_run, Hq.
  destruct data as [|r0 data0].
  { split; [done|]. intros c Hc Hwf _. exists c. by repeat split. }
  set (data := r0 :: data0) in *. cbn zeta.
  set (m1 := set_queries qs m).
  pose proof (for_rows_loop cfg ord data PNone m1) as Hloop.
  pose proof (loop_frame _ _ _ _ _ _ _ _ Hloop) as (Hcur & Hfile & _).
  pose proof (loop_sent_fresh _ _ _ _ _ _ _ _ Hloop) as Hsent.
  destruct (outcome (for_rows cfg ord data PNone m1)) as [t|e] eqn:Hout;
    cbn [outcome events final].
  2:{ split; [done|]. intros c Hc Hwf _. exists c.
      split; [by rewrite Hcur|]. split; [done|done]. }
  pose proof (loop_max _ _ _ _ _ _ _ _ [] Hloop Hts eq_refl t eq_refl) as Hmax.
  cbn [app] in Hmax.
  assert (∀ s, s ∈ ctimes (sent_rows (events (for_rows cfg ord data PNone m1))) →
               ∃ r, r ∈ data ∧ created_at_of r = PStr s ∧ s ≠ "") as Hfrom.
  { intros s (r & Hr & Hs)%elem_of_ctimes. exists r.
    destruct (Hsent r Hr) as [Hin _]. repeat split; [done..|].
    rewrite Forall_forall in Hts. destruct (Hts r Hin) as (s' & Hs' & Hne).
    congruence. }
  destruct (settled_cursor t (final (for_rows cfg ord data PNone m1)))
    as [Hmem Hfs].
  assert (final
    match settle_outcome t (final (for_rows cfg ord data PNone m1)) with
    | Ret _ =>
        Ran (query_event m :: EPrint (LogFound (length data))
               :: events (for_rows cfg ord data PNone m1) ++ [ESleep 10])
            (settled ord t (final (for_rows cfg ord data PNone m1))) (Ret tt)
    | Raise e =>
        Ran (query_event m :: EPrint (LogFound (length data))
               :: events (for_rows cfg ord data PNone m1))
            (settled ord t (final (for_rows cfg ord data PNone m1))) (Raise e)
    end = settled ord t (final (for_rows cfg ord data PNone m1))) as ->
    by by destruct (settle_outcome _ _) as [[]|].
  assert (outcome
    match settle_outcome t (final (for_rows cfg ord data PNone m1)) with
    | Ret _ =>
        Ran (query_event m :: EPrint (LogFound (length data))
               :: events (for_rows cfg ord data PNone m1) ++ [ESleep 10])
            (settled ord t (final (for_rows cfg ord data PNone m1))) (Ret tt)
    | Raise e =>
        Ran (query_event m :: EPrint (LogFound (length data))
               :: events (for_rows cfg ord data PNone m1))
            (settled ord t (final (for_rows cfg ord data PNone m1))) (Raise e)
    end = Ret tt →
    settle_outcome t (final (for_rows cfg ord data PNone m1)) = Ret tt) as Hdone
    by by destruct (settle_outcome _ _) as [[]|].
  rewrite Hmem. destruct t as [|z|s]; [|done|].
  - cbn [Py.truthy]. cbn [max_so_far] in Hmax. split.
    + intros _ Hne. exfalso.
      assert (Forall timestamped (sent_rows (events (for_rows cfg ord data PNone m1))))
        as Hts'.
      { rewrite Forall_forall in *. intros r Hr. apply Hts. by apply Hsent. }
      apply ctimes_timestamped in Hts'. rewrite Hmax in Hts'.
      destruct (sent_rows _); [done|]. done.
    + intros c Hc Hwf _. exists c. split; [by rewrite Hcur|]. split; [done|].
      intros Hret%Hdone Hfile0. rewrite (Hfs Hret). cbn [Py.truthy].
      rewrite (load_state_lookup _ (fs m1)) by done. done.
  - destruct Hmax as [Hin Hle].
    destruct (Hfrom s Hin) as (r & Hr & Hs & Hne).
    cbn [Py.truthy] in *.
    assert (String.eqb s "" = false) as Hs0 by by apply String.eqb_neq.
    rewrite Hs0 in *. cbn [negb] in *. split.
    + intros Hret%Hdone _. exists s. rewrite (Hfs Hret).
      split; [by apply greatest_lex|]. split; [done|]. split; [done|].
      intros Hchron. split; [done|]. intros x Hx.
      apply Hchron; [done|done|]. by apply leb_lex, Hle.
    + intros c Hc Hwf Hge. exists s. split; [done|].
      rewrite Forall_forall in Hge. split; [by apply (Hge r Hr)|].
      intros Hret%Hdone _. by rewrite (Hfs Hret).
Qed.

End Cursor.

(** ** Exceptions and the loop of cycles *)

Section Errors.

Context (cfg : config) (ord : set_order).

Lemma loop_queries_made data t m evs m' res :
  loop cfg ord data t m evs m' res → queries_made evs = [].
Proof.
  assert (∀ depth r resps sent unread res',
    send_telegram_notification cfg depth r (JVal (PInt 0)) resps = (sent, unread, res') →
    queries_made sent = []) as Hsent.
  { intros depth r resps sent unread res' H. apply sender_events_queries_made.
    pose proof (send_sender_events cfg depth r (JVal (PInt 0)) resps) as Hs.
    by rewrite H in Hs. }
  induction 1 as [t m|r rest t m evs m' res Hin Hrest IH
                 |r rest t m sent unread e Hin Hsend
                 |r rest t m sent unread e Hin Hsend Hwrite
                 |r rest t m sent unread e Hin Hsend Hwrite Hnext
                 |r rest t m sent unread t' evs m' res Hin Hsend Hwrite Hnext Hrest IH];
    [done|done|by apply (Hsent _ _ _ _ _ _ Hsend)..|].
  change (queries_made (ESleep 3 :: ESend r :: sent ++ evs))
    with (queries_made (sent ++ evs)).
  unfold queries_made in *. by rewrite omap_app, (Hsent _ _ _ _ _ _ Hsend), IH.
Qed.

(** Each cycle makes one query, from the cursor. *)
Lemma queries_made_poll_cycle (m : machine) :
  queries_made (events (poll_cycle cfg ord m)) = [last_polled_time m].
Proof.
  rewrite poll_cycle_run, cycle_body_run.
  destruct (queries m) as [|[[|r data]|] qs]; try done.
  cbn zeta.
  pose proof (loop_queries_made _ _ _ _ _ _
    (for_rows_loop cfg ord (r :: data) PNone (set_queries qs m))) as Hq.
  assert (∀ e, queries_made
    ((query_event m :: EPrint (LogFound (length (r :: data)))
        :: events (for_rows cfg ord (r :: data) PNone (set_queries qs m)))
       ++ [EPrint (LogPollingError e); ESleep 10]) = [last_polled_time m]) as Hraise.
  { intros e.
    change (queries_made ((query_event m :: EPrint ?l :: ?evs) ++ ?evs'))
      with (last_polled_time m :: queries_made (evs ++ evs')).
    unfold queries_made in *. by rewrite omap_app, Hq. }
  destruct (outcome (for_rows cfg ord (r :: data) PNone (set_queries qs m)));
    cbn [outcome events final]; [|apply Hraise].
  destruct (settle_outcome _ _) as [[]|]; cbn [outcome events final]; [|apply Hraise].
  change (queries_made (query_event m :: EPrint ?l :: ?evs))
    with (last_polled_time m :: queries_made evs).
  unfold queries_made in *. by rewrite omap_app, Hq.
Qed.

(** The loop of cycles goes on whatever the environment answers: [n]
    iterations return and have made [n] queries. *)
Lemma poll_loop_goes_on (n : nat) (m : machine) :
  outcome (poll_loop cfg ord n m) = Ret tt ∧
  length (queries_made (events (poll_loop cfg ord n m))) = n.
Proof.
  revert m. induction n as [|n IH]; intros m; [done|].
  cbn [poll_loop]. rewrite run_bind, poll_cycle_returns.
  cbn [outcome events final].
  destruct (IH (final (poll_cycle cfg ord m))) as [-> Hn].
  split; [done|].
  unfold queries_made in *. rewrite omap_app, length_app.
  fold (queries_made (events (poll_cycle cfg ord m))).
  rewrite queries_made_poll_cycle. cbn. by rewrite Hn.
Qed.

(** When one of the two steps after the loop raises, it is its write that
    did not complete. *)
Lemma settle_raise (t : pyval) (m : machine) (e : exn) :
  settle_outcome t m = Raise e →
  e = OSError ∧
  ((Py.truthy t = true ∧ next_write m ≠ Written ∧
    settled ord t m = written (save_state_ops t) (set_last_polled_time t m)) ∨
   (advance_outcome t m = Ret tt ∧
    (1000 < size (processed_txs m))%nat ∧
    next_write (advance_cursor t m) ≠ Written ∧
    settled ord t m =
      written (save_processed_txs_ops ord (prune ord (processed_txs m)))
        (set_processed_txs (prune ord (processed_txs m)) (advance_cursor t m)))).
Proof.
  unfold settle_outcome, settled.
  destruct (advance_outcome t m) as [[]|e'] eqn:Hadv.
  - unfold cleanup_outcome, cleanup. rewrite advance_cursor_processed.
    destruct (Nat.ltb_spec 1000 (size (processed_txs m))) as [Hbig|]; [|done].
    intros [-> Hw]%write_outcome_Raise. split; [done|]. right. done.
  - intros [= <-]. revert Hadv. unfold advance_outcome, advance_cursor.
    destruct (Py.truthy t); [|done].
    intros [-> Hw]%write_outcome_Raise. split; [done|]. by left.
Qed.

(** C7 as the spec states it fails.  The processed file names one
    identifier; the query returns a new row, the send is accepted, and
    the write of the set fails after the file has been opened.  The
    exception is caught at the cycle boundary, but the failing step has
    truncated the file: nothing is loaded from it any more, so the
    persisted set is not as it was before the failing step. *)
Lemma C7_failed_write_tears_the_set :
  outcome (cycle_body demo_cfg trie_order torn_machine) = Raise OSError ∧
  load_processed_txs (fs torn_machine) = {[PStr "0x51"]} ∧
  ¬ (load_processed_txs (fs (final (poll_cycle demo_cfg trie_order torn_machine)))
       = load_processed_txs (fs torn_machine)).
Proof.
  assert (load_processed_txs (fs torn_machine) = {[PStr "0x51"]}) as Hbefore.
  { apply load_processed_txs_save. }
  split; [vm_compute; reflexivity|]. split; [exact Hbefore|].
  rewrite Hbefore.
  assert (load_processed_txs (fs (final (poll_cycle demo_cfg trie_order torn_machine))) = ∅)
    as ->.
  { vm_compute. reflexivity. }
  intros H. apply (f_equal size) in H. by rewrite size_empty, size_singleton in H.
Qed.

(** C7, amended.  An exception that escapes the body of a cycle is caught
    at the cycle boundary: the cycle prints it, sleeps the 10 seconds of
    every cycle and returns, leaving the machine as the body left it:
    nothing is rolled back and nothing else is changed.

    When the exception is not that of a write: the cursor, in memory and
    on file, is the one the cycle began with, and the processed set and
    the files are as they were at the failing step.  When it was the
    query that failed they are those the cycle began with.  When it was
    a row of the answer, the rows before it had been handled to the end,
    and either the send of the row raised, which leaves the set and the
    files as those rows left them, or the row had been sent and marked
    and the comparison of its creation time raised, which leaves the set
    and its file with that row added.

    When the exception is that of a write that did not complete, what is
    in memory had been assigned before the write, and the file is as far
    as the write went: unchanged when it could not be opened, truncated
    when the dump failed.  It was the write of the set after a row was
    sent (the set in memory holds the row, the cursor is the one the
    cycle began with), or the write of the cursor after the loop (the
    cursor in memory is the new one), or the write of the pruned set (the
    set in memory is the pruned one).

    The loop goes on in every case: any number [n] of iterations returns,
    having made [n] queries. *)
Theorem C7_exception_aborts_the_cycle_only (m : machine) (e : exn) :
  outcome (cycle_body cfg ord m) = Raise e →
  outcome (poll_cycle cfg ord m) = Ret tt ∧
  events (poll_cycle cfg ord m) =
    events (cycle_body cfg ord m) ++ [EPrint (LogPollingError e); ESleep 10] ∧
  final (poll_cycle cfg ord m) = final (cycle_body cfg ord m) ∧
  (e ≠ OSError →
   last_polled_time (final (poll_cycle cfg ord m)) = last_polled_time m ∧
   fs (final (poll_cycle cfg ord m)) !! STATE_FILE = fs m !! STATE_FILE ∧
   (((∀ data qs, queries m ≠ QueryData data :: qs) ∧
     processed_txs (final (poll_cycle cfg ord m)) = processed_txs m ∧
     fs (final (poll_cycle cfg ord m)) = fs m) ∨
    (∃ data qs pre r post t_pre,
       queries m = QueryData data :: qs ∧
       data = pre ++ r :: post ∧
       outcome (for_rows cfg ord pre PNone (set_queries qs m)) = Ret t_pre ∧
       (tx_hash_of r ∉
          processed_txs (final (for_rows cfg ord pre PNone (set_queries qs m)))) ∧
       ((processed_txs (final (poll_cycle cfg ord m)) =
           processed_txs (final (for_rows cfg ord pre PNone (set_queries qs m))) ∧
         fs (final (poll_cycle cfg ord m)) =
           fs (final (for_rows cfg ord pre PNone (set_queries qs m)))) ∨
        (next_max_time (created_at_of r) t_pre = Raise e ∧
         processed_txs (final (poll_cycle cfg ord m)) =
           {[tx_hash_of r]} ∪
           processed_txs (final (for_rows cfg ord pre PNone (set_queries qs m))) ∧
         fs (final (poll_cycle cfg ord m)) =
           save_processed_txs ord
             ({[tx_hash_of r]} ∪
              processed_txs (final (for_rows cfg ord pre PNone (set_queries qs m))))
             (fs (final (for_rows cfg ord pre PNone (set_queries qs m))))))))) ∧
  (e = OSError →
   ∃ data qs,
     queries m = QueryData data :: qs ∧
     ((∃ pre r post t_pre,
         data = pre ++ r :: post ∧
         outcome (for_rows cfg ord pre PNone (set_queries qs m)) = Ret t_pre ∧
         (tx_hash_of r ∉
            processed_txs (final (for_rows cfg ord pre PNone (set_queries qs m)))) ∧
         next_write (final (for_rows cfg ord pre PNone (set_queries qs m))) ≠ Written ∧
         last_polled_time (final (poll_cycle cfg ord m)) = last_polled_time m ∧
         fs (final (poll_cycle cfg ord m)) !! STATE_FILE = fs m !! STATE_FILE ∧
         processed_txs (final (poll_cycle cfg ord m)) =
           {[tx_hash_of r]} ∪
           processed_txs (final (for_rows cfg ord pre PNone (set_queries qs m))) ∧
         fs (final (poll_cycle cfg ord m)) =
           files_after (next_write (final (for_rows cfg ord pre PNone (set_queries qs m))))
             (save_processed_txs_ops ord
                ({[tx_hash_of r]} ∪
                 processed_txs (final (for_rows cfg ord pre PNone (set_queries qs m)))))
             (fs (final (for_rows cfg ord pre PNone (set_queries qs m))))) ∨
      (∃ t,
         outcome (for_rows cfg ord data PNone (set_queries qs m)) = Ret t ∧
         Py.truthy t = true ∧
         next_write (final (for_rows cfg ord data PNone (set_queries qs m))) ≠ Written ∧
         last_polled_time (final (poll_cycle cfg ord m)) = t ∧
         processed_txs (final (poll_cycle cfg ord m)) =
           processed_txs (final (for_rows cfg ord data PNone (set_queries qs m))) ∧
         fs (final (poll_cycle cfg ord m)) =
           files_after (next_write (final (for_rows cfg ord data PNone (set_queries qs m))))
             (save_state_ops t)
             (fs (final (for_rows cfg ord data PNone (set_queries qs m))))) ∨
      (∃ t,
         outcome (for_rows cfg ord data PNone (set_queries qs m)) = Ret t ∧
         advance_outcome t (final (for_rows cfg ord data PNone (set_queries qs m))) = Ret tt ∧
         (1000 < size (processed_txs
                         (final (for_rows cfg ord data PNone (set_queries qs m)))))%nat ∧
         next_write (advance_cursor t
                       (final (for_rows cfg ord data PNone (set_queries qs m)))) ≠ Written ∧
         last_polled_time (final (poll_cycle cfg ord m)) =
           last_polled_time (advance_cursor t
                               (final (for_rows cfg ord data PNone (set_queries qs m)))) ∧
         processed_txs (final (poll_cycle cfg ord m)) =
           prune ord (processed_txs
                        (final (for_rows cfg ord data PNone (set_queries qs m)))) ∧
         fs (final (poll_cycle cfg ord m)) =
           files_after
             (next_write (advance_cursor t
                            (final (for_rows cfg ord data PNone (set_queries qs m)))))
             (save_processed_txs_ops ord
                (prune ord (processed_txs
                              (final (for_rows cfg ord data PNone (set_queries qs m))))))
             (fs (advance_cursor t
                    (final (for_rows cfg ord data PNone (set_queries qs m)))))))) ∧
  (∀ n m0, outcome (poll_loop cfg ord n m0) = Ret tt ∧
           length (queries_made (events (poll_loop cfg ord n m0))) = n).
Proof.
  intros Hraise. rewrite poll_cycle_run, Hraise. cbn [outcome events final].
  split; [done|]. split; [done|]. split; [done|].
  split; [|split; [|apply poll_loop_goes_on]]; revert Hraise; rewrite cycle_body_run;
    destruct (queries m) as [|[[|r0 data0]|] qs] eqn:Hq; cbn zeta;
    try done; try (by intros [= <-]);
    try (intros _ _; repeat split; left; by repeat split).
  - set (data := r0 :: data0). set (m1 := set_queries qs m).
    pose proof (for_rows_loop cfg ord data PNone m1) as Hloop.
    pose proof (loop_frame _ _ _ _ _ _ _ _ Hloop) as (Hcur & Hfile & _).
    destruct (outcome (for_rows cfg ord data PNone m1)) as [t|e'] eqn:Hout;
      cbn [outcome events final].
    { destruct (settle_outcome t _) as [[]|e'] eqn:Hset; [done|].
      intros [= ->] Hne. by destruct (settle_raise _ _ _ Hset). }
    intros [= ->] Hne.
    repeat split; [done|done|]. right.
    destruct (loop_raise _ _ _ _ _ _ _ _ Hloop)
      as (pre & r & post & t_pre & Hdata & Hpre & Hfresh & Hend).
    exists data, qs, pre, r, post, t_pre. repeat split; [done..|].
    destruct Hend as [(_ & Hend)|[(-> & _)|(_ & Hend)]]; [by left|done|by right].
  - set (data := r0 :: data0). set (m1 := set_queries qs m).
    pose proof (for_rows_loop cfg ord data PNone m1) as Hloop.
    pose proof (loop_frame _ _ _ _ _ _ _ _ Hloop) as (Hcur & Hfile & _).
    exists data, qs. split; [done|].
    destruct (outcome (for_rows cfg ord data PNone m1)) as [t|e'] eqn:Hout;
      cbn [outcome events final] in *.
    + destruct (settle_outcome t _) as [[]|e'] eqn:Hset; [done|].
      cbn [final]. right.
      destruct (settle_raise _ _ _ Hset) as [_ [(Ht & Hw & ->)|(Hadv & Hbig & Hw & ->)]].
      * left. exists t. by repeat split.
      * right. exists t. split; [done|]. split; [done|]. split; [done|]. split; [done|].
        split; [done|]. split; [done|]. unfold written. cbn [fs set_fs set_writes].
        done.
    + injection Hraise as ->. subst e. left.
      destruct (loop_raise _ _ _ _ _ _ _ _ Hloop)
        as (pre & r & post & t_pre & Hdata & Hpre & Hfresh & Hend).
      exists pre, r, post, t_pre. split; [done|]. split; [done|]. split; [done|].
      destruct Hend as [(Hne & _)|[(_ & Hw & Hset & Hfs)|(Hne & _)]]; [done| |done].
      by repeat split.
Qed.

End Errors.

(** ** Rate limiting *)


(** A 429 answer whose body gives a wait: the rest is a nested call with
    that wait, when the interpreter allows one more. *)
Lemma send_429 (cfg : config) (depth : nat) (r : row) h url p error_data ra text rest :
  build_request cfg r = Ret (h, url, p) →
  retry_after_of error_data = Ret ra →
  send_telegram_notification cfg (S depth) r (JVal (PInt 0))
      (HttpResponse 429 (Some error_data) text :: rest) =
    match send_telegram_notification cfg depth r ra rest with
    | (evs, unread, Ret _) => (EPost url p :: evs, unread, Ret tt)
    | (evs, unread, Raise e) =>
        (EPost url p :: evs ++ [EPrint (LogException e)], unread, Ret tt)
    end.
Proof.
  intros Hb Hra. cbn [send_telegram_notification positive_wait Z.ltb Z.compare].
  rewrite Hb. cbn [Z.eqb Pos.eqb waited app]. rewrite Hra.
  by destruct (send_telegram_notification cfg depth r ra rest) as [[evs unread] [[]|e]].
Qed.



Lemma send_429_raises (cfg : config) (depth : nat) (r : row) h url p error_data e text rest :
  build_request cfg r = Ret (h, url, p) →
  retry_after_of error_data = Raise e →
  send_telegram_notification cfg depth r (JVal (PInt 0))
      (HttpResponse 429 (Some error_data) text :: rest) =
    ([EPost url p; EPrint (LogException e)], rest, Ret tt).
Proof.
  intros Hb Hra.
  destruct depth; cbn [send_telegram_notification positive_wait Z.ltb Z.compare];
    rewrite Hb; cbn [Z.eqb Pos.eqb waited app]; by rewrite Hra.
Qed.


Lemma send_retried_at_once (cfg : config) (depth : nat) (r : row)
    h url p error_data n text rest :
  build_request cfg r = Ret (h, url, p) →
  retry_after_of error_data = Ret (JVal (PInt n)) →
  n ≤ 0 →
  send_telegram_notification cfg (S depth) r (JVal (PInt 0))
      (HttpResponse 429 (Some error_data) text :: rest) =
    match send_telegram_notification cfg depth r (JVal (PInt 0)) rest with
    | (evs, unread, _) => (EPost url p :: evs, unread, Ret tt)
    end.
Proof.
  intros Hb Hra Hn. rewrite (send_429 _ _ _ _ _ _ _ _ _ _ Hb Hra).
  assert (send_telegram_notification cfg depth r (JVal (PInt n)) rest
          = send_telegram_notification cfg depth r (JVal (PInt 0)) rest) as ->.
  { assert (positive_wait (JVal (PInt n)) = positive_wait (JVal (PInt 0))) as Hw.
    { cbn. by destruct (Z.ltb_spec 0 n); [lia|]. }
    destruct depth, rest; cbn [send_telegram_notification]; by rewrite Hw. }
  pose proof (send_returns cfg depth r (JVal (PInt 0)) None rest _ eq_refl Hb) as Hret.
  destruct (send_telegram_notification cfg depth r (JVal (PInt 0)) rest)
    as [[evs unread] [[]|e]]; done.
Qed.

Lemma send_bad_retry_after (cfg : config) (depth : nat) (r : row)
    h url p error_data v text rest :
  build_request cfg r = Ret (h, url, p) →
  retry_after_of error_data = Ret v →
  (∀ n, v ≠ JVal (PInt n)) →
  send_telegram_notification cfg (S depth) r (JVal (PInt 0))
      (HttpResponse 429 (Some error_data) text :: rest) =
    ([EPost url p; EPrint (LogException TypeError)], rest, Ret tt).
Proof.
  intros Hb Hra Hv. rewrite (send_429 _ _ _ _ _ _ _ _ _ _ Hb Hra).
  rewrite (send_bad_wait cfg depth r v rest TypeError); [done|].
  destruct v as [[| n |]| |]; try done. by destruct (Hv n).
Qed.

Lemma send_ok (cfg : config) (depth : nat) (r : row) h url p body text rest :
  build_request cfg r = Ret (h, url, p) →
  send_telegram_notification cfg depth r (JVal (PInt 0))
      (HttpResponse 200 body text :: rest) =
    ([EPost url p; EPrint (LogSent h)], rest, Ret tt).
Proof.
  intros Hb. destruct depth; cbn [send_telegram_notification positive_wait Z.ltb Z.compare];
    by rewrite Hb.
Qed.



(** ** Pruning *)

Section Prune.

Context (ord : set_order).

Lemma set_iter_NoDup (s : gset pyval) : NoDup (set_iter ord s).
Proof. rewrite (set_iter_perm ord s). apply NoDup_elements. Qed.

Lemma set_iter_length (s : gset pyval) : length (set_iter ord s) = size s.
Proof. by rewrite (set_iter_perm ord s). Qed.

(** What pruning keeps are members of the set, 500 of them when the set
    has that many. *)
Lemma prune_subseteq (s : gset pyval) : prune ord s ⊆ s.
Proof.
  unfold prune, last_items. intros x Hx%elem_of_list_to_set.
  rewrite <- (list_to_set_set_iter ord s). apply elem_of_list_to_set.
  by eapply subseteq_drop.
Qed.

Lemma prune_size (s : gset pyval) :
  (500 ≤ size s)%nat → size (prune ord s) = 500%nat.
Proof.
  intros Hs. unfold prune, last_items.
  rewrite size_list_to_set.
  - rewrite length_drop, set_iter_length. lia.
  - eapply sublist_NoDup; [apply set_iter_NoDup|apply sublist_drop].
Qed.

(** The check at the end of a cycle, when the set is above 1000. *)
Lemma cleanup_large (m : machine) :
  (1000 < size (processed_txs m))%nat →
  cleanup ord m =
    written (save_processed_txs_ops ord (prune ord (processed_txs m)))
      (set_processed_txs (prune ord (processed_txs m)) m).
Proof.
  intros H. unfold cleanup. by rewrite (proj2 (Nat.ltb_lt _ _) H).
Qed.

(** C3 fails on the code.  The set has no order of insertion, and
    [list(processed_txs)[-500:]] takes the last 500 in the order in which
    the set happens to be listed.  Whatever that order is: when the set
    holds more than 1000 identifiers at the check that ends a cycle, and
    they were inserted in the reverse of it, the check leaves exactly 500
    identifiers in the set, they are the 500 inserted first, and none of
    the 500 inserted last survives. *)
Theorem C3_prune_keeps_the_oldest (m : machine) :
  (1000 < size (processed_txs m))%nat →
  let inserted := reverse (set_iter ord (processed_txs m)) in
  NoDup inserted ∧
  list_to_set inserted = processed_txs m ∧
  size (processed_txs (cleanup ord m)) = 500%nat ∧
  processed_txs (cleanup ord m) = list_to_set (take 500 inserted) ∧
  processed_txs (cleanup ord m) ## most_recent 500 inserted.
Proof.
  intros Hs inserted. subst inserted.
  rewrite cleanup_large by done.
  cbn [processed_txs written set_fs set_writes set_processed_txs].
  set (s := processed_txs m) in *.
  pose proof (set_iter_NoDup s) as Hnd.
  pose proof (set_iter_length s) as Hlen.
  split; [by rewrite reverse_Permutation|].
  split; [by rewrite (list_to_set_perm_L _ _ (reverse_Permutation _)),
                     list_to_set_set_iter|].
  split; [apply prune_size; lia|].
  unfold prune, most_recent, last_items.
  rewrite take_reverse, drop_reverse, length_reverse.
  rewrite !(list_to_set_perm_L _ _ (reverse_Permutation _)).
  split; [done|].
  replace (length (set_iter ord s) - (length (set_iter ord s) - 500))%nat
    with 500%nat by lia.
  intros x Hlast%elem_of_list_to_set Hfirst%elem_of_list_to_set.
  rewrite <- (take_drop (length (set_iter ord s) - 500) (set_iter ord s)) in Hnd.
  apply NoDup_app in Hnd as (_ & Hdisj & _).
  apply (Hdisj x); [|done].
  replace 500%nat with (min 500 (length (set_iter ord s) - 500)) in Hfirst by lia.
  rewrite <- take_take in Hfirst. by eapply subseteq_take.
Qed.

End Prune.

(** ** Rows with no identifier *)

Lemma anonymous_tx_hash (r : row) : anonymous r → tx_hash_of r = PStr "".
Proof. unfold anonymous, tx_hash_of, row_get. by intros ->. Qed.

Section Anonymous.

Context (cfg : config) (ord : set_order).

(** A cycle whose answer is one fresh row that is accepted at once. *)
Lemma poll_cycle_one_row m r qs body text rs h url p t :
  reliable m →
  queries m = QueryData [r] :: qs →
  tx_hash_of r ∉ processed_txs m →
  responses m = HttpResponse 200 body text :: rs →
  build_request cfg r = Ret (h, url, p) →
  next_max_time (created_at_of r) PNone = Ret t →
  poll_cycle cfg ord m =
    Ran [query_event m; EPrint (LogFound 1); ESleep 3; ESend r; EPost url p;
         EPrint (LogSent h); ESleep 10]
        (cleanup ord (advance_cursor t
           (mark_processed ord (tx_hash_of r) (set_responses rs (set_queries qs m)))))
        (Ret tt).
Proof.
  intros Hrel Hq Hfresh Hrs Hb Hnext.
  rewrite poll_cycle_run, cycle_body_run, Hq. cbn zeta.
  rewrite for_rows_cons, run_bind, process_row_fresh by done.
  cbn [responses set_queries]. rewrite Hrs, (send_ok _ _ _ _ _ _ _ _ _ Hb).
  change (next_write (set_queries qs m)) with (next_write m).
  rewrite (reliable_next_write m Hrel), Hnext. cbn [write_outcome outcome events final].
  set (m1 := mark_processed _ _ _).
  assert (reliable m1) as Hrel1 by by apply reliable_written.
  destruct (settled_fields ord t m1) as (_ & _ & _ & _ & Hsettle).
  destruct (Hsettle Hrel1) as [_ Hret].
  cbn [for_rows]. rewrite run_ret. cbn [outcome events final].
  rewrite Hret. destruct (settled_Ret ord t m1 Hret) as (-> & _).
  done.
Qed.

(** In one cycle no two rows sent are both without identifier. *)
Lemma poll_cycle_one_anonymous (m : machine) (i j : nat) (r1 r2 : row) :
  sent_rows (events (poll_cycle cfg ord m)) !! i = Some r1 →
  sent_rows (events (poll_cycle cfg ord m)) !! j = Some r2 →
  anonymous r1 → anonymous r2 → i = j.
Proof.
  rewrite sent_rows_poll_cycle.
  destruct (queries m) as [|[data|] qs]; [done| |done].
  pose proof (loop_sent_nodup _ _ _ _ _ _ _ _
    (for_rows_loop cfg ord data PNone (set_queries qs m))) as Hnd.
  intros H1 H2 Ha1%anonymous_tx_hash Ha2%anonymous_tx_hash.
  eapply NoDup_lookup; [exact Hnd| |].
  - rewrite list_lookup_fmap, H1. cbn. by rewrite Ha1.
  - rewrite list_lookup_fmap, H2. cbn. by rewrite Ha2.
Qed.

(** A cycle that cannot bring the set above 1000 identifiers drops
    none, and sends no row whose identifier it began with. *)
Lemma poll_cycle_keeps (m : machine) :
  (size (processed_txs m) + rows_to_come 1 (queries m) ≤ 1000)%nat →
  processed_txs m ⊆ processed_txs (final (poll_cycle cfg ord m)) ∧
  (size (processed_txs (final (poll_cycle cfg ord m)))
     ≤ size (processed_txs m) + rows_to_come 1 (queries m))%nat ∧
  queries (final (poll_cycle cfg ord m)) = tail (queries m) ∧
  (∀ r, r ∈ sent_rows (events (poll_cycle cfg ord m)) →
        tx_hash_of r ∉ processed_txs m).
Proof.
  rewrite sent_rows_poll_cycle, poll_cycle_final, cycle_body_run.
  destruct (queries m) as [|[[|r0 data0]|] qs] eqn:Hq;
    cbn [rows_to_come final processed_txs queries set_queries tail];
    intros Hsize.
  1, 2, 4: by split; [|split; [lia|split; [|cbn; intros r ?%elem_of_nil]]].
  set (data := r0 :: data0) in *. cbn zeta.
  pose proof (for_rows_loop cfg ord data PNone (set_queries qs m)) as Hloop.
  destruct (loop_processed _ _ _ _ _ _ _ _ Hloop) as (Hsub & _ & _).
  pose proof (loop_size _ _ _ _ _ _ _ _ Hloop) as Hsz.
  destruct (loop_frame _ _ _ _ _ _ _ _ Hloop) as (_ & _ & Hqs).
  pose proof (loop_sent_fresh _ _ _ _ _ _ _ _ Hloop) as Hsent.
  cbn [processed_txs set_queries queries] in *.
  assert (∀ r, r ∈ sent_rows (events (for_rows cfg ord data PNone (set_queries qs m))) →
               tx_hash_of r ∉ processed_txs m) as Hfresh.
  { intros r Hr. by destruct (Hsent r Hr). }
  destruct (outcome (for_rows cfg ord data PNone (set_queries qs m))) as [t|e];
    cbn [outcome events final]; [|repeat split; [done|lia|done|done]].
  destruct (settled_fields ord t (final (for_rows cfg ord data PNone (set_queries qs m))))
    as (Hqs' & _ & _ & Hsmall & _).
  assert (final
    match settle_outcome t (final (for_rows cfg ord data PNone (set_queries qs m))) with
    | Ret _ =>
        Ran (query_event m :: EPrint (LogFound (length data))
               :: events (for_rows cfg ord data PNone (set_queries qs m)) ++ [ESleep 10])
            (settled ord t (final (for_rows cfg ord data PNone (set_queries qs m)))) (Ret tt)
    | Raise e =>
        Ran (query_event m :: EPrint (LogFound (length data))
               :: events (for_rows cfg ord data PNone (set_queries qs m)))
            (settled ord t (final (for_rows cfg ord data PNone (set_queries qs m))))
            (Raise e)
    end = settled ord t (final (for_rows cfg ord data PNone (set_queries qs m)))) as ->
    by by destruct (settle_outcome _ _) as [[]|].
  rewrite Hqs', Hsmall by lia. repeat split; done || lia.
Qed.

(** So for as long as the set cannot exceed 1000 identifiers, every
    identifier in it stays in it and no row with such an identifier is
    sent. *)
Lemma poll_loop_keeps (n : nat) (m : machine) (h : pyval) :
  (size (processed_txs m) + rows_to_come n (queries m) ≤ 1000)%nat →
  h ∈ processed_txs m →
  h ∈ processed_txs (final (poll_loop cfg ord n m)) ∧
  (∀ r, r ∈ sent_rows (events (poll_loop cfg ord n m)) → tx_hash_of r ≠ h).
Proof.
  revert m. induction n as [|n IH]; intros m Hsize Hin.
  { split; [done|]. by intros r ?%elem_of_nil. }
  cbn [poll_loop]. rewrite run_bind, poll_cycle_returns. cbn [outcome events final].
  assert (size (processed_txs m) + rows_to_come 1 (queries m) ≤ 1000
          ∧ rows_to_come (S n) (queries m)
            = rows_to_come 1 (queries m) + rows_to_come n (tail (queries m)))%nat
    as [Hone Hsplit].
  { destruct (queries m) as [|[data|] qs]; cbn [rows_to_come tail] in *;
      destruct n; cbn [rows_to_come] in *; lia. }
  destruct (poll_cycle_keeps m Hone) as (Hsub & Hsz & Hqs & Hfresh).
  destruct (IH (final (poll_cycle cfg ord m))) as [Hin' Hsent'].
  { rewrite Hqs. lia. }
  { by apply Hsub. }
  split; [done|].
  intros r. rewrite sent_rows_app. intros [Hr|Hr]%elem_of_app.
  - intros <-. by apply (Hfresh r Hr).
  - by apply Hsent'.
Qed.

End Anonymous.

(** ** The earlier identifiers, and the empty one under pruning *)

Lemma earlier_ids_NoDup (n : nat) : NoDup (earlier_ids n).
Proof.
  unfold earlier_ids. apply NoDup_fmap_2_strong; [|apply NoDup_seq].
  intros i j _ _ [= H]. apply pretty_Z_inj in H. lia.
Qed.

Lemma earlier_ids_size (n : nat) :
  size (list_to_set (earlier_ids n) : gset pyval) = n.
Proof.
  rewrite size_list_to_set by apply earlier_ids_NoDup.
  unfold earlier_ids. by rewrite length_fmap, length_seq.
Qed.

Lemma earlier_ids_not_empty (n : nat) :
  PStr "" ∉ (list_to_set (earlier_ids n) : gset pyval).
Proof.
  rewrite elem_of_list_to_set. unfold earlier_ids.
  by intros (i & Heq & _)%list_elem_of_fmap.
Qed.

(** Listed first, the empty identifier is pruned although it came last. *)
Lemma prune_empty_first (big : gset pyval) :
  PStr "" ∉ big → (500 ≤ size big)%nat →
  PStr "" ∉ prune empty_first_order ({[PStr ""]} ∪ big).
Proof.
  intros Hnot Hsize. unfold prune, last_items.
  change (set_iter empty_first_order ?s) with (empty_first s).
  unfold empty_first. rewrite decide_True by set_solver.
  replace (({[PStr ""]} ∪ big) ∖ {[PStr ""]}) with big by set_solver.
  cbn [length].
  replace (S (length (elements big)) - 500)%nat
    with (S (length (elements big) - 500)) by (change (length (elements big)) with (size big); lia).
  cbn [drop]. rewrite elem_of_list_to_set.
  intros Hin%subseteq_drop. by apply elem_of_elements in Hin.
Qed.


(** With 1000 earlier identifiers in the set, two cycles that each get a
    row without identifier send it both times. *)
Lemma anonymous_row_sent_twice (big : gset pyval) :
  PStr "" ∉ big → size big = 1000%nat →
  sent_rows (events (poll_loop demo_cfg empty_first_order 2
    (demo_machine big [QueryData [anonymous_row]; QueryData [anonymous_row]]
                  [ok_response; ok_response])))
  = [anonymous_row; anonymous_row].
Proof.
  intros Hnot Hsize.
  assert (∃ h url p, build_request demo_cfg anonymous_row = Ret (h, url, p))
    as (h & url & p & Hb) by (vm_compute; eauto).
  assert (next_max_time (created_at_of anonymous_row) PNone
          = Ret (PStr "2024-05-01T10:00:09+00:00")) as Hnext by done.
  assert (tx_hash_of anonymous_row = PStr "") as Hid by done.
  assert (∀ m, writes m = [] → reliable m) as Hreliable.
  { intros m Hm w. rewrite Hm. by intros ?%elem_of_nil. }
  cbn [poll_loop]. rewrite run_bind, poll_cycle_returns.
  erewrite (poll_cycle_one_row demo_cfg empty_first_order (demo_machine big _ _));
    [|by apply Hreliable|done|by rewrite Hid|done|exact Hb|exact Hnext].
  cbn [outcome events final]. rewrite run_bind, poll_cycle_returns.
  rewrite Hid. unfold advance_cursor. cbn [Py.truthy String.eqb negb].
  rewrite (cleanup_large empty_first_order); cycle 1.
  { cbn [processed_txs mark_processed written set_fs set_writes set_processed_txs
         set_responses set_queries set_last_polled_time demo_machine].
    rewrite size_union by set_solver. rewrite size_singleton. lia. }
  cbn [processed_txs mark_processed written set_fs set_writes set_processed_txs
       set_responses set_queries set_last_polled_time demo_machine].
  erewrite (poll_cycle_one_row demo_cfg empty_first_order);
    [|by apply Hreliable
     |done|rewrite Hid; cbn [processed_txs]; apply prune_empty_first; [done|lia]
     |done|exact Hb|exact Hnext].
  done.
Qed.

(** C10 as stated fails for later cycles: the empty identifier does not
    stay in the set for good.  Here the set holds 1000 earlier
    identifiers; a row without identifier is sent and brings it to 1001,
    the pruning at the end of that cycle drops the empty identifier, and
    the row without identifier of the next cycle is sent as well. *)
Lemma C10_anonymous_row_sent_again_after_pruning :
  ¬ (∀ (cfg : config) (ord : set_order) (n : nat) (m : machine)
       (i j : nat) (r1 r2 : row),
       sent_rows (events (poll_loop cfg ord n m)) !! i = Some r1 →
       sent_rows (events (poll_loop cfg ord n m)) !! j = Some r2 →
       anonymous r1 → anonymous r2 → i = j).
Proof.
  intros H.
  specialize (H demo_cfg empty_first_order 2%nat
    (demo_machine (list_to_set (earlier_ids 1000))
       [QueryData [anonymous_row]; QueryData [anonymous_row]]
       [ok_response; ok_response])
    0%nat 1%nat anonymous_row anonymous_row).
  rewrite anonymous_row_sent_twice in H
    by (apply earlier_ids_not_empty || apply earlier_ids_size).
  by specialize (H eq_refl eq_refl eq_refl eq_refl).
Qed.

Section AnonymousRows.

Context (cfg : config) (ord : set_order).

(** C10, amended.  A row with no [tx_hash] column is filed under the
    empty string, which is in the processed set once the send of the
    row has returned.  In one cycle at most one such row is sent.  In
    later cycles no such row is sent for as long as the empty string
    stays in the set, and it stays for as long as the set cannot grow
    above 1000 identifiers, the size at which pruning sets in. *)
Theorem C10_anonymous_rows_share_the_empty_identifier :
  (∀ r, anonymous r → tx_hash_of r = PStr "") ∧
  (∀ r t t' m, anonymous r →
     outcome (process_row cfg ord r t m) = Ret t' →
     PStr "" ∈ processed_txs (final (process_row cfg ord r t m))) ∧
  (∀ m i j r1 r2,
     sent_rows (events (poll_cycle cfg ord m)) !! i = Some r1 →
     sent_rows (events (poll_cycle cfg ord m)) !! j = Some r2 →
     anonymous r1 → anonymous r2 → i = j) ∧
  (∀ n m,
     PStr "" ∈ processed_txs m →
     (size (processed_txs m) + rows_to_come n (queries m) ≤ 1000)%nat →
     PStr "" ∈ processed_txs (final (poll_loop cfg ord n m)) ∧
     ∀ r, r ∈ sent_rows (events (poll_loop cfg ord n m)) → ¬ anonymous r).
Proof.
  split; [exact anonymous_tx_hash|].
  split; [|split; [apply poll_cycle_one_anonymous|]].
  - intros r t t' m Ha%anonymous_tx_hash.
    destruct (decide (tx_hash_of r ∈ processed_txs m)) as [Hin|Hin].
    { rewrite process_row_skip by done. by rewrite <- Ha. }
    rewrite process_row_fresh by done.
    destruct (send_telegram_notification cfg (recursion_limit cfg) r (JVal (PInt 0))
                (responses m)) as [[evs unread] [[]|e]]; [|done].
    cbn [outcome final processed_txs mark_processed written set_fs set_writes
         set_processed_txs].
    intros _. rewrite Ha. set_solver.
  - intros n m Hin Hsize.
    destruct (poll_loop_keeps cfg ord n m (PStr "") Hsize Hin) as [Hkept Hsent].
    split; [done|]. intros r Hr Ha%anonymous_tx_hash. by apply (Hsent r Hr).
Qed.

End AnonymousRows.

(** ** The theorems at concrete inputs *)

Lemma C3_prune_keeps_the_oldest_witness :
  (1000 < size (processed_txs full_machine))%nat ∧
  size (processed_txs (cleanup trie_order full_machine)) = 500%nat ∧
  processed_txs (cleanup trie_order full_machine)
    ## most_recent 500 (reverse (set_iter trie_order (processed_txs full_machine))).
Proof.
  assert (1000 < size (processed_txs full_machine))%nat as H.
  { unfold full_machine, demo_machine, processed_txs.
    rewrite earlier_ids_size. lia. }
  split; [exact H|].
  destruct (C3_prune_keeps_the_oldest trie_order _ H) as (_ & _ & Hsize & _ & Hdisj).
  split; [exact Hsize|exact Hdisj].
Defined.

Lemma C1_startup_cursor_is_now_witness :
  next_write one_row_machine = Written ∧
  load_state (fs (final (poll_startup "2024-05-02T08:00:00+00:00" one_row_machine)))
    = JVal (PStr "2024-05-02T08:00:00+00:00") ∧
  head (queries_made (events (poll_supabase_for_transfers demo_cfg trie_order
                                "2024-05-02T08:00:00+00:00" 1 one_row_machine)))
    = Some (PStr "2024-05-02T08:00:00+00:00").
Proof.
  split; [reflexivity|].
  destruct (C1_startup_cursor_is_now demo_cfg trie_order "2024-05-02T08:00:00+00:00" 0
              one_row_machine) as (_ & _ & Hstarted & _).
  destruct (Hstarted eq_refl) as (_ & Hfile & Hquery).
  split; [exact Hfile|exact Hquery].
Defined.


Lemma C5_cursor_is_greatest_creation_time_witness :
  queries two_row_machine = [QueryData [demo_row; later_row]] ∧
  Forall timestamped [demo_row; later_row] ∧
  sent_rows (events (poll_cycle demo_cfg trie_order two_row_machine))
    = [demo_row; later_row] ∧
  chronological (ctimes [demo_row; later_row]) ∧
  last_polled_time (final (poll_cycle demo_cfg trie_order two_row_machine))
    = PStr "2024-05-01T10:00:09+00:00" ∧
  load_state (fs (final (poll_cycle demo_cfg trie_order two_row_machine)))
    = JVal (PStr "2024-05-01T10:00:09+00:00") ∧
  latest "2024-05-01T10:00:09+00:00" (ctimes [demo_row; later_row]).
Proof.
  assert (Forall timestamped [demo_row; later_row]) as Hts.
  { constructor; [|constructor; [|constructor]].
    - exists "2024-05-01T10:00:07+00:00". by split.
    - exists "2024-05-01T10:00:09+00:00". by split. }
  assert (sent_rows (events (poll_cycle demo_cfg trie_order two_row_machine))
          = [demo_row; later_row]) as Hsent by (vm_compute; reflexivity).
  assert (chronological (ctimes [demo_row; later_row])) as Hchron.
  { intros a b Ha%list_elem_of_In Hb%list_elem_of_In Hnot. cbn in Ha, Hb.
    destruct Ha as [<-|[<-|[]]], Hb as [<-|[<-|[]]];
      first [ exfalso; apply Hnot, compare_lex_lt; vm_compute; reflexivity
            | eexists _, _; split; [vm_compute; reflexivity|];
              split; [vm_compute; reflexivity|]; vm_compute; discriminate ]. }
  split; [reflexivity|]. split; [exact Hts|]. split; [exact Hsent|].
  split; [exact Hchron|].
  destruct (C5_cursor_is_greatest_creation_time demo_cfg trie_order two_row_machine
              [demo_row; later_row] [] eq_refl Hts) as [Hmax _].
  destruct Hmax as (t & _ & Hcursor & Hfile & Hlatest).
  - vm_compute. reflexivity.
  - rewrite Hsent. discriminate.
  - rewrite Hsent in Hlatest. specialize (Hlatest Hchron).
    assert (t = "2024-05-01T10:00:09+00:00") as ->.
    { vm_compute in Hcursor. by injection Hcursor. }
    split; [exact Hcursor|]. split; [exact Hfile|exact Hlatest].
Defined.

Lemma C6_processed_row_is_skipped_witness :
  outcome (for_rows demo_cfg trie_order [demo_row] PNone one_row_machine)
    = Ret (PStr "2024-05-01T10:00:07+00:00") ∧
  tx_hash_of demo_row
    ∈ processed_txs (final (for_rows demo_cfg trie_order [demo_row] PNone one_row_machine)) ∧
  events (for_rows demo_cfg trie_order ([demo_row] ++ demo_row :: []) PNone one_row_machine)
    = events (for_rows demo_cfg trie_order [demo_row] PNone one_row_machine)
      ++ EPrint (LogSkipping (tx_hash_of demo_row))
      :: events (for_rows demo_cfg trie_order [] (PStr "2024-05-01T10:00:07+00:00")
                   (final (for_rows demo_cfg trie_order [demo_row] PNone one_row_machine))).
Proof.
  assert (outcome (for_rows demo_cfg trie_order [demo_row] PNone one_row_machine)
          = Ret (PStr "2024-05-01T10:00:07+00:00")) as Hpre.
  { vm_compute. reflexivity. }
  assert (tx_hash_of demo_row
          ∈ processed_txs (final (for_rows demo_cfg trie_order [demo_row] PNone
                                    one_row_machine))) as Hin.
  { apply (bool_decide_unpack _). vm_compute. exact I. }
  split; [exact Hpre|]. split; [exact Hin|].
  destruct (C6_processed_row_is_skipped demo_cfg trie_order [demo_row] [] demo_row
              PNone _ one_row_machine Hpre Hin) as (_ & _ & Hevents & _).
  exact Hevents.
Defined.

Lemma C7_exception_aborts_the_cycle_only_witness :
  outcome (cycle_body demo_cfg trie_order torn_machine) = Raise OSError ∧
  outcome (poll_cycle demo_cfg trie_order torn_machine) = Ret tt ∧
  events (poll_cycle demo_cfg trie_order torn_machine)
    = events (cycle_body demo_cfg trie_order torn_machine)
      ++ [EPrint (LogPollingError OSError); ESleep 10] ∧
  last_polled_time (final (poll_cycle demo_cfg trie_order torn_machine))
    = last_polled_time torn_machine ∧
  processed_txs (final (poll_cycle demo_cfg trie_order torn_machine))
    = {[tx_hash_of demo_row]} ∪ processed_txs torn_machine ∧
  fs (final (poll_cycle demo_cfg trie_order torn_machine)) !! PROCESSED_TXS_FILE
    = Some Garbage.
Proof.
  assert (outcome (cycle_body demo_cfg trie_order torn_machine) = Raise OSError)
    as Hraise.
  { vm_compute. reflexivity. }
  split; [exact Hraise|].
  destruct (C7_exception_aborts_the_cycle_only demo_cfg trie_order torn_machine
              OSError Hraise) as (Hret & Hevents & _ & _ & Hwrite & _).
  split; [exact Hret|]. split; [exact Hevents|].
  destruct (Hwrite eq_refl) as (data & qs & Hq & Hcase).
  injection Hq as <- <-.
  destruct Hcase as [(pre & r & post & t_pre & Hdata & Hpre & _ & _ & Hcur & _ & Hset & Hfs)
                    |[(t & Hout & _)|(t & Hout & _)]].
  - destruct pre as [|r' pre]; [|by destruct pre].
    injection Hdata as <- <-.
    split; [exact Hcur|]. split; [exact Hset|].
    rewrite Hfs. reflexivity.
  - vm_compute in Hout. discriminate Hout.
  - vm_compute in Hout. discriminate Hout.
Defined.

(** * Further properties of the code *)

(** ** [escape_markdown], character by character *)

Lemma per_char_app (f : ascii → string) (a b : string) :
  per_char f (a +:+ b) = per_char f a +:+ per_char f b.
Proof.
  induction a as [|x a IH]; [done|].
  change (String x a +:+ b) with (String x (a +:+ b)).
  cbn [per_char]. by rewrite IH, string_app_assoc.
Qed.

Lemma escape_markdown_char (c : ascii) :
  escape_markdown (String c EmptyString)
    = backslashes (markers c) +:+ String c EmptyString.
Proof. destruct c as [[] [] [] [] [] [] [] []]; vm_compute; reflexivity. Qed.

Lemma escape_markdown_cons (c : ascii) (text : string) :
  escape_markdown (String c text)
    = (backslashes (markers c) +:+ String c EmptyString) +:+ escape_markdown text.
Proof.
  change (String c text) with (String c EmptyString +:+ text).
  by rewrite escape_markdown_app, escape_markdown_char.
Qed.

(** X1.  [escape_markdown] works character by character: each character
    is kept, in place, behind a number of backslashes that depends on the
    character alone: eight before [_] and [*], seven before a backslash,
    four before an opening bracket, two before each of [ ] ( ) ~ ` > # + ],
    one before each of [- = | { } . !] and none before any other. *)
Theorem escape_markdown_per_char (text : string) :
  escape_markdown text
    = per_char (fun c => backslashes (markers c) +:+ String c EmptyString) text.
Proof.
  induction text as [|c text IH]; [done|].
  rewrite escape_markdown_cons, IH. done.
Qed.

Lemma markers_mild (c : ascii) :
  mem_char c "_*[]()~`>#+\" = false →
  backslashes (markers c) +:+ String c EmptyString
    = if mem_char c markdown_v2_reserved
      then String backslash (String c EmptyString)
      else String c EmptyString.
Proof.
  destruct c as [[] [] [] [] [] [] [] []]; vm_compute; intros H;
    (discriminate H || reflexivity).
Qed.

Lemma markers_unreserved (c : ascii) :
  mem_char c reserved = false → markers c = 0%nat.
Proof.
  destruct c as [[] [] [] [] [] [] [] []]; vm_compute; intros H;
    (discriminate H || reflexivity).
Qed.

(** X2.  On a text that holds none of [_ * [ ] ( ) ~ ` > # +] and no
    backslash, [escape_markdown] is the escaping MarkdownV2 asks for: one
    backslash before each reserved character, nothing else changed. *)
Theorem escape_markdown_mild (text : string) :
  mild text → escape_markdown text = markdown_v2 text.
Proof.
  unfold mild, markdown_v2.
  induction text as [|c text IH]; intros Hmild; [done|].
  rewrite escape_markdown_cons. cbn [per_char]. rewrite markers_mild, IH; [done| |].
  - intros c' Hc'. apply Hmild. by right.
  - apply Hmild. by left.
Qed.

(** X3.  A text with no reserved character and no backslash comes out of
    [escape_markdown] unchanged. *)
Theorem escape_markdown_unreserved (text : string) :
  unreserved text → escape_markdown text = text.
Proof.
  unfold unreserved.
  induction text as [|c text IH]; intros Hun; [done|].
  rewrite escape_markdown_cons, markers_unreserved, IH; [done| |].
  - intros c' Hc'. apply Hun. by right.
  - apply Hun. by left.
Qed.

(** ** The two files *)

Lemma load_processed_txs_save_state (x : pyval) (fs : files) :
  load_processed_txs (save_state x fs) = load_processed_txs fs.
Proof.
  unfold load_processed_txs, save_state, save_state_ops, apply_ops.
  cbn. by rewrite !lookup_insert_ne.
Qed.

(** X4.  The cursor and the processed set are stored apart: writing one
    does not change what is loaded for the other, and the two writes can
    be done in either order. *)
Theorem stores_do_not_interfere
    (ord : set_order) (x : pyval) (s : gset pyval) (fs : files) :
  load_state (save_processed_txs ord s fs) = load_state fs ∧
  load_processed_txs (save_state x fs) = load_processed_txs fs ∧
  save_state x (save_processed_txs ord s fs)
    = save_processed_txs ord s (save_state x fs).
Proof.
  split; [apply load_state_save_processed_txs|].
  split; [apply load_processed_txs_save_state|].
  unfold save_state, save_processed_txs, save_state_ops, save_processed_txs_ops,
    apply_ops. cbn [fold_left apply_op].
  rewrite !insert_insert_eq.
  by rewrite insert_insert_ne.
Qed.

(** X5.  A write replaces what was written before: after two writes the
    files are as after the second alone, so what is loaded is the cursor
    and the set written last. *)
Theorem last_write_wins
    (ord : set_order) (x y : pyval) (s s' : gset pyval) (fs : files) :
  save_state y (save_state x fs) = save_state y fs ∧
  save_processed_txs ord s' (save_processed_txs ord s fs)
    = save_processed_txs ord s' fs ∧
  load_state (save_state y (save_state x fs)) = JVal y ∧
  load_processed_txs (save_processed_txs ord s' (save_processed_txs ord s fs)) = s'.
Proof.
  repeat split;
    try (unfold save_state, save_processed_txs, save_state_ops,
           save_processed_txs_ops, apply_ops; cbn [fold_left apply_op];
         by rewrite !insert_insert_eq).
  - apply load_state_save_state.
  - apply load_processed_txs_save.
Qed.

Lemma hashables_Some (items : list json) (l : list pyval) :
  hashables items = Some l ↔ items = JVal <$> l.
Proof.
  revert l. induction items as [|j items IH]; intros l.
  { split; [intros [= <-]|intros H%eq_sym%fmap_nil_inv]; [done|by subst]. }
  destruct j as [v| |]; cbn [hashables].
  - destruct (hashables items) as [l'|] eqn:Hh; cbn.
    + split.
      * intros [= <-]. cbn. f_equal. by apply IH.
      * destruct l as [|v' l]; [done|]. intros [= <- H]. f_equal. f_equal.
        apply IH in H. congruence.
    + split; [done|]. destruct l as [|v' l]; [done|]. intros [= <- H].
      apply IH in H. congruence.
  - split; [done|]. by destruct l.
  - split; [done|]. by destruct l.
Qed.

(** X6.  What is loaded from a processed file that holds a list: the set
    of the members when they are all scalars, each member once however
    often the list repeats it; and the empty set as soon as one member is
    itself a list or a dict, so that one such entry loses all the
    others. *)
Theorem load_processed_txs_list (fs : files) (items : list json) :
  fs !! PROCESSED_TXS_FILE = Some (Doc (JList items)) →
  (∀ l, items = JVal <$> l →
        load_processed_txs fs = list_to_set l ∧
        (size (load_processed_txs fs) ≤ length l)%nat) ∧
  ((∀ l, items ≠ JVal <$> l) → load_processed_txs fs = ∅).
Proof.
  intros Hfile. unfold load_processed_txs. rewrite Hfile. cbn [py_set]. split.
  - intros l Hl. rewrite (proj2 (hashables_Some items l) Hl). cbn. split; [done|].
    clear. induction l as [|v l IH]; [done|]. cbn [list_to_set length].
    rewrite size_union_alt, size_singleton.
    assert (size (list_to_set l ∖ {[v]} : gset pyval) ≤ size (list_to_set l : gset pyval))%nat
      by (apply subseteq_size; set_solver).
    lia.
  - intros Hno. destruct (hashables items) as [l|] eqn:Hh; [|done].
    by apply hashables_Some, Hno in Hh.
Qed.

(** ** Building the request *)

Lemma len_app (a b : string) : PyStr.len (a +:+ b) = (PyStr.len a + PyStr.len b)%nat.
Proof.
  induction a as [|x a IH]; [done|].
  change (String x a +:+ b) with (String x (a +:+ b)). cbn [PyStr.len].
  destruct (PyStr.continuation x); lia.
Qed.

Lemma take_len_app (a b : string) :
  PyStr.aligned b → PyStr.take (PyStr.len a) (a +:+ b) = a.
Proof.
  intros Hb. induction a as [|x a IH].
  - destruct b as [|c b]; [done|].
    change ("" +:+ String c b) with (String c b).
    cbn [PyStr.aligned PyStr.len PyStr.take PyStr.drop] in *.
    by rewrite Hb.
  - change (String x a +:+ b) with (String x (a +:+ b)). cbn [PyStr.len PyStr.take].
    destruct (PyStr.continuation x); by rewrite IH.
Qed.

Lemma drop_len_app (a b : string) :
  PyStr.aligned b → PyStr.drop (PyStr.len a) (a +:+ b) = b.
Proof.
  intros Hb. induction a as [|x a IH].
  - destruct b as [|c b]; [done|].
    change ("" +:+ String c b) with (String c b).
    cbn [PyStr.aligned PyStr.len PyStr.take PyStr.drop] in *.
    by rewrite Hb.
  - change (String x a +:+ b) with (String x (a +:+ b)). cbn [PyStr.len PyStr.drop].
    by destruct (PyStr.continuation x).
Qed.

Lemma aligned_app (a b : string) :
  PyStr.aligned a → PyStr.aligned b → PyStr.aligned (a +:+ b).
Proof. by destruct a. Qed.

Lemma ensure_0x_startswith (s : string) : PyStr.startswith "0x" (ensure_0x s) = true.
Proof.
  unfold ensure_0x. destruct (PyStr.startswith "0x" s) eqn:Hs; [done|].
  change ("0x" +:+ s) with (String "0" (String "x" s)).
  unfold PyStr.startswith. cbn. by destruct s.
Qed.

(** X7.  [ensure_0x] gives a text that starts with [0x], leaves such a
    text as it is, and so changes nothing when applied twice. *)
Theorem ensure_0x_prefix (s : string) :
  PyStr.startswith "0x" (ensure_0x s) = true ∧
  (PyStr.startswith "0x" s = true → ensure_0x s = s) ∧
  ensure_0x (ensure_0x s) = ensure_0x s.
Proof.
  pose proof (ensure_0x_startswith s) as H.
  split; [done|]. split.
  - intros Hs. unfold ensure_0x. by rewrite Hs.
  - unfold ensure_0x at 1. by rewrite H.
Qed.

(** X8.  Of an address of ten characters or more, [truncate_addr] shows
    the first six characters and the last four, with three dots in
    between; characters are code points, whatever number of bytes each
    takes. *)
Theorem truncate_addr_long (first6 middle last4 : string) :
  PyStr.len first6 = 6%nat →
  PyStr.len last4 = 4%nat →
  PyStr.aligned middle →
  PyStr.aligned last4 →
  truncate_addr (first6 +:+ middle +:+ last4) = first6 +:+ "..." +:+ last4.
Proof.
  intros H6 H4 Hmiddle Hlast. unfold truncate_addr, PyStr.last_chars.
  rewrite <- H6 at 1. rewrite take_len_app by by apply aligned_app.
  rewrite <- (string_app_assoc first6 middle last4).
  rewrite (len_app (first6 +:+ middle) last4), H4.
  replace (PyStr.len (first6 +:+ middle) + 4 - 4)%nat
    with (PyStr.len (first6 +:+ middle)) by lia.
  by rewrite drop_len_app.
Qed.

Lemma as_str_row_get (r : row) (key : string) :
  str_or_absent r key → ∃ s, as_str (row_get r key (PStr "")) = Ret s.
Proof.
  unfold str_or_absent, row_get. destruct (Py.lookup key r) as [[]|]; cbn; eauto.
  done. done.
Qed.

Lemma as_str_row_get_not (r : row) (key : string) :
  ¬ str_or_absent r key → as_str (row_get r key (PStr "")) = Raise AttributeError.
Proof.
  unfold str_or_absent, row_get. destruct (Py.lookup key r) as [[]|]; cbn; tauto.
Qed.

Lemma build_request_returns (cfg : config) (r : row) :
  sendable r → ∃ x, build_request cfg r = Ret x.
Proof.
  unfold sendable, build_request. intros (Hh & Hf & Ht).
  destruct (as_str_row_get r "tx_hash" Hh) as [h ->].
  destruct (as_str_row_get r "from_addr" Hf) as [f ->].
  destruct (as_str_row_get r "to_addr" Ht) as [t ->].
  eauto.
Qed.

Lemma build_request_raises (cfg : config) (r : row) :
  ¬ sendable r → build_request cfg r = Raise AttributeError.
Proof.
  unfold sendable, build_request. intros Hnot.
  destruct (decide (str_or_absent r "tx_hash")) as [Hh|Hh];
    [|by rewrite (as_str_row_get_not r "tx_hash" Hh)].
  destruct (as_str_row_get r "tx_hash" Hh) as [h ->].
  destruct (decide (str_or_absent r "from_addr")) as [Hf|Hf];
    [|by rewrite (as_str_row_get_not r "from_addr" Hf)].
  destruct (as_str_row_get r "from_addr" Hf) as [f ->].
  destruct (decide (str_or_absent r "to_addr")) as [Ht|Ht];
    [|by rewrite (as_str_row_get_not r "to_addr" Ht)].
  tauto.
Qed.

Lemma send_unsendable (cfg : config) (depth : nat) (r : row) (resps : list response) :
  ¬ sendable r →
  send_telegram_notification cfg depth r (JVal (PInt 0)) resps
    = ([], resps, Raise AttributeError).
Proof.
  intros Hnot%(build_request_raises cfg).
  by apply (send_raises cfg depth r (JVal (PInt 0)) None).
Qed.

Lemma send_sendable (cfg : config) (depth : nat) (r : row) (resps : list response) :
  sendable r →
  (send_telegram_notification cfg depth r (JVal (PInt 0)) resps).2 = Ret tt.
Proof.
  intros [x Hx]%(build_request_returns cfg).
  by apply (send_returns cfg depth r (JVal (PInt 0)) None resps x).
Qed.

(** X9.  The request for a row can be built exactly when the identifier
    and the two addresses of the row are strings or are absent; when one
    of them is something else ([null], a number), building it raises an
    [AttributeError]. *)
Theorem build_request_sendable (cfg : config) (r : row) :
  (sendable r ↔ ∃ x, build_request cfg r = Ret x) ∧
  (¬ sendable r ↔ build_request cfg r = Raise AttributeError).
Proof.
  split; split.
  - apply build_request_returns.
  - intros [x Hx]. destruct (decide (sendable r)) as [|Hnot]; [done|].
    by rewrite (build_request_raises cfg r Hnot) in Hx.
  - apply build_request_raises.
  - intros Hraise [x Hx]%(build_request_returns cfg). by rewrite Hraise in Hx.
Qed.

(** X10.  Every request that is built goes to the [sendMessage] url of the
    bot, in MarkdownV2, to the configured channel, and carries four
    buttons, Block, From, To and TxHash, whose urls are the block, the two
    address and the transaction pages of the explorer; the identifier and
    the addresses in them start with [0x]. *)
Theorem build_request_shape (cfg : config) (r : row) (h url : string) (p : payload) :
  build_request cfg r = Ret (h, url, p) →
  PyStr.startswith "0x" h = true ∧
  url = "https://api.telegram.org/bot" +:+ Py.str (TELEGRAM_BOT_TOKEN cfg)
          +:+ "/sendMessage" ∧
  parse_mode p = "MarkdownV2" ∧
  chat_id p = TELEGRAM_CHANNEL_ID cfg ∧
  ∃ from_addr to_addr,
    PyStr.startswith "0x" from_addr = true ∧
    PyStr.startswith "0x" to_addr = true ∧
    reply_markup p =
      [ ("Block", base_explorer +:+ "/block/"
                    +:+ Py.str (row_get r "block_number" (PInt 0)));
        ("From", base_explorer +:+ "/address/" +:+ from_addr);
        ("To", base_explorer +:+ "/address/" +:+ to_addr);
        ("TxHash", base_explorer +:+ "/tx/" +:+ h) ].
Proof.
  unfold build_request.
  destruct (as_str (row_get r "tx_hash" (PStr ""))) as [h0|]; [|done].
  destruct (as_str (row_get r "from_addr" (PStr ""))) as [f0|]; [|done].
  destruct (as_str (row_get r "to_addr" (PStr ""))) as [t0|]; [|done].
  intros [= <- <- <-]. cbn [parse_mode chat_id reply_markup].
  split; [apply ensure_0x_startswith|]. repeat split.
  exists (ensure_0x f0), (ensure_0x t0).
  split; [apply ensure_0x_startswith|]. split; [apply ensure_0x_startswith|]. done.
Qed.

(** X11.  The sender raises exactly for the rows whose request cannot be
    built, and then before anything is posted and before any answer is
    read; for every other row it returns, whatever the answers are and
    however many nested calls the interpreter allows. *)
Theorem send_raises_before_posting
    (cfg : config) (depth : nat) (r : row) (resps : list response) :
  (¬ sendable r →
     send_telegram_notification cfg depth r (JVal (PInt 0)) resps
       = ([], resps, Raise AttributeError)) ∧
  (sendable r →
     (send_telegram_notification cfg depth r (JVal (PInt 0)) resps).2 = Ret tt).
Proof.
  split.
  - apply send_unsendable.
  - intros [x Hx]%(build_request_returns cfg).
    by apply (send_returns cfg depth r (JVal (PInt 0)) None resps x).
Qed.

(** ** Answers to a request *)

Lemma send_not_rate_limited (cfg : config) (depth : nat) (r : row) h url p resp rest :
  build_request cfg r = Ret (h, url, p) →
  not_rate_limit resp →
  ∃ l, send_telegram_notification cfg depth r (JVal (PInt 0)) (resp :: rest)
       = ([EPost url p; EPrint l], rest, Ret tt).
Proof.
  intros Hb Hnot.
  destruct depth; cbn [send_telegram_notification positive_wait Z.ltb Z.compare];
    rewrite Hb; cbn [waited app];
    (destruct resp as [status body text|]; [|eauto]);
    (destruct (status =? 200); [eauto|]);
    (destruct (Z.eqb_spec status 429) as [->|_]; [done|eauto]).
Qed.

(** X12.  One answer that is not a rate limit ends the delivery of a
    record, whether the answer accepts the message, refuses it, or does
    not come at all: the record is posted once, and it is marked as
    processed in memory, and on file when the write of the set completes,
    so that it is never posted again; when that write does not complete
    the row ends with its [OSError]. *)
Theorem refused_delivery_is_marked
    (cfg : config) (ord : set_order) (r : row) (t : pyval) (m : machine)
    (resp : response) (rest : list response) :
  sendable r →
  tx_hash_of r ∉ processed_txs m →
  responses m = resp :: rest →
  not_rate_limit resp →
  length (posts (events (process_row cfg ord r t m))) = 1%nat ∧
  responses (final (process_row cfg ord r t m)) = rest ∧
  processed_txs (final (process_row cfg ord r t m)) = {[tx_hash_of r]} ∪ processed_txs m ∧
  (next_write m = Written →
   load_processed_txs (fs (final (process_row cfg ord r t m)))
     = processed_txs (final (process_row cfg ord r t m)) ∧
   outcome (process_row cfg ord r t m) = next_max_time (created_at_of r) t) ∧
  (next_write m ≠ Written → outcome (process_row cfg ord r t m) = Raise OSError).
Proof.
  intros [[[h url] p] Hb]%(build_request_returns cfg) Hfresh Hresps Hnot.
  destruct (send_not_rate_limited cfg (recursion_limit cfg) r h url p resp rest Hb Hnot)
    as [l Hsend].
  rewrite process_row_fresh by done. rewrite Hresps, Hsend.
  cbn [events final outcome].
  destruct (mark_processed_fields ord (tx_hash_of r) (set_responses rest m))
    as (-> & _ & _ & -> & _ & Hfs).
  cbn [responses processed_txs set_responses].
  split; [done|]. split; [done|]. split; [done|]. split.
  - intros Hw. rewrite Hfs, Hw by done. cbn [fs set_responses write_outcome].
    by rewrite load_processed_txs_save.
  - intros Hw. by destruct (next_write m).
Qed.


(** X14.  The other ways a 429 answer goes.  A [retry_after] that is an
    integer not above 0 makes the sender post again at once, without a
    wait.  A [retry_after] that is not an integer ([null], a string)
    raises a [TypeError] in the retry, and a body that is not a dict, or
    whose [parameters] is not one, an [AttributeError]: either is printed,
    and the record is not posted again.  (The first two are about a
    retry, a call nested in the one at hand, so about a sender that is
    allowed one.) *)
Theorem rate_limit_without_wait
    (cfg : config) (depth : nat) (r : row) (h url : string) (p : payload)
    (error_data : json) (error_text : string) (rest : list response) :
  build_request cfg r = Ret (h, url, p) →
  (∀ n, retry_after_of error_data = Ret (JVal (PInt n)) → n ≤ 0 →
     send_telegram_notification cfg (S depth) r (JVal (PInt 0))
         (HttpResponse 429 (Some error_data) error_text :: rest) =
       match send_telegram_notification cfg depth r (JVal (PInt 0)) rest with
       | (evs, unread, _) => (EPost url p :: evs, unread, Ret tt)
       end) ∧
  (∀ v, retry_after_of error_data = Ret v → (∀ n, v ≠ JVal (PInt n)) →
     send_telegram_notification cfg (S depth) r (JVal (PInt 0))
         (HttpResponse 429 (Some error_data) error_text :: rest) =
       ([EPost url p; EPrint (LogException TypeError)], rest, Ret tt)) ∧
  (∀ e, retry_after_of error_data = Raise e →
     e = AttributeError ∧
     send_telegram_notification cfg depth r (JVal (PInt 0))
         (HttpResponse 429 (Some error_data) error_text :: rest) =
       ([EPost url p; EPrint (LogException AttributeError)], rest, Ret tt)).
Proof.
  intros Hb. split; [|split].
  - intros n Hra Hn.
    exact (send_retried_at_once cfg depth r h url p error_data n error_text rest Hb Hra Hn).
  - intros v Hra Hv.
    exact (send_bad_retry_after cfg depth r h url p error_data v error_text rest Hb Hra Hv).
  - intros e Hra.
    assert (e = AttributeError) as ->.
    { unfold retry_after_of in Hra.
      destruct error_data as [| |items]; [congruence..|].
      destruct (default (JDict []) (Py.lookup "parameters" items)); congruence. }
    split; [done|].
    exact (send_429_raises cfg depth r h url p error_data _ error_text rest Hb Hra).
Qed.

(** ** What the loop and the cycle keep *)

Lemma save_state_other (x : pyval) (fs : files) (path : string) :
  path ≠ STATE_FILE → save_state x fs !! path = fs !! path.
Proof.
  intros H. unfold save_state, save_state_ops, apply_ops. cbn.
  by rewrite !lookup_insert_ne.
Qed.

Lemma save_processed_txs_other (ord : set_order) (s : gset pyval) (fs : files)
    (path : string) :
  path ≠ PROCESSED_TXS_FILE → save_processed_txs ord s fs !! path = fs !! path.
Proof.
  intros H. unfold save_processed_txs, save_processed_txs_ops, apply_ops. cbn.
  by rewrite !lookup_insert_ne.
Qed.

Section Kept.

Context (cfg : config) (ord : set_order).

(** When the loop completes, every identifier of the batch is in the
    set. *)
Lemma loop_all_processed data t m evs m' t0 :
  loop cfg ord data t m evs m' (Ret t0) →
  ∀ r, r ∈ data → tx_hash_of r ∈ processed_txs m'.
Proof.
  remember (Ret t0) as res eqn:Hres. intros Hloop. revert t0 Hres.
  induction Hloop as [t m|r rest t m evs m' res Hin Hrest IH
                 |r rest t m sent unread e Hin Hsend
                 |r rest t m sent unread e Hin Hsend Hwrite
                 |r rest t m sent unread e Hin Hsend Hwrite Hnext
                 |r rest t m sent unread t' evs m' res Hin Hsend Hwrite Hnext Hrest IH];
    intros t0 Hres r0 Hr0; try done.
  - by apply elem_of_nil in Hr0.
  - apply elem_of_cons in Hr0 as [->|Hr0]; [|by eapply IH].
    destruct (loop_processed _ _ _ _ _ _ _ _ Hrest) as (Hsub & _). by apply Hsub.
  - apply elem_of_cons in Hr0 as [->|Hr0]; [|by eapply IH].
    destruct (loop_processed _ _ _ _ _ _ _ _ Hrest) as (Hsub & _). apply Hsub.
    cbn. set_solver.
Qed.

(** The loop touches no file but that of the set; and while no write
    fails it leaves the set on file equal to the set in memory. *)
Lemma loop_files data t m evs m' res :
  loop cfg ord data t m evs m' res →
  (∀ path, path ≠ PROCESSED_TXS_FILE → fs m' !! path = fs m !! path) ∧
  (reliable m →
   reliable m' ∧
   (load_processed_txs (fs m) = processed_txs m →
    load_processed_txs (fs m') = processed_txs m')).
Proof.
  assert (∀ h m0 path, path ≠ PROCESSED_TXS_FILE →
            fs (mark_processed ord h m0) !! path = fs m0 !! path) as Hother.
  { intros h m0 path Hpath. unfold mark_processed, written, save_processed_txs_ops.
    cbn [fs set_fs]. by rewrite files_after_other. }
  assert (∀ h m0, reliable m0 →
            load_processed_txs (fs (mark_processed ord h m0))
              = processed_txs (mark_processed ord h m0)) as Hmarked.
  { intros h m0 Hrel.
    destruct (mark_processed_fields ord h m0) as (-> & _ & _ & _ & _ & ->);
      [|by apply reliable_next_write].
    apply load_processed_txs_save. }
  induction 1 as [t m|r rest t m evs m' res Hin Hrest IH
                 |r rest t m sent unread e Hin Hsend
                 |r rest t m sent unread e Hin Hsend Hwrite
                 |r rest t m sent unread e Hin Hsend Hwrite Hnext
                 |r rest t m sent unread t' evs m' res Hin Hsend Hwrite Hnext Hrest IH];
    try done.
  - split; [by intros; rewrite Hother|]. intros Hrel.
    rewrite (reliable_next_write m Hrel) in Hwrite. done.
  - split; [by intros; rewrite Hother|]. intros Hrel.
    assert (reliable (set_responses unread m)) as Hrel0 by done.
    split; [by apply reliable_written|]. intros _. by apply Hmarked.
  - destruct IH as [IH1 IH2]. split.
    + intros path Hpath. rewrite IH1 by done. by rewrite Hother.
    + intros Hrel. assert (reliable (set_responses unread m)) as Hrel0 by done.
      destruct IH2 as [Hrel' Hload]; [by apply reliable_written|].
      split; [done|]. intros _. apply Hload. by apply Hmarked.
Qed.

Lemma settled_other_files (t : pyval) (m : machine) (path : string) :
  path ≠ STATE_FILE → path ≠ PROCESSED_TXS_FILE →
  fs (settled ord t m) !! path = fs m !! path.
Proof.
  intros Hs Hp.
  assert (fs (advance_cursor t m) !! path = fs m !! path) as Hadv.
  { unfold advance_cursor. destruct (Py.truthy t); [|done].
    unfold written, save_state_ops. cbn [fs set_fs]. by rewrite files_after_other. }
  unfold settled. destruct (advance_outcome t m); [|done].
  rewrite <- Hadv. unfold cleanup.
  destruct (1000 <? _)%nat; [|done].
  unfold written, save_processed_txs_ops. cbn [fs set_fs]. by rewrite files_after_other.
Qed.

Lemma settled_synced (t : pyval) (m : machine) :
  reliable m → synced m → synced (settled ord t m).
Proof.
  intros Hrel [Hset Hcur].
  assert (synced (advance_cursor t m) ∧ reliable (advance_cursor t m)) as [[Hset1 Hcur1] Hrel1].
  { unfold advance_cursor. destruct (Py.truthy t); [|done].
    split; [|by apply reliable_written]. split.
    - rewrite fs_written by by apply reliable_next_write.
      change (apply_ops (save_state_ops ?x)) with (save_state x).
      by rewrite load_processed_txs_save_state.
    - rewrite fs_written by by apply reliable_next_write.
      change (apply_ops (save_state_ops ?x)) with (save_state x).
      apply load_state_save_state. }
  destruct (settled_fields ord t m) as (_ & _ & _ & _ & Hsettle).
  destruct (Hsettle Hrel) as [_ Hret].
  destruct (settled_Ret ord t m Hret) as (-> & _).
  unfold cleanup. destruct (1000 <? _)%nat; [|done]. split.
  - rewrite fs_written by by apply reliable_next_write.
    change (apply_ops (save_processed_txs_ops ord ?x)) with (save_processed_txs ord x).
    cbn [processed_txs written set_fs set_writes set_processed_txs].
    apply load_processed_txs_save.
  - rewrite fs_written by by apply reliable_next_write.
    cbn [last_polled_time written set_fs set_writes set_processed_txs fs].
    change (apply_ops (save_processed_txs_ops ord ?x)) with (save_processed_txs ord x).
    by rewrite load_state_save_processed_txs.
Qed.

Lemma final_cycle_body (m : machine) :
  final (cycle_body cfg ord m) =
    match queries m with
    | [] => m
    | QueryFailed :: qs | QueryData [] :: qs => set_queries qs m
    | QueryData data :: qs =>
        match outcome (for_rows cfg ord data PNone (set_queries qs m)) with
        | Ret t => settled ord t (final (for_rows cfg ord data PNone (set_queries qs m)))
        | Raise _ => final (for_rows cfg ord data PNone (set_queries qs m))
        end
    end.
Proof.
  rewrite cycle_body_run. destruct (queries m) as [|[[|r0 data0]|] qs]; try done.
  cbn zeta. destruct (outcome _); [|done]. by destruct (settle_outcome _ _) as [[]|].
Qed.

Lemma poll_cycle_synced (m : machine) :
  reliable m → synced m →
  reliable (final (poll_cycle cfg ord m)) ∧ synced (final (poll_cycle cfg ord m)).
Proof.
  intros Hrel [Hset Hcur]. rewrite poll_cycle_final, final_cycle_body.
  destruct (queries m) as [|[[|r0 data0]|] qs]; try done.
  set (m1 := set_queries qs m).
  pose proof (for_rows_loop cfg ord (r0 :: data0) PNone m1) as Hloop.
  destruct (loop_files _ _ _ _ _ _ Hloop) as [Hother Hfiles].
  destruct (Hfiles Hrel) as [Hrel' Hload].
  destruct (loop_frame _ _ _ _ _ _ _ _ Hloop) as (Hlast & Hstate & _).
  assert (synced (final (for_rows cfg ord (r0 :: data0) PNone m1))) as Hsynced.
  { split; [by apply Hload|].
    rewrite (load_state_lookup _ (fs m1)) by done. by rewrite Hlast. }
  destruct (outcome (for_rows cfg ord (r0 :: data0) PNone m1)); [|done].
  split; [|by apply settled_synced].
  by apply (settled_fields ord).
Qed.

Lemma poll_cycle_other_files (m : machine) (path : string) :
  path ≠ STATE_FILE → path ≠ PROCESSED_TXS_FILE →
  fs (final (poll_cycle cfg ord m)) !! path = fs m !! path.
Proof.
  intros Hs Hp. rewrite poll_cycle_final, final_cycle_body.
  destruct (queries m) as [|[[|r0 data0]|] qs]; try done.
  set (m1 := set_queries qs m).
  pose proof (for_rows_loop cfg ord (r0 :: data0) PNone m1) as Hloop.
  destruct (loop_files _ _ _ _ _ _ Hloop) as [Hother _].
  destruct (outcome (for_rows cfg ord (r0 :: data0) PNone m1)) as [t|e];
    [|by rewrite Hother].
  rewrite settled_other_files by done. by rewrite Hother.
Qed.

(** X15.  As long as no write fails, what is on file is what is in memory
    after the startup and any number of cycles, whether the cycles
    complete or are aborted by an exception: the processed file loads to
    the processed set, and the state file to the cursor. *)
Theorem files_follow_memory (now : string) (n : nat) (m : machine) :
  reliable m →
  synced (final (poll_supabase_for_transfers cfg ord now n m)).
Proof.
  intros Hrel. rewrite run_poll_supabase_for_transfers.
  rewrite (reliable_next_write m Hrel). cbn [write_outcome final].
  assert (synced (started now m) ∧ reliable (started now m)) as [Hsynced Hrel0].
  { split; [|by apply reliable_written].
    destruct (started_fields now m) as (Hcur & Hset & _ & _ & _ & Hfs).
    split.
    - rewrite Hfs, Hset by by apply reliable_next_write.
      apply load_processed_txs_save_state.
    - rewrite Hfs, Hcur by by apply reliable_next_write.
      apply load_state_save_state. }
  revert Hsynced Hrel0. generalize (started now m).
  induction n as [|n IH]; intros m0 Hsynced Hrel0; [done|].
  cbn [poll_loop]. rewrite run_bind, poll_cycle_returns. cbn [final].
  destruct (poll_cycle_synced m0 Hrel0 Hsynced). by apply IH.
Qed.

(** X16.  The program writes two files and no other: whatever the run
    does, and however its writes go, every other path holds after it
    what it held before. *)
Theorem only_two_files_written (now : string) (n : nat) (m : machine) (path : string) :
  path ≠ STATE_FILE → path ≠ PROCESSED_TXS_FILE →
  fs (final (poll_supabase_for_transfers cfg ord now n m)) !! path = fs m !! path.
Proof.
  intros Hs Hp. rewrite run_poll_supabase_for_transfers.
  assert (fs (started now m) !! path = fs m !! path) as <-.
  { unfold started, written, save_state_ops. cbn [fs set_fs].
    by rewrite files_after_other. }
  destruct (write_outcome (next_write m)) as [[]|e]; cbn [final]; [|done].
  generalize (started now m).
  induction n as [|n IH]; intros m0; [done|].
  cbn [poll_loop]. rewrite run_bind, poll_cycle_returns. cbn [final].
  by rewrite IH, poll_cycle_other_files.
Qed.

End Kept.

(** ** Replays, bounds and provenance *)

Section Replay.

Context (cfg : config) (ord : set_order).

Lemma for_rows_all_skipped (data : list row) (t : pyval) (m : machine) :
  (∀ r, r ∈ data → tx_hash_of r ∈ processed_txs m) →
  for_rows cfg ord data t m
    = Ran ((fun r => EPrint (LogSkipping (tx_hash_of r))) <$> data) m (Ret t).
Proof.
  induction data as [|r data IH]; intros Hall; [done|].
  rewrite for_rows_cons, run_bind, process_row_skip by (apply Hall; by left).
  cbn [outcome events final app]. rewrite IH; [done|].
  intros r' Hr'. apply Hall. by right.
Qed.

(** X17.  A batch that the loop has handled to the end can be replayed
    without effect: handled again, every row is skipped, nothing is sent
    or posted, no answer is read, and the machine and [new_max_time] stay
    as they are. *)
Theorem replay_is_skipped (data : list row) (t t1 t2 : pyval) (m : machine) :
  outcome (for_rows cfg ord data t m) = Ret t1 →
  for_rows cfg ord data t2 (final (for_rows cfg ord data t m))
    = Ran ((fun r => EPrint (LogSkipping (tx_hash_of r))) <$> data)
          (final (for_rows cfg ord data t m)) (Ret t2).
Proof.
  intros Hout. apply for_rows_all_skipped.
  pose proof (for_rows_loop cfg ord data t m) as Hloop. rewrite Hout in Hloop.
  by apply (loop_all_processed _ _ _ _ _ _ _ _ Hloop).
Qed.

(** X18.  A cycle whose answer holds only rows that are processed
    already, with a set of at most 1000 identifiers, changes nothing but
    the script of the queries: the cursor, the set and the files stay,
    nothing is sent, and the cycle sleeps its 10 seconds. *)
Theorem processed_batch_changes_nothing
    (m : machine) (data : list row) (qs : list query_result) :
  queries m = QueryData data :: qs →
  (∀ r, r ∈ data → tx_hash_of r ∈ processed_txs m) →
  (size (processed_txs m) ≤ 1000)%nat →
  final (poll_cycle cfg ord m) = set_queries qs m ∧
  sent_rows (events (poll_cycle cfg ord m)) = [] ∧
  posts (events (poll_cycle cfg ord m)) = [] ∧
  last (events (poll_cycle cfg ord m)) = Some (ESleep 10).
Proof.
  intros Hq Hall Hsize. rewrite poll_cycle_run, cycle_body_run, Hq.
  destruct data as [|r0 data0]; [done|].
  cbn zeta. rewrite for_rows_all_skipped by done. cbn [outcome events final].
  assert (settle_outcome PNone (set_queries qs m) = Ret tt) as ->.
  { unfold settle_outcome, advance_outcome, cleanup_outcome, advance_cursor.
    cbn [Py.truthy processed_txs set_queries].
    by destruct (Nat.ltb_spec 1000 (size (processed_txs m))); [lia|]. }
  assert (settled ord PNone (set_queries qs m) = set_queries qs m) as ->.
  { unfold settled, advance_outcome, advance_cursor, cleanup.
    cbn [Py.truthy processed_txs set_queries].
    by destruct (Nat.ltb_spec 1000 (size (processed_txs m))); [lia|]. }
  cbn [outcome events final].
  split; [done|].
  set (skips := (fun r => EPrint (LogSkipping (tx_hash_of r))) <$> r0 :: data0).
  assert (sent_rows skips = [] ∧ posts skips = []) as [Hs Hp].
  { subst skips. clear. induction (r0 :: data0) as [|r l [IH1 IH2]]; [done|].
    by cbn [fmap list_fmap]. }
  split; [|split].
  - change (sent_rows (query_event m :: EPrint (LogFound (length (r0 :: data0)))
                         :: skips ++ [ESleep 10]))
      with (sent_rows (skips ++ [ESleep 10])).
    by rewrite sent_rows_app, Hs.
  - change (posts (query_event m :: EPrint (LogFound (length (r0 :: data0)))
                     :: skips ++ [ESleep 10]))
      with (posts (skips ++ [ESleep 10])).
    unfold posts in *. by rewrite omap_app, Hp.
  - change (query_event m :: EPrint (LogFound (length (r0 :: data0)))
              :: skips ++ [ESleep 10])
      with ((query_event m :: EPrint (LogFound (length (r0 :: data0))) :: skips)
              ++ [ESleep 10]).
    apply last_snoc.
Qed.

(** X19.  Every identifier in the set after a cycle was in it before, or
    is that of a row the cycle called the sender for; and after a cycle
    that went through a batch to the end the set holds at most 1000
    identifiers. *)
Theorem processed_set_provenance_and_bound (m : machine) :
  processed_txs (final (poll_cycle cfg ord m))
    ⊆ processed_txs m
      ∪ list_to_set (tx_hash_of <$> sent_rows (events (poll_cycle cfg ord m))) ∧
  (∀ r data qs, queries m = QueryData (r :: data) :: qs →
     outcome (cycle_body cfg ord m) = Ret tt →
     (size (processed_txs (final (poll_cycle cfg ord m))) ≤ 1000)%nat).
Proof.
  rewrite sent_rows_poll_cycle, poll_cycle_final.
  rewrite (final_cycle_body cfg ord m), cycle_body_run.
  destruct (queries m) as [|[[|r0 data0]|] qs]; cbn [final processed_txs set_queries];
    try (split; [set_solver|done]).
  cbn zeta. set (m1 := set_queries qs m).
  pose proof (for_rows_loop cfg ord (r0 :: data0) PNone m1) as Hloop.
  destruct (loop_processed _ _ _ _ _ _ _ _ Hloop) as (_ & Hsub & _).
  destruct (outcome (for_rows cfg ord (r0 :: data0) PNone m1)) as [t|e];
    cbn [final]; [|split; [done|by intros ??? _ ?]].
  set (m2 := final (for_rows cfg ord (r0 :: data0) PNone m1)) in *.
  split.
  - destruct (settled_fields ord t m2) as (_ & _ & [->|[_ ->]] & _); [done|].
    etrans; [apply prune_subseteq|done].
  - intros _ _ _ _ Hout.
    assert (settle_outcome t m2 = Ret tt) as Hret.
    { destruct (settle_outcome t m2) as [[]|]; [done|discriminate]. }
    destruct (settled_Ret ord t m2 Hret) as (-> & _ & _).
    assert (processed_txs (advance_cursor t m2) = processed_txs m2) as Hadv.
    { unfold advance_cursor. by destruct (Py.truthy t). }
    unfold cleanup. rewrite Hadv.
    destruct (Nat.ltb_spec 1000 (size (processed_txs m2))) as [Hbig|Hsmall];
      cbn [processed_txs written set_fs set_writes set_processed_txs].
    + rewrite prune_size by lia. lia.
    + by rewrite Hadv.
Qed.

End Replay.

(** ** At most once *)

Lemma rows_of_cons_data (data : list row) (qs : list query_result) :
  rows_of (QueryData data :: qs) = data ++ rows_of qs.
Proof. done. Qed.

Lemma rows_of_cons_failed (qs : list query_result) :
  rows_of (QueryFailed :: qs) = rows_of qs.
Proof. done. Qed.

Lemma rows_of_tail (qs : list query_result) :
  Forall sendable (rows_of qs) → Forall sendable (rows_of (tail qs)).
Proof.
  destruct qs as [|[data|] qs]; [done| |done].
  rewrite rows_of_cons_data, Forall_app. by intros [_ ?].
Qed.

Section Once.

Context (cfg : config) (ord : set_order).

(** The rows sent by a loop over sendable rows are all marked. *)
Lemma loop_sent_marked data t m evs m' res :
  loop cfg ord data t m evs m' res →
  Forall sendable data →
  ∀ r, r ∈ sent_rows evs → tx_hash_of r ∈ processed_txs m'.
Proof.
  induction 1 as [t m|r rest t m evs m' res Hin Hrest IH
                 |r rest t m sent unread e Hin Hsend
                 |r rest t m sent unread e Hin Hsend Hwrite
                 |r rest t m sent unread e Hin Hsend Hwrite Hnext
                 |r rest t m sent unread t' evs m' res Hin Hsend Hwrite Hnext Hrest IH];
    intros Hall r0 Hr0.
  - by apply elem_of_nil in Hr0.
  - rewrite sent_rows_print in Hr0. apply IH; [by inversion Hall|done].
  - exfalso. inversion Hall as [|?? Hr _]; subst.
    pose proof (send_sendable cfg (recursion_limit cfg) r (responses m) Hr) as Hret.
    by rewrite Hsend in Hret.
  - rewrite (sent_rows_last _ _ (send_eq_sent_rows _ _ _ _ _ _ _ Hsend)) in Hr0.
    apply list_elem_of_singleton in Hr0 as ->. cbn. set_solver.
  - rewrite (sent_rows_last _ _ (send_eq_sent_rows _ _ _ _ _ _ _ Hsend)) in Hr0.
    apply list_elem_of_singleton in Hr0 as ->. cbn. set_solver.
  - rewrite (sent_rows_sent _ _ _ (send_eq_sent_rows _ _ _ _ _ _ _ Hsend)) in Hr0.
    apply elem_of_cons in Hr0 as [->|Hr0]; [|by apply IH; [inversion Hall|]].
    destruct (loop_processed _ _ _ _ _ _ _ _ Hrest) as (Hsub & _).
    apply Hsub. cbn. set_solver.
Qed.

Lemma poll_cycle_sent_marked (m : machine) :
  Forall sendable (rows_of (queries m)) →
  (size (processed_txs m) + rows_to_come 1 (queries m) ≤ 1000)%nat →
  ∀ r, r ∈ sent_rows (events (poll_cycle cfg ord m)) →
       tx_hash_of r ∈ processed_txs (final (poll_cycle cfg ord m)).
Proof.
  rewrite sent_rows_poll_cycle, poll_cycle_final, final_cycle_body.
  destruct (queries m) as [|[[|r0 data0]|] qs]; cbn [rows_to_come];
    intros Hall Hsize; try by intros r ?%elem_of_nil.
  rewrite rows_of_cons_data, Forall_app in Hall. destruct Hall as [Hall _].
  set (m1 := set_queries qs m).
  pose proof (for_rows_loop cfg ord (r0 :: data0) PNone m1) as Hloop.
  pose proof (loop_sent_marked _ _ _ _ _ _ Hloop Hall) as Hmarked.
  pose proof (loop_size _ _ _ _ _ _ _ _ Hloop) as Hsz.
  unfold m1 in Hsz at 2. cbn [processed_txs set_queries length] in Hsz, Hsize.
  destruct (outcome (for_rows cfg ord (r0 :: data0) PNone m1)) as [t|e]; [|done].
  destruct (settled_fields ord t (final (for_rows cfg ord (r0 :: data0) PNone m1)))
    as (_ & _ & _ & Hkeep & _).
  rewrite Hkeep by lia. done.
Qed.

(** X20.  While the set cannot grow above 1000 identifiers and the rows
    are sendable, no identifier is sent twice, in one cycle or across
    cycles, and none that was in the set at the start is sent at all. *)
Theorem sent_at_most_once (n : nat) (m : machine) :
  Forall sendable (rows_of (queries m)) →
  (size (processed_txs m) + rows_to_come n (queries m) ≤ 1000)%nat →
  NoDup (tx_hash_of <$> sent_rows (events (poll_loop cfg ord n m))) ∧
  ∀ r, r ∈ sent_rows (events (poll_loop cfg ord n m)) →
       tx_hash_of r ∉ processed_txs m.
Proof.
  revert m. induction n as [|n IH]; intros m Hall Hsize.
  { split; [constructor|]. by intros r ?%elem_of_nil. }
  cbn [poll_loop]. rewrite run_bind, poll_cycle_returns. cbn [outcome events final].
  assert (size (processed_txs m) + rows_to_come 1 (queries m) ≤ 1000
          ∧ rows_to_come (S n) (queries m)
            = rows_to_come 1 (queries m) + rows_to_come n (tail (queries m)))%nat
    as [Hone Hsplit].
  { destruct (queries m) as [|[data|] qs]; cbn [rows_to_come tail] in *;
      destruct n; cbn [rows_to_come] in *; lia. }
  destruct (poll_cycle_keeps cfg ord m Hone) as (Hsub & Hsz & Hqs & Hfresh).
  set (m1 := final (poll_cycle cfg ord m)) in *.
  assert (size (processed_txs m1) + rows_to_come n (queries m1) ≤ 1000)%nat as Hsize1.
  { rewrite Hqs. lia. }
  destruct (IH m1) as [Hnd1 Hfresh1]; [rewrite Hqs; by apply rows_of_tail|done|].
  rewrite sent_rows_app, fmap_app. split.
  - apply NoDup_app. split; [|split; [|done]].
    + rewrite sent_rows_poll_cycle.
      destruct (queries m) as [|[data|] qs]; [constructor| |constructor].
      apply (loop_sent_nodup _ _ _ _ _ _ _ _
               (for_rows_loop cfg ord data PNone (set_queries qs m))).
    + intros h (r & -> & Hr)%list_elem_of_fmap (r' & Heq & Hr')%list_elem_of_fmap.
      pose proof (poll_cycle_sent_marked m Hall Hone r Hr) as Hmarked.
      destruct (poll_loop_keeps cfg ord n m1 (tx_hash_of r) Hsize1 Hmarked) as [_ Hnever].
      by apply (Hnever r' Hr').
  - intros r [Hr|Hr]%elem_of_app; [by apply Hfresh|].
    intros Hin. apply (Hfresh1 r Hr). by apply Hsub.
Qed.

(** X21.  Recovery after a restart: an identifier that the processed
    file holds at startup is not sent in the run that follows, however
    often the source returns its row, for as long as the set cannot grow
    above 1000 identifiers. *)
Theorem restart_does_not_resend (now : string) (n : nat) (m : machine) (h : pyval) :
  h ∈ load_processed_txs (fs m) →
  (size (load_processed_txs (fs m)) + rows_to_come n (queries m) ≤ 1000)%nat →
  ∀ r, r ∈ sent_rows (events (poll_supabase_for_transfers cfg ord now n m)) →
       tx_hash_of r ≠ h.
Proof.
  intros Hin Hsize r. rewrite run_poll_supabase_for_transfers.
  destruct (started_fields now m) as (_ & Hset & Hqs & _).
  destruct (write_outcome (next_write m)) as [[]|e]; cbn [events];
    [|by intros ?%elem_of_nil].
  change (sent_rows (EPrint LogStarting :: ?l)) with (sent_rows l).
  apply poll_loop_keeps; by rewrite Hset, ?Hqs.
Qed.

End Once.

(** ** Where the cursor comes from, the throttle, and rows that cannot be sent *)

Lemma next_max_time_cases (c t t' : pyval) :
  next_max_time c t = Ret t' → t' = t ∨ t' = c.
Proof.
  unfold next_max_time. destruct (Py.truthy c); [|intros [= <-]; by left].
  destruct t; [intros [= <-]; by right|..];
    destruct (Py.gt c _) as [[]|]; intros [= <-]; by (left + right).
Qed.

Lemma throttled_app (a b : list event) :
  throttled a → throttled b → throttled (a ++ b).
Proof.
  intros Ha Hb i r Hi.
  destruct (decide (i < length a)%nat) as [Hlt|Hge].
  - rewrite lookup_app_l in Hi by done.
    destruct (Ha i r Hi) as (j & -> & Hj). exists j. split; [done|].
    rewrite lookup_app_l by lia. done.
  - rewrite lookup_app_r in Hi by lia.
    destruct (Hb _ r Hi) as (j & Hij & Hj).
    exists (length a + j)%nat. split; [lia|].
    rewrite lookup_app_r by lia. by replace (length a + j - length a)%nat with j by lia.
Qed.

Lemma throttled_nil : throttled [].
Proof. by intros i r Hi. Qed.

Lemma throttled_cons_other (e : event) (evs : list event) :
  (∀ r, e ≠ ESend r) → throttled evs → throttled (e :: evs).
Proof.
  intros He Hevs. apply (throttled_app [e]); [|done].
  intros [|i] r Hi; [|done]. injection Hi as ->. by destruct (He r).
Qed.

Lemma throttled_sender (evs : list event) :
  Forall sender_event evs → throttled evs.
Proof.
  intros Hall i r Hi. rewrite Forall_forall in Hall.
  by destruct (Hall (ESend r) (list_elem_of_lookup_2 _ _ _ Hi)).
Qed.

Lemma throttled_send (r : row) : throttled [ESleep 3; ESend r].
Proof.
  intros [|[|i]] r' Hi; [done| |done]. exists 0%nat. by split.
Qed.

Section Provenance.

Context (cfg : config) (ord : set_order).

Lemma loop_max_provenance data t m evs m' t0 :
  loop cfg ord data t m evs m' (Ret t0) →
  t0 = t ∨ ∃ r, r ∈ sent_rows evs ∧ created_at_of r = t0.
Proof.
  remember (Ret t0) as res eqn:Hres. intros Hloop. revert t0 Hres.
  induction Hloop as [t m|r rest t m evs m' res Hin Hrest IH
                 |r rest t m sent unread e Hin Hsend
                 |r rest t m sent unread e Hin Hsend Hwrite
                 |r rest t m sent unread e Hin Hsend Hwrite Hnext
                 |r rest t m sent unread t' evs m' res Hin Hsend Hwrite Hnext Hrest IH];
    intros t0 Hres; try done.
  - injection Hres as <-. by left.
  - rewrite sent_rows_print. by apply IH.
  - rewrite (sent_rows_sent _ _ _ (send_eq_sent_rows _ _ _ _ _ _ _ Hsend)).
    destruct (IH t0 Hres) as [->|(r' & Hr' & Hc)].
    + destruct (next_max_time_cases _ _ _ Hnext) as [->| ->]; [by left|].
      right. exists r. split; [by left|done].
    + right. exists r'. split; [by right|done].
Qed.

(** X22.  The cursor moves only to the creation time of a row the cycle
    has sent: after a cycle it is the cursor of before, or the creation
    time of one of the rows sent in the cycle; and then that time is also
    what the state file holds, when no write fails or the cycle
    completes. *)
Theorem cursor_provenance (m : machine) :
  last_polled_time (final (poll_cycle cfg ord m)) = last_polled_time m ∨
  ∃ r, r ∈ sent_rows (events (poll_cycle cfg ord m)) ∧
       last_polled_time (final (poll_cycle cfg ord m)) = created_at_of r ∧
       (reliable m ∨ outcome (cycle_body cfg ord m) = Ret tt →
        load_state (fs (final (poll_cycle cfg ord m))) = JVal (created_at_of r)).
Proof.
  rewrite sent_rows_poll_cycle, poll_cycle_final, final_cycle_body, cycle_body_run.
  destruct (queries m) as [|[[|r0 data0]|] qs]; try by left.
  cbn zeta. set (m1 := set_queries qs m).
  pose proof (for_rows_loop cfg ord (r0 :: data0) PNone m1) as Hloop.
  destruct (loop_frame _ _ _ _ _ _ _ _ Hloop) as (Hlast & _ & _).
  destruct (loop_files _ _ _ _ _ _ _ _ Hloop) as [_ Hrel].
  destruct (outcome (for_rows cfg ord (r0 :: data0) PNone m1)) as [t|e] eqn:Hout;
    [|by left].
  set (m2 := final (for_rows cfg ord (r0 :: data0) PNone m1)) in *.
  destruct (settled_cursor ord t m2) as [-> Hfile].
  destruct (Py.truthy t) eqn:Htruthy; [|by left].
  destruct (loop_max_provenance _ _ _ _ _ _ Hloop) as [->|(r & Hr & <-)]; [done|].
  right. exists r. split; [done|]. split; [done|].
  intros Hok. apply Hfile.
  destruct Hok as [Hok|Hok].
  - destruct (Hrel Hok) as [Hrel2 _].
    by destruct (settled_fields ord (created_at_of r) m2) as (_ & _ & _ & _ & Hs);
      destruct (Hs Hrel2).
  - by destruct (settle_outcome (created_at_of r) m2) as [[]|].
Qed.

Lemma loop_throttled data t m evs m' res :
  loop cfg ord data t m evs m' res → throttled evs.
Proof.
  assert (∀ r resps sent unread res',
    send_telegram_notification cfg (recursion_limit cfg) r (JVal (PInt 0)) resps
      = (sent, unread, res') →
    throttled sent) as Hsent.
  { intros r resps sent unread res' H. apply throttled_sender.
    pose proof (send_sender_events cfg (recursion_limit cfg) r (JVal (PInt 0)) resps) as Hs.
    by rewrite H in Hs. }
  induction 1 as [t m|r rest t m evs m' res Hin Hrest IH
                 |r rest t m sent unread e Hin Hsend
                 |r rest t m sent unread e Hin Hsend Hwrite
                 |r rest t m sent unread e Hin Hsend Hwrite Hnext
                 |r rest t m sent unread t' evs m' res Hin Hsend Hwrite Hnext Hrest IH].
  - by intros i r Hi.
  - apply (throttled_app [_]); [|done]. apply throttled_sender. by repeat constructor.
  - apply (throttled_app [_; _]); [apply throttled_send|by eapply Hsent].
  - apply (throttled_app [_; _]); [apply throttled_send|by eapply Hsent].
  - apply (throttled_app [_; _]); [apply throttled_send|by eapply Hsent].
  - apply (throttled_app [_; _]); [apply throttled_send|].
    apply throttled_app; [by eapply Hsent|done].
Qed.

Lemma cycle_body_throttled (m : machine) : throttled (events (cycle_body cfg ord m)).
Proof.
  rewrite cycle_body_run.
  destruct (queries m) as [|[[|r0 data0]|] qs];
    try (cbn [events]; repeat (apply throttled_cons_other; [done|]); apply throttled_nil).
  cbn zeta.
  pose proof (loop_throttled _ _ _ _ _ _
    (for_rows_loop cfg ord (r0 :: data0) PNone (set_queries qs m))) as Hrows.
  destruct (outcome (for_rows cfg ord (r0 :: data0) PNone (set_queries qs m)));
    [destruct (settle_outcome _ _)|];
    cbn [events]; repeat (apply throttled_cons_other; [done|]); try done.
  apply throttled_app; [done|].
  apply throttled_cons_other; [done|apply throttled_nil].
Qed.

Lemma poll_cycle_throttled (m : machine) : throttled (events (poll_cycle cfg ord m)).
Proof.
  rewrite poll_cycle_run.
  destruct (outcome (cycle_body cfg ord m)); cbn [events];
    [apply cycle_body_throttled|].
  apply throttled_app; [apply cycle_body_throttled|].
  repeat (apply throttled_cons_other; [done|]). apply throttled_nil.
Qed.

(** X23.  The throttle: in a run of the startup and any number of
    cycles, every call of the sender from the loop comes right after a
    sleep of three seconds. *)
Theorem every_send_is_throttled (now : string) (n : nat) (m : machine) :
  throttled (events (poll_supabase_for_transfers cfg ord now n m)).
Proof.
  rewrite run_poll_supabase_for_transfers.
  destruct (write_outcome (next_write m)) as [[]|e]; cbn [events];
    [|by intros [|i] r Hi].
  apply (throttled_app [_]); [by intros [|i] r Hi|].
  generalize (started now m).
  induction n as [|n IH]; intros m0; [by intros i r Hi|].
  cbn [poll_loop]. rewrite run_bind, poll_cycle_returns. cbn [events].
  apply throttled_app; [apply poll_cycle_throttled|apply IH].
Qed.

Lemma set_responses_same (m : machine) : set_responses (responses m) m = m.
Proof. by destruct m. Qed.

(** X24.  A row that cannot be sent blocks the loop.  When the answer to
    the query begins with a fresh row whose identifier or address is not
    a string, the cycle calls the sender, which raises, and ends there:
    nothing is posted, the row is not marked, the cursor does not move,
    and the rows behind it are not reached.  As nothing has changed, the
    same happens in every cycle for which the source returns that
    answer. *)
Theorem unsendable_row_blocks
    (r : row) (rest : list row) (n : nat) (qs : list query_result) (m : machine) :
  ¬ sendable r →
  tx_hash_of r ∉ processed_txs m →
  queries m = replicate n (QueryData (r :: rest)) ++ qs →
  final (poll_loop cfg ord n m) = set_queries qs m ∧
  posts (events (poll_loop cfg ord n m)) = [] ∧
  sent_rows (events (poll_loop cfg ord n m)) = replicate n r.
Proof.
  intros Hbad. revert m. induction n as [|n IH]; intros m Hfresh Hq.
  { cbn in *. rewrite <- Hq. by destruct m. }
  assert (poll_cycle cfg ord m =
    Ran [query_event m; EPrint (LogFound (S (length rest))); ESleep 3; ESend r;
         EPrint (LogPollingError AttributeError); ESleep 10]
        (set_queries (replicate n (QueryData (r :: rest)) ++ qs) m) (Ret tt)) as Hcycle.
  { rewrite poll_cycle_run, cycle_body_run, Hq. cbn [replicate app]. cbn zeta.
    rewrite for_rows_cons, run_bind, process_row_fresh by done.
    rewrite (send_unsendable cfg _ r _ Hbad).
    cbn [outcome events final app length].
    by rewrite set_responses_same. }
  cbn [poll_loop]. rewrite run_bind, Hcycle. cbn [outcome events final].
  destruct (IH (set_queries (replicate n (QueryData (r :: rest)) ++ qs) m))
    as (Hfinal & Hposts & Hsent); [done|done|].
  rewrite Hfinal. split; [done|]. split.
  - unfold posts in *. rewrite omap_app, Hposts. done.
  - rewrite sent_rows_app, Hsent. done.
Qed.

End Provenance.

(** ** The pace of the loop, and what the sender posts *)

Section Pace.

Context (cfg : config) (ord : set_order).

(** X25.  Every cycle, completed or aborted, makes one query, as its
    first step and from the cursor it starts with, queries no more, and
    ends with a sleep of ten seconds; no exception leaves it. *)
Theorem cycle_is_paced (m : machine) :
  ∃ mid, events (poll_cycle cfg ord m) = query_event m :: mid ++ [ESleep 10] ∧
         queries_made mid = [] ∧
         outcome (poll_cycle cfg ord m) = Ret tt.
Proof.
  rewrite poll_cycle_returns, poll_cycle_run, cycle_body_run.
  destruct (queries m) as [|[[|r data]|] qs]; cbn [outcome events app].
  - by exists [EPrint (LogPollingError APIError)].
  - by exists [].
  - cbn zeta.
    pose proof (loop_queries_made _ _ _ _ _ _ _ _
      (for_rows_loop cfg ord (r :: data) PNone (set_queries qs m))) as Hq.
    destruct (outcome (for_rows cfg ord (r :: data) PNone (set_queries qs m))) as [t|e];
      [destruct (settle_outcome _ _) as [[]|e]|]; cbn [outcome events app].
    + exists (EPrint (LogFound (length (r :: data)))
                :: events (for_rows cfg ord (r :: data) PNone (set_queries qs m))).
      by split.
    + exists (EPrint (LogFound (length (r :: data)))
                :: events (for_rows cfg ord (r :: data) PNone (set_queries qs m))
                   ++ [EPrint (LogPollingError e)]).
      split; [cbn [app]; by rewrite <- app_assoc|]. split; [|done].
      change (queries_made (EPrint ?l :: ?evs)) with (queries_made evs).
      unfold queries_made in *. by rewrite omap_app, Hq.
    + exists (EPrint (LogFound (length (r :: data)))
                :: events (for_rows cfg ord (r :: data) PNone (set_queries qs m))
                   ++ [EPrint (LogPollingError e)]).
      split; [cbn [app]; by rewrite <- app_assoc|]. split; [|done].
      change (queries_made (EPrint ?l :: ?evs)) with (queries_made evs).
      unfold queries_made in *. by rewrite omap_app, Hq.
  - by exists [EPrint (LogPollingError APIError)].
Qed.

End Pace.

Lemma posts_app (a b : list event) : posts (a ++ b) = posts a ++ posts b.
Proof. apply omap_app. Qed.

Lemma posts_waited (w : option Z) : posts (waited w) = [].
Proof. by destruct w. Qed.

Lemma send_posts (cfg : config) (depth : nat) (r : row) (h url : string) (p : payload)
    (resps : list response) (ra : json) :
  build_request cfg r = Ret (h, url, p) →
  ∃ read k,
    resps = read ++ (send_telegram_notification cfg depth r ra resps).1.2 ∧
    posts (send_telegram_notification cfg depth r ra resps).1.1 = replicate k p ∧
    (length read ≤ k ≤ S (length read))%nat ∧
    ((send_telegram_notification cfg depth r ra resps).2 = Ret tt → 1 ≤ k)%nat ∧
    (k = S (length read) → (send_telegram_notification cfg depth r ra resps).1.2 = []).
Proof.
  intros Hb.
  assert (∀ (w : option Z) (resp : response) rest l, ∃ read k,
    resp :: rest = read ++ rest ∧
    posts ((waited w ++ [EPost url p]) ++ [EPrint l]) = replicate k p ∧
    (length read ≤ k ≤ S (length read))%nat ∧
    (Ret tt = Ret tt :> result unit → 1 ≤ k)%nat ∧
    (k = S (length read) → rest = [])) as Hone.
  { intros w resp rest l. exists [resp], 1%nat. rewrite !posts_app, posts_waited.
    cbn. repeat split; (lia || done). }
  assert (∀ l : log, posts [EPrint l] = []) as Hprint by done.
  revert resps ra.
  induction depth as [|depth IH]; intros resps ra;
    cbn [send_telegram_notification]; rewrite Hb;
    (destruct (positive_wait ra) as [w|];
       [|by exists [], 0%nat; cbn; repeat split; (lia || done)]);
    (destruct resps as [|resp rest];
       [exists [], 1%nat; cbn [fst snd]; rewrite !posts_app, posts_waited;
        cbn; repeat split; lia|]);
    (destruct resp as [status body text|]; [|apply Hone]);
    (destruct (status =? 200); [apply Hone|]);
    (destruct (status =? 429); [|apply Hone]);
    (destruct body as [error_data|]; [|apply Hone]);
    (destruct (retry_after_of error_data) as [ra'|]; [|apply Hone]).
  - exists [HttpResponse status (Some error_data) text], 1%nat.
    cbn [fst snd app length]. rewrite !posts_app, posts_waited.
    cbn. repeat split; (lia || done).
  - destruct (IH rest ra') as (read & k & Hread & Hposts & Hk & _ & Hout).
    destruct (send_telegram_notification cfg depth r ra' rest) as [[evs unread] [[]|e]];
      cbn [fst snd] in *; exists (HttpResponse status (Some error_data) text :: read), (S k);
      rewrite !posts_app, posts_waited, Hposts; cbn [app length];
      (split; [by rewrite Hread at 1|]).
    + repeat split; try lia. intros [= Hk']. by apply Hout.
    + cbn. rewrite app_nil_r. repeat split; try lia. intros [= Hk']. by apply Hout.
Qed.

(** X26.  What the sender posts for a row whose request can be built:
    that request and nothing else, at least once, each time reading the
    next answer, so that the posts number the answers read, or one more
    when the answers have run out. *)
Theorem sender_posts_the_request
    (cfg : config) (depth : nat) (r : row) (h url : string) (p : payload)
    (resps : list response) :
  build_request cfg r = Ret (h, url, p) →
  ∃ read k,
    resps = read ++ (send_telegram_notification cfg depth r (JVal (PInt 0)) resps).1.2 ∧
    posts (send_telegram_notification cfg depth r (JVal (PInt 0)) resps).1.1
      = replicate k p ∧
    (1 ≤ k)%nat ∧ (length read ≤ k ≤ S (length read))%nat ∧
    (k = S (length read) →
     (send_telegram_notification cfg depth r (JVal (PInt 0)) resps).1.2 = []).
Proof.
  intros Hb.
  destruct (send_posts cfg depth r h url p resps (JVal (PInt 0)) Hb)
    as (read & k & Hread & Hposts & Hk & Hone & Hout).
  exists read, k. split; [done|]. split; [done|].
  split; [apply Hone; by eapply send_returns|]. by split.
Qed.

(** ** The further properties at concrete inputs *)

Lemma escape_markdown_mild_witness :
  mild "2.5 MON" ∧ escape_markdown "2.5 MON" = markdown_v2 "2.5 MON".
Proof.
  assert (mild "2.5 MON") as H.
  { intros c Hc. cbn in Hc.
    repeat (destruct Hc as [<-|Hc]; [reflexivity|]). destruct Hc. }
  split; [exact H|exact (escape_markdown_mild "2.5 MON" H)].
Defined.

Lemma escape_markdown_unreserved_witness :
  unreserved "4021" ∧ escape_markdown "4021" = "4021".
Proof.
  assert (unreserved "4021") as H.
  { intros c Hc. cbn in Hc.
    repeat (destruct Hc as [<-|Hc]; [reflexivity|]). destruct Hc. }
  split; [exact H|exact (escape_markdown_unreserved "4021" H)].
Defined.

Lemma load_processed_txs_list_witness :
  repeated_file !! PROCESSED_TXS_FILE
    = Some (Doc (JList [JVal (PStr "0xa"); JVal (PStr "0xa")])) ∧
  load_processed_txs repeated_file = list_to_set [PStr "0xa"; PStr "0xa"] ∧
  (size (load_processed_txs repeated_file) ≤ 2)%nat.
Proof.
  assert (repeated_file !! PROCESSED_TXS_FILE
          = Some (Doc (JList [JVal (PStr "0xa"); JVal (PStr "0xa")]))) as H.
  { apply lookup_singleton_eq. }
  split; [exact H|].
  destruct (load_processed_txs_list repeated_file _ H) as [Hall _].
  exact (Hall [PStr "0xa"; PStr "0xa"] eq_refl).
Defined.

Lemma truncate_addr_long_witness :
  PyStr.len "0xéééé" = 6%nat ∧ PyStr.len "ééèé" = 4%nat ∧
  PyStr.aligned "1234" ∧ PyStr.aligned "ééèé" ∧
  truncate_addr ("0xéééé" +:+ "1234" +:+ "ééèé") = "0xéééé" +:+ "..." +:+ "ééèé".
Proof.
  split; [reflexivity|]. split; [reflexivity|].
  split; [reflexivity|]. split; [reflexivity|].
  exact (truncate_addr_long "0xéééé" "1234" "ééèé" eq_refl eq_refl eq_refl eq_refl).
Defined.

Lemma build_request_shape_witness :
  build_request demo_cfg demo_row
    = Ret (demo_request.1.1, demo_request.1.2, demo_request.2) ∧
  PyStr.startswith "0x" demo_request.1.1 = true ∧
  parse_mode demo_request.2 = "MarkdownV2" ∧
  chat_id demo_request.2 = TELEGRAM_CHANNEL_ID demo_cfg.
Proof.
  assert (build_request demo_cfg demo_row
          = Ret (demo_request.1.1, demo_request.1.2, demo_request.2)) as Hb.
  { vm_compute. reflexivity. }
  split; [exact Hb|].
  destruct (build_request_shape demo_cfg demo_row _ _ _ Hb) as (Hh & _ & Hmode & Hchat & _).
  split; [exact Hh|]. split; [exact Hmode|exact Hchat].
Defined.

Lemma refused_delivery_is_marked_witness :
  sendable demo_row ∧
  (tx_hash_of demo_row ∉ processed_txs refusing_machine) ∧
  responses refusing_machine = [refused] ∧
  not_rate_limit refused ∧
  length (posts (events (process_row demo_cfg trie_order demo_row PNone refusing_machine)))
    = 1%nat ∧
  processed_txs (final (process_row demo_cfg trie_order demo_row PNone refusing_machine))
    = {[tx_hash_of demo_row]} ∪ processed_txs refusing_machine.
Proof.
  assert (sendable demo_row) as Hs by (repeat split).
  assert (tx_hash_of demo_row ∉ processed_txs refusing_machine) as Hfresh
    by apply not_elem_of_empty.
  assert (not_rate_limit refused) as Hnot by (cbn; lia).
  split; [exact Hs|]. split; [exact Hfresh|]. split; [reflexivity|]. split; [exact Hnot|].
  destruct (refused_delivery_is_marked demo_cfg trie_order demo_row PNone refusing_machine
              refused [] Hs Hfresh eq_refl Hnot) as (Hposts & _ & Hset & _).
  split; [exact Hposts|exact Hset].
Defined.


Lemma rate_limit_without_wait_witness :
  build_request demo_cfg demo_row
    = Ret (demo_request.1.1, demo_request.1.2, demo_request.2) ∧
  send_telegram_notification demo_cfg 2 demo_row (JVal (PInt 0))
      [HttpResponse 429 (Some (rate_limit_body 0)) "Too Many Requests"; ok_response]
    = ([EPost demo_request.1.2 demo_request.2;
        EPost demo_request.1.2 demo_request.2; EPrint (LogSent demo_request.1.1)],
       [], Ret tt) ∧
  send_telegram_notification demo_cfg 2 demo_row (JVal (PInt 0))
      [HttpResponse 429 (Some (JDict [("parameters", JDict [("retry_after", JVal PNone)])]))
         "Too Many Requests"; ok_response]
    = ([EPost demo_request.1.2 demo_request.2; EPrint (LogException TypeError)],
       [ok_response], Ret tt).
Proof.
  assert (build_request demo_cfg demo_row
          = Ret (demo_request.1.1, demo_request.1.2, demo_request.2)) as Hb.
  { vm_compute. reflexivity. }
  split; [exact Hb|]. split.
  - destruct (rate_limit_without_wait demo_cfg 1 demo_row _ _ _ (rate_limit_body 0)
                "Too Many Requests" [ok_response] Hb) as (Hzero & _ & _).
    rewrite (Hzero 0 eq_refl (Z.le_refl 0)).
    unfold ok_response. rewrite (send_ok demo_cfg 1 demo_row _ _ _ _ _ _ Hb). reflexivity.
  - destruct (rate_limit_without_wait demo_cfg 1 demo_row _ _ _
                (JDict [("parameters", JDict [("retry_after", JVal PNone)])])
                "Too Many Requests" [ok_response] Hb) as (_ & Hnone & _).
    apply (Hnone (JVal PNone) eq_refl). intros n. discriminate.
Defined.

Lemma files_follow_memory_witness :
  reliable aborting_machine ∧
  synced (final (poll_supabase_for_transfers demo_cfg trie_order
                   "2024-05-01T10:00:00+00:00" 2 aborting_machine)) ∧
  tx_hash_of demo_row
    ∈ load_processed_txs
        (fs (final (poll_supabase_for_transfers demo_cfg trie_order
                      "2024-05-01T10:00:00+00:00" 2 aborting_machine))).
Proof.
  assert (reliable aborting_machine) as Hrel.
  { intros w Hw. by apply elem_of_nil in Hw. }
  split; [exact Hrel|].
  pose proof (files_follow_memory demo_cfg trie_order "2024-05-01T10:00:00+00:00" 2
                aborting_machine Hrel) as Hsynced.
  split; [exact Hsynced|].
  destruct Hsynced as [-> _]. apply (bool_decide_unpack _). vm_compute. exact I.
Defined.

Lemma only_two_files_written_witness :
  "notes.txt" ≠ STATE_FILE ∧ "notes.txt" ≠ PROCESSED_TXS_FILE ∧
  fs (final (poll_supabase_for_transfers demo_cfg trie_order
               "2024-05-01T10:00:00+00:00" 1 one_row_machine)) !! "notes.txt"
    = fs one_row_machine !! "notes.txt".
Proof.
  assert ("notes.txt" ≠ STATE_FILE) as Hs by discriminate.
  assert ("notes.txt" ≠ PROCESSED_TXS_FILE) as Hp by discriminate.
  split; [exact Hs|]. split; [exact Hp|].
  exact (only_two_files_written demo_cfg trie_order _ 1 one_row_machine "notes.txt" Hs Hp).
Defined.

Lemma replay_is_skipped_witness :
  outcome (for_rows demo_cfg trie_order [demo_row] PNone one_row_machine)
    = Ret (PStr "2024-05-01T10:00:07+00:00") ∧
  for_rows demo_cfg trie_order [demo_row] PNone
      (final (for_rows demo_cfg trie_order [demo_row] PNone one_row_machine))
    = Ran [EPrint (LogSkipping (tx_hash_of demo_row))]
          (final (for_rows demo_cfg trie_order [demo_row] PNone one_row_machine))
          (Ret PNone).
Proof.
  assert (outcome (for_rows demo_cfg trie_order [demo_row] PNone one_row_machine)
          = Ret (PStr "2024-05-01T10:00:07+00:00")) as Hpre.
  { vm_compute. reflexivity. }
  split; [exact Hpre|].
  exact (replay_is_skipped demo_cfg trie_order [demo_row] PNone _ PNone one_row_machine Hpre).
Defined.

Lemma processed_batch_changes_nothing_witness :
  queries processed_machine = [QueryData [demo_row]] ∧
  (∀ r, r ∈ [demo_row] → tx_hash_of r ∈ processed_txs processed_machine) ∧
  (size (processed_txs processed_machine) ≤ 1000)%nat ∧
  final (poll_cycle demo_cfg trie_order processed_machine)
    = set_queries [] processed_machine ∧
  posts (events (poll_cycle demo_cfg trie_order processed_machine)) = [].
Proof.
  assert (∀ r, r ∈ [demo_row] → tx_hash_of r ∈ processed_txs processed_machine) as Hall.
  { intros r ->%list_elem_of_singleton.
    unfold processed_machine, demo_machine, processed_txs. by apply elem_of_singleton_2. }
  assert (size (processed_txs processed_machine) ≤ 1000)%nat as Hsize.
  { unfold processed_machine, demo_machine, processed_txs. rewrite size_singleton. lia. }
  split; [reflexivity|]. split; [exact Hall|]. split; [exact Hsize|].
  destruct (processed_batch_changes_nothing demo_cfg trie_order processed_machine
              [demo_row] [] eq_refl Hall Hsize) as (Hfinal & _ & Hposts & _).
  split; [exact Hfinal|exact Hposts].
Defined.

Lemma sent_at_most_once_witness :
  Forall sendable (rows_of (queries repeating_machine)) ∧
  (size (processed_txs repeating_machine) + rows_to_come 2 (queries repeating_machine)
     ≤ 1000)%nat ∧
  rows_of (queries repeating_machine)
    = [demo_row; demo_row; later_row; later_row; demo_row] ∧
  sent_rows (events (poll_loop demo_cfg trie_order 2 repeating_machine))
    = [demo_row; later_row] ∧
  NoDup (tx_hash_of <$> sent_rows (events (poll_loop demo_cfg trie_order 2 repeating_machine))).
Proof.
  assert (Forall sendable (rows_of (queries repeating_machine))) as Hall.
  { repeat (constructor; [repeat split|]). constructor. }
  assert (size (processed_txs repeating_machine) + rows_to_come 2 (queries repeating_machine)
            ≤ 1000)%nat as Hsize.
  { unfold repeating_machine, demo_machine, processed_txs, queries.
    rewrite size_empty. cbn. lia. }
  split; [exact Hall|]. split; [exact Hsize|]. split; [reflexivity|].
  split; [vm_compute; reflexivity|].
  exact (proj1 (sent_at_most_once demo_cfg trie_order 2 repeating_machine Hall Hsize)).
Defined.

Lemma restart_does_not_resend_witness :
  tx_hash_of demo_row ∈ load_processed_txs (fs restarted_machine) ∧
  (size (load_processed_txs (fs restarted_machine))
     + rows_to_come 3 (queries restarted_machine) ≤ 1000)%nat ∧
  ∀ r, r ∈ sent_rows (events (poll_supabase_for_transfers demo_cfg trie_order
                                "2024-05-01T10:00:00+00:00" 3 restarted_machine)) →
       tx_hash_of r ≠ tx_hash_of demo_row.
Proof.
  assert (load_processed_txs (fs restarted_machine) = {[tx_hash_of demo_row]}) as Hload.
  { apply load_processed_txs_save. }
  assert (tx_hash_of demo_row ∈ load_processed_txs (fs restarted_machine)) as Hin.
  { rewrite Hload. by apply elem_of_singleton_2. }
  assert (size (load_processed_txs (fs restarted_machine))
            + rows_to_come 3 (queries restarted_machine) ≤ 1000)%nat as Hsize.
  { rewrite Hload, size_singleton. cbn. lia. }
  split; [exact Hin|]. split; [exact Hsize|].
  exact (restart_does_not_resend demo_cfg trie_order _ 3 restarted_machine _ Hin Hsize).
Defined.

Lemma unsendable_row_blocks_witness :
  ¬ sendable null_hash_row ∧
  (tx_hash_of null_hash_row ∉ processed_txs blocked_machine) ∧
  queries blocked_machine = replicate 2 (QueryData [null_hash_row; demo_row]) ++ [] ∧
  final (poll_loop demo_cfg trie_order 2 blocked_machine) = set_queries [] blocked_machine ∧
  posts (events (poll_loop demo_cfg trie_order 2 blocked_machine)) = [] ∧
  sent_rows (events (poll_loop demo_cfg trie_order 2 blocked_machine))
    = replicate 2 null_hash_row.
Proof.
  assert (¬ sendable null_hash_row) as Hbad by (intros [[] _]).
  assert (tx_hash_of null_hash_row ∉ processed_txs blocked_machine) as Hfresh
    by apply not_elem_of_empty.
  split; [exact Hbad|]. split; [exact Hfresh|]. split; [reflexivity|].
  exact (unsendable_row_blocks demo_cfg trie_order null_hash_row [demo_row] 2 []
           blocked_machine Hbad Hfresh eq_refl).
Defined.

Lemma sender_posts_the_request_witness :
  build_request demo_cfg demo_row
    = Ret (demo_request.1.1, demo_request.1.2, demo_request.2) ∧
  ∃ read k,
    [rate_limited 5; ok_response; refused]
      = read ++ (send_telegram_notification demo_cfg (recursion_limit demo_cfg) demo_row
                   (JVal (PInt 0)) [rate_limited 5; ok_response; refused]).1.2 ∧
    posts (send_telegram_notification demo_cfg (recursion_limit demo_cfg) demo_row
             (JVal (PInt 0)) [rate_limited 5; ok_response; refused]).1.1
      = replicate k demo_request.2 ∧
    (1 ≤ k)%nat ∧ (length read ≤ k ≤ S (length read))%nat.
Proof.
  assert (build_request demo_cfg demo_row
          = Ret (demo_request.1.1, demo_request.1.2, demo_request.2)) as Hb.
  { vm_compute. reflexivity. }
  split; [exact Hb|].
  destruct (sender_posts_the_request demo_cfg (recursion_limit demo_cfg) demo_row _ _ _
              [rate_limited 5; ok_response; refused] Hb)
    as (read & k & Hread & Hposts & Hone & Hk & _).
  exists read, k. split; [exact Hread|]. split; [exact Hposts|]. split; [exact Hone|exact Hk].
Defined.
